(** * Performance benchmarking utilities of Heroic Games Launcher

    A shallow embedding of the statistics engine ([calculateStats]), the
    result store ([loadBaseline], [compareWithBaseline], [exportToCSV],
    [cleanupOldResults]) and the comparison command line tool
    ([getLatestReport], [compareReports], [main]), of the measuring
    helpers ([benchmarkFunction], [assertPerformanceThresholds],
    [formatMemory], the mock data) and of the result tracker, together
    with the properties of these functions.

    JavaScript numbers are IEEE 754 binary64 values and are modelled by the
    primitive floats of the kernel, so that every arithmetic step rounds as
    it does at run time.  Integer-valued quantities that JavaScript computes
    exactly (array lengths, array indices, modification times in
    milliseconds, iteration counts) are kept in [Z]. *)

From Stdlib Require Import ZArith List String Ascii Bool Lia Floats.
From Stdlib Require Import Sorting.Sorted Sorting.Permutation.
From stdpp Require Import base option list gmap strings pretty.

Set Warnings "-inexact-float".

Local Open Scope Z_scope.

(** ** JavaScript values and built-ins *)

Module Js.

(** A statistic read from an object is a number or, when the property is
    missing (an array read out of range), [undefined]. *)
Inductive value : Type :=
| Num (x : float)
| Undefined.

(** [ToNumber]: [undefined] converts to NaN. *)
Definition ToNumber (v : value) : float :=
  match v with
  | Num x => x
  | Undefined => nan
  end.

(** Exceptions the modelled code can raise. [InvalidInput] is the
    condition the design names for rejected input; no code raises it. *)
Inductive error : Type :=
| TypeError
| SyntaxError
| InvalidInput
| ENOENT.

(** Outcome of a call: normal completion with a value, or a throw. *)
Inductive completion (A : Type) : Type :=
| Normal (a : A)
| Throw (e : error).
Arguments Normal {A} a.
Arguments Throw {A} e.

Definition bind {A B} (c : completion A) (k : A -> completion B)
  : completion B :=
  match c with
  | Normal a => k a
  | Throw e => Throw e
  end.

(** [traverse f l] runs [f] on the elements from left to right and stops
    at the first throw. *)
Fixpoint traverse {A B} (f : A -> completion B) (l : list A)
  : completion (list B) :=
  match l with
  | [] => Normal []
  | x :: l' => bind (f x) (fun y => bind (traverse f l') (fun ys => Normal (y :: ys)))
  end.

(** The number of a non-negative integer below 2^63 (array lengths are
    below 2^32); such integers up to 2^53 convert exactly. *)
Definition of_int (n : Z) : float := of_uint63 (Uint63.of_Z n).

(** [Math.floor], for use as an array index: the integer below a finite
    number; NaN and the infinities are no index. *)
Definition Math_floor (x : float) : option Z :=
  match Prim2SF x with
  | S754_zero _ => Some 0
  | S754_finite s m e => Some (Z.shiftl (cond_Zopp s (Zpos m)) e)
  | S754_infinity _ | S754_nan => None
  end.

(** [a[k]] at an integer [k]: nothing outside [0 .. length-1]. *)
Definition get {A} (a : list A) (k : Z) : option A :=
  if k <? 0 then None else a !! Z.to_nat k.

Definition index (a : list float) (k : option Z) : value :=
  match k with
  | Some k => match get a k with Some x => Num x | None => Undefined end
  | None => Undefined
  end.

(** [Math.pow(v, 2)], the square of [v] rounded to binary64. *)
Definition Math_pow2 (v : float) : float := (v * v)%float.

(** *** [Array.prototype.sort]

    The sort is stable; with [precedes a b] the test
    [comparefn(a, b) < 0], an element moves in front of an earlier one
    only when it precedes it.  For a consistent comparator every stable
    sort yields this list.  With a comparator that is not consistent
    (here: a NaN among the numbers, which precedes nothing and is
    preceded by nothing) the language leaves the order to the engine,
    and an engine may return another permutation than this one. *)
Section Sort.
Context {A : Type} (precedes : A -> A -> bool).

Fixpoint insert (x : A) (l : list A) : list A :=
  match l with
  | [] => [x]
  | y :: l' => if precedes y x then y :: insert x l' else x :: y :: l'
  end.

Fixpoint sort (l : list A) : list A :=
  match l with
  | [] => []
  | x :: l' => insert x (sort l')
  end.
End Sort.

(** [Array.prototype.slice(start)] at an integer [start]. *)
Definition slice {A} (l : list A) (start : Z) : list A :=
  let len := Z.of_nat (length l) in
  let k := if start <? 0 then Z.max (len + start) 0 else Z.min start len in
  drop (Z.to_nat k) l.

(** [String.prototype.endsWith]. *)
Definition endsWith (s suffix : string) : bool :=
  bool_decide (List.rev (list_ascii_of_string suffix)
                 `prefix_of` List.rev (list_ascii_of_string s)).

(** [Array.prototype.join]. *)
Fixpoint join (sep : string) (l : list string) : string :=
  match l with
  | [] => ""
  | [s] => s
  | s :: l' => s +:+ sep +:+ join sep l'
  end.

Definition newline : string := String "010"%char EmptyString.

(** [s.replace(/[:.]/g, '-')]. *)
Fixpoint replace_colon_dot (s : string) : string :=
  match s with
  | EmptyString => EmptyString
  | String c s' =>
      String (if (Ascii.eqb c ":" || Ascii.eqb c ".")%bool then "-"%char else c)
             (replace_colon_dot s')
  end.

(** *** [Number.prototype.toString] and [toFixed] *)

Definition digits_of (n : Z) : string := pretty (Z.to_N n).

(** The number of decimal digits of a positive integer. *)
Definition decimal_length (v : Z) : Z :=
  Z.of_nat (String.length (digits_of v)).

(** [Number::toString] of a finite [x = m * 2^e >= 10^21]: the shortest
    digit string [s] (of [k] digits) with [s * 10^(n-k)] rounding to [x],
    closest to [x], printed as [d.ddde+(n-1)]. *)
Definition rounds_to (m : positive) (e : Z) (w : Z) : bool :=
  let v := Zpos m * 2 ^ e in
  let up := 2 ^ (e - 1) in
  let down := if (Zpos m =? 2 ^ 52) then 2 ^ (e - 2) else 2 ^ (e - 1) in
  if Z.even (Zpos m)
  then (v - down <=? w) && (w <=? v + up)
  else (v - down <? w) && (w <? v + up).

Definition closer (v : Z) (a b : Z * Z * Z) : Z * Z * Z :=
  let '(sa, ja, _) := a in
  let '(sb, jb, _) := b in
  let da := Z.abs (sa * 10 ^ ja - v) in
  let db := Z.abs (sb * 10 ^ jb - v) in
  if da <? db then a
  else if db <? da then b
  else if Z.even sa then a else b.

Definition shortest_at (m : positive) (e : Z) (k : Z) : option (Z * Z * Z) :=
  let v := Zpos m * 2 ^ e in
  let nd := decimal_length v in
  let candidates :=
    flat_map (fun j => [(v / 10 ^ j, j, j + k); (v / 10 ^ j + 1, j, j + k)])
             [nd - k; nd + 1 - k] in
  let valid :=
    List.filter (fun '(s, j, _) =>
                   (10 ^ (k - 1) <=? s) && (s <? 10 ^ k)
                   && rounds_to m e (s * 10 ^ j))%bool
                candidates in
  match valid with
  | [] => None
  | c :: cs => Some (fold_left (closer v) cs c)
  end.

Fixpoint shortest (m : positive) (e : Z) (k : Z) (fuel : nat)
  : option (Z * Z * Z) :=
  match fuel with
  | O => None
  | S fuel' =>
      match shortest_at m e k with
      | Some r => Some r
      | None => shortest m e (k + 1) fuel'
      end
  end.

Definition toString_large (m : positive) (e : Z) : string :=
  match shortest m e 1 17 with
  | Some (s, _, n) =>
      match digits_of s with
      | String d EmptyString => String d "e+" +:+ digits_of (n - 1)
      | String d ds => String d ("." +:+ ds) +:+ "e+" +:+ digits_of (n - 1)
      | EmptyString => EmptyString
      end
  | None => EmptyString
  end.

(** The digits of [n / 100] with two decimals. *)
Definition two_decimals (n : Z) : string :=
  let ds := digits_of n in
  let ds := if (String.length ds <=? 2)%nat
            then (if (String.length ds <=? 1)%nat then "00" else "0") +:+ ds
            else ds in
  let k := (String.length ds - 2)%nat in
  substring 0 k ds +:+ "." +:+ substring k 2 ds.

(** [x.toFixed(2)]: NaN and the infinities print by name; a magnitude of
    [10^21] or more prints as [toString] does; otherwise the integer [n]
    with [n / 100] nearest to the magnitude (the larger of two such) is
    printed with two decimals. *)
Definition toFixed2 (x : float) : string :=
  match Prim2SF x with
  | S754_nan => "NaN"
  | S754_infinity false => "Infinity"
  | S754_infinity true => "-Infinity"
  | S754_zero _ => "0.00"
  | S754_finite s m e =>
      (if s then "-" else "") +:+
      (if 0 <=? e
       then if 10 ^ 21 <=? Zpos m * 2 ^ e
            then toString_large m e
            else two_decimals (Zpos m * 2 ^ e * 100)
       else two_decimals ((2 * (Zpos m * 100) + 2 ^ (- e)) / 2 ^ (- e + 1)))
  end.

End Js.

Import Js.

(** ** Statistics engine (performance-metrics.ts) *)

Record PerformanceStats : Type := mkStats {
  mean : value;
  median : value;
  min : value;
  max : value;
  p95 : value;
  p99 : value;
  stdDev : value
}.

(** The comparator [(a, b) => a - b] of [calculateStats], as the test
    [a - b < 0]. *)
Definition ascending (a b : float) : bool := (a - b <? 0)%float.

(** The length [n] is an integer, and so is [n - 1]; the quotient [n / 2]
    and the products [n * 0.95] and [n * 0.99] are binary64 operations. *)
Definition calculateStats (durations : list float)
  : completion PerformanceStats :=
  let sorted := sort ascending durations in
  let n := Z.of_nat (length sorted) in
  let mean := (fold_left (fun sum val => sum + val) sorted 0 / of_int n)%float in
  let median := index sorted (Math_floor (of_int n / 2)) in
  let min := index sorted (Some 0) in
  let max := index sorted (Some (n - 1)) in
  let p95 := index sorted (Math_floor (of_int n * 0.95)) in
  let p99 := index sorted (Math_floor (of_int n * 0.99)) in
  let variance :=
    (fold_left (fun sum val => sum + Math_pow2 (val - mean)) sorted 0
     / of_int n)%float in
  let stdDev := sqrt variance in
  Normal (mkStats (Num mean) median min max p95 p99 (Num stdDev)).


(** ** Result store (performance-storage.ts) *)

Record Metadata : Type := {
  memoryDelta : option float;
  additionalMetrics : option (gmap string float)
}.

Record TestResult : Type := {
  testName : string;
  timestamp : string;
  commit : option string;
  branch : option string;
  stats : PerformanceStats;
  iterations : Z;
  metadata : option Metadata
}.

Record Environment : Type := {
  node : string;
  platform : string;
  arch : string
}.

(** [reportTimestamp] is the field [timestamp] of a report. *)
Record PerformanceReport : Type := {
  testSuite : string;
  reportTimestamp : string;
  environment : Environment;
  results : list TestResult
}.

Record Changes : Type := {
  meanChange : float;
  medianChange : float;
  p95Change : float;
  p99Change : float
}.

(** [comparedTest], [baselineStats] and [currentStats] are the fields
    [testName], [baseline] and [current] of a comparison. *)
Record ComparisonResult : Type := {
  comparedTest : string;
  baselineStats : PerformanceStats;
  currentStats : PerformanceStats;
  changes : Changes;
  regression : bool;
  improvement : bool
}.

(** *** The file system

    The results directory ([RESULTS_DIR]) is absent or maps file names to
    files, without sub-directories; files elsewhere are kept by path.  A
    file carries what [JSON.parse] makes of its text (a report, or a
    syntax error for a text that is no JSON) and its modification time in
    milliseconds.  A text that is JSON without being a report ([null],
    an object with other fields) is not among the files of this model. *)
Inductive FileContent : Type :=
| ReportJson (report : PerformanceReport)
| Text (text : string).

Record File : Type := {
  content : FileContent;
  mtime : Z
}.

Record FileSystem : Type := {
  results_dir : option (gmap string File);
  elsewhere : gmap string File
}.

(** A path: [join(RESULTS_DIR, name)], or a path outside the directory. *)
Inductive path : Type :=
| InResultsDir (name : string)
| Elsewhere (p : string).

Definition BASELINE_FILE : path := InResultsDir "baseline.json".

Definition lookup_file (fs : FileSystem) (p : path) : option File :=
  match p with
  | InResultsDir name => results_dir fs ≫= (fun d => d !! name)
  | Elsewhere p => elsewhere fs !! p
  end.

Definition existsSync (fs : FileSystem) (p : path) : bool :=
  bool_decide (is_Some (lookup_file fs p)).

(** [JSON.parse(readFileSync(p, 'utf-8'))]. *)
Definition readJson (fs : FileSystem) (p : path) : completion PerformanceReport :=
  match lookup_file fs p with
  | None => Throw ENOENT
  | Some f =>
      match content f with
      | ReportJson r => Normal r
      | Text _ => Throw SyntaxError
      end
  end.

(** An entry of [readdirSync(RESULTS_DIR)] with its [statSync] time. *)
Record Entry : Type := {
  name : string;
  entryPath : path;
  entryMtime : Z
}.

Definition entry_of (f : string * File) : Entry :=
  {| name := f.1; entryPath := InResultsDir f.1; entryMtime := mtime f.2 |}.

(** The comparator [(a, b) => b.mtime.getTime() - a.mtime.getTime()], as
    the test that the difference is negative. *)
Definition newest_first (a b : Entry) : bool :=
  entryMtime b - entryMtime a <? 0.

(** What the code writes to the console. *)
Inductive message : Type :=
| NoBaselineFound
| NoBaselineForTest (test : string)
| FailedToLoadBaseline
| FailedToLoadReport (p : path)
| DeletedOldResult (file : string)
| FailedToDelete (file : string)
| CleanedUp (count : nat)
| CsvExported (p : path).

Module ResultsStorage.

Definition loadBaseline (fs : FileSystem)
  : option PerformanceReport * list message :=
  if negb (existsSync fs BASELINE_FILE) then (None, [])
  else match readJson fs BASELINE_FILE with
       | Normal r => (Some r, [])
       | Throw _ => (None, [FailedToLoadBaseline])
       end.

Definition loadReport (fs : FileSystem) (filepath : path)
  : option PerformanceReport * list message :=
  if negb (existsSync fs filepath) then (None, [])
  else match readJson fs filepath with
       | Normal r => (Some r, [])
       | Throw _ => (None, [FailedToLoadReport filepath])
       end.

(** The body of the loop of [compareWithBaseline] for a matched pair. *)
Definition comparison (baselineResult currentResult : TestResult)
    (regressionThreshold : float) : ComparisonResult :=
  let b := stats baselineResult in
  let c := stats currentResult in
  let meanChange :=
    ((ToNumber (mean c) - ToNumber (mean b)) / ToNumber (mean b))%float in
  let medianChange :=
    ((ToNumber (median c) - ToNumber (median b)) / ToNumber (median b))%float in
  let p95Change :=
    ((ToNumber (p95 c) - ToNumber (p95 b)) / ToNumber (p95 b))%float in
  let p99Change :=
    ((ToNumber (p99 c) - ToNumber (p99 b)) / ToNumber (p99 b))%float in
  let regression := (regressionThreshold <? meanChange)%float in
  let improvement := (meanChange <? - regressionThreshold)%float in
  {| comparedTest := testName currentResult;
     baselineStats := b;
     currentStats := c;
     changes := {| meanChange := meanChange; medianChange := medianChange;
                   p95Change := p95Change; p99Change := p99Change |};
     regression := regression;
     improvement := improvement |}.

(** The loop over [current.results]: comparisons pushed and warnings
    printed, in order. *)
Fixpoint compare_each (baselineResults currentResults : list TestResult)
    (regressionThreshold : float) : list ComparisonResult * list message :=
  match currentResults with
  | [] => ([], [])
  | currentResult :: rest =>
      let '(comparisons, warnings) :=
        compare_each baselineResults rest regressionThreshold in
      match find (fun r => String.eqb (testName r) (testName currentResult))
                 baselineResults with
      | None => (comparisons, NoBaselineForTest (testName currentResult) :: warnings)
      | Some baselineResult =>
          (comparison baselineResult currentResult regressionThreshold
             :: comparisons, warnings)
      end
  end.

Definition compareWithBaseline (fs : FileSystem) (current : PerformanceReport)
    (regressionThreshold : float) : list ComparisonResult * list message :=
  match loadBaseline fs with
  | (None, log) => ([], log ++ [NoBaselineFound])
  | (Some baseline, log) =>
      let '(comparisons, warnings) :=
        compare_each (results baseline) (results current) regressionThreshold in
      (comparisons, log ++ warnings)
  end.

Definition shouldFailOnRegression (comparisons : list ComparisonResult) : bool :=
  existsb regression comparisons.

(** A CSV cell of a statistic: [toFixed] on [undefined] is a TypeError. *)
Definition toFixed (v : value) : completion string :=
  match v with
  | Num x => Normal (toFixed2 x)
  | Undefined => Throw TypeError
  end.

Definition csv_header : string :=
  "Test Name,Timestamp,Mean (ms),Median (ms),Min (ms),Max (ms),P95 (ms),P99 (ms),Std Dev (ms),Iterations".

Definition csv_row (result : TestResult) : completion string :=
  let s := stats result in
  bind (traverse toFixed [mean s; median s; min s; max s; p95 s; p99 s; stdDev s])
       (fun cells =>
          Normal (join "," ([testName result; timestamp result] ++ cells
                              ++ [pretty (iterations result)]))).

(** A name with a path separator: [join(RESULTS_DIR, name)] then names a
    file of another directory than the results directory (a name whose
    segments [.] or [..] lead back into it is not told apart). *)
Definition has_separator (name : string) : bool :=
  existsb (Ascii.eqb "/") (list_ascii_of_string name).

(** [exportToCSV] at the instant [now] (its ISO text and milliseconds):
    the path written and the file system afterwards.  The rows are built
    first, then the file is written with [writeFileSync], which creates
    no directory: writing into a missing directory fails, and so does
    writing under a name with a path separator, since the results
    directory has no sub-directory. *)
Definition exportToCSV (fs : FileSystem) (now_iso : string) (now_ms : Z)
    (report : PerformanceReport)
  : completion (path * FileSystem * list message) :=
  bind (traverse csv_row (results report)) (fun rows =>
    let csv := join newline (csv_header :: rows) in
    let filename := testSuite report +:+ "_" +:+ replace_colon_dot now_iso +:+ ".csv" in
    let filepath := InResultsDir filename in
    match results_dir fs with
    | None => Throw ENOENT
    | Some d =>
        if has_separator filename then Throw ENOENT
        else
          Normal (filepath,
                  {| results_dir := Some (<[filename := {| content := Text csv; mtime := now_ms |}]> d);
                     elsewhere := elsewhere fs |},
                  [CsvExported filepath])
    end).

(** [unlinkSync] in the results directory. *)
Definition unlinkSync (d : gmap string File) (file : string)
  : completion (gmap string File) :=
  match d !! file with
  | Some _ => Normal (delete file d)
  | None => Throw ENOENT
  end.

Fixpoint delete_each (d : gmap string File) (toDelete : list Entry)
  : gmap string File * list message :=
  match toDelete with
  | [] => (d, [])
  | file :: rest =>
      match unlinkSync d (name file) with
      | Normal d' =>
          let '(d'', log) := delete_each d' rest in
          (d'', DeletedOldResult (name file) :: log)
      | Throw _ =>
          let '(d'', log) := delete_each d rest in
          (d'', FailedToDelete (name file) :: log)
      end
  end.

(** The files [cleanupOldResults] considers, newest first. *)
Definition old_results (d : gmap string File) : list Entry :=
  sort newest_first
    (map entry_of
       (List.filter (fun f => endsWith f.1 ".json"
                              && negb (String.eqb f.1 "baseline.json"))%bool
                    (map_to_list d))).

Definition cleanupOldResults (fs : FileSystem) (keepLast : Z)
  : FileSystem * list message :=
  match results_dir fs with
  | None => (fs, [])
  | Some d =>
      let files := old_results d in
      let toDelete := slice files keepLast in
      let '(d', log) := delete_each d toDelete in
      ({| results_dir := Some d'; elsewhere := elsewhere fs |},
       log ++ (if (0 <? length toDelete)%nat then [CleanedUp (length toDelete)] else []))
  end.

End ResultsStorage.

(** ** Comparison tool (scripts/compare-performance.ts) *)

Module CompareTool.

Definition REGRESSION_THRESHOLD : float := 0.1.
Definition IMPROVEMENT_THRESHOLD : float := 0.1.

(** [loadReport] throws when the file is missing or is not JSON. *)
Definition loadReport (fs : FileSystem) (filepath : path)
  : completion PerformanceReport :=
  if negb (existsSync fs filepath) then Throw ENOENT
  else readJson fs filepath.

Definition getLatestReport (fs : FileSystem) : option path :=
  match results_dir fs with
  | None => None
  | Some d =>
      let files :=
        sort newest_first
          (map entry_of
             (List.filter (fun f => endsWith f.1 "_report_" && endsWith f.1 ".json")%bool
                          (map_to_list d))) in
      match files with
      | [] => None
      | latest :: _ => Some (entryPath latest)
      end
  end.

Definition comparison (baselineResult currentResult : TestResult)
  : ComparisonResult :=
  let b := stats baselineResult in
  let c := stats currentResult in
  let meanChange :=
    ((ToNumber (mean c) - ToNumber (mean b)) / ToNumber (mean b))%float in
  let medianChange :=
    ((ToNumber (median c) - ToNumber (median b)) / ToNumber (median b))%float in
  let p95Change :=
    ((ToNumber (p95 c) - ToNumber (p95 b)) / ToNumber (p95 b))%float in
  let p99Change :=
    ((ToNumber (p99 c) - ToNumber (p99 b)) / ToNumber (p99 b))%float in
  let regression := (REGRESSION_THRESHOLD <? meanChange)%float in
  let improvement := (meanChange <? - IMPROVEMENT_THRESHOLD)%float in
  {| comparedTest := testName currentResult;
     baselineStats := b;
     currentStats := c;
     changes := {| meanChange := meanChange; medianChange := medianChange;
                   p95Change := p95Change; p99Change := p99Change |};
     regression := regression;
     improvement := improvement |}.

Fixpoint compare_each (baselineResults currentResults : list TestResult)
  : list ComparisonResult * list message :=
  match currentResults with
  | [] => ([], [])
  | currentResult :: rest =>
      let '(comparisons, warnings) := compare_each baselineResults rest in
      match find (fun r => String.eqb (testName r) (testName currentResult))
                 baselineResults with
      | None => (comparisons, NoBaselineForTest (testName currentResult) :: warnings)
      | Some baselineResult =>
          (comparison baselineResult currentResult :: comparisons, warnings)
      end
  end.

Definition compareReports (baseline current : PerformanceReport)
  : list ComparisonResult * list message :=
  compare_each (results baseline) (results current).

(** How the process ends: the exit status and the reason printed. *)
Inductive reason : Type :=
| NoBaseline
| NoPerformanceResults
| Usage
| NoMatchingTests
| Uncaught (e : error)
| RegressionsDetected (regressed : list string)
| ImprovementsDetected (improved : list string)
| Stable.

Record exit : Type := { status : Z; why : reason }.

(** The statistics that the detailed listing of [printComparison] prints
    with [toFixed], in the order of the listing. *)
Definition listed_statistics (comp : ComparisonResult) : list value :=
  let b := baselineStats comp in
  let c := currentStats comp in
  [mean b; mean c; median b; median c; p95 b; p95 c; p99 b; p99 c].

(** The exit of [printComparison].  The detailed listing comes first: a
    missing statistic there is the TypeError of [toFixed], which nothing
    catches.  The summary follows. *)
Definition printComparison (comparisons : list ComparisonResult) : exit :=
  match traverse (fun comp => traverse ResultsStorage.toFixed (listed_statistics comp))
                 comparisons with
  | Throw e => {| status := 1; why := Uncaught e |}
  | Normal _ =>
      let regressed := List.filter regression comparisons in
      let improved := List.filter improvement comparisons in
      if (0 <? length regressed)%nat
      then {| status := 1; why := RegressionsDetected (map comparedTest regressed) |}
      else if (0 <? length improved)%nat
      then {| status := 0; why := ImprovementsDetected (map comparedTest improved) |}
      else {| status := 0; why := Stable |}
  end.

Definition compare_and_print (loaded : completion (PerformanceReport * PerformanceReport))
  : exit :=
  match loaded with
  | Throw e => {| status := 1; why := Uncaught e |}
  | Normal (baselineReport, currentReport) =>
      let comparisons := (compareReports baselineReport currentReport).1 in
      if (length comparisons =? 0)%nat
      then {| status := 1; why := NoMatchingTests |}
      else printComparison comparisons
  end.

Definition main (fs : FileSystem) (args : list path) : exit :=
  match args with
  | [file1; file2] =>
      compare_and_print
        (bind (loadReport fs file1) (fun baselineReport =>
         bind (loadReport fs file2) (fun currentReport =>
         Normal (baselineReport, currentReport))))
  | [] =>
      if negb (existsSync fs BASELINE_FILE)
      then {| status := 1; why := NoBaseline |}
      else match getLatestReport fs with
           | None => {| status := 1; why := NoPerformanceResults |}
           | Some latestFile =>
               compare_and_print
                 (bind (loadReport fs BASELINE_FILE) (fun baselineReport =>
                  bind (loadReport fs latestFile) (fun currentReport =>
                  Normal (baselineReport, currentReport))))
           end
  | _ => {| status := 1; why := Usage |}
  end.

End CompareTool.

(** ** Measurement, thresholds and mock data (performance-metrics.ts) *)

(** [Math.max(...values)]: NaN as soon as a value is NaN; otherwise the
    largest value, [+0] counting as larger than [-0]; [-Infinity] when
    there is no value. *)
Definition is_positive_zero (x : float) : bool :=
  match Prim2SF x with S754_zero false => true | _ => false end.

Definition is_negative_zero (x : float) : bool :=
  match Prim2SF x with S754_zero true => true | _ => false end.

Fixpoint Math_max_from (highest : float) (values : list float) : float :=
  match values with
  | [] => highest
  | number :: rest =>
      if is_nan number then nan
      else Math_max_from
             (if (is_positive_zero number && is_negative_zero highest)
                 || (highest <? number)%float
              then number else highest)
             rest
  end.

Definition Math_max (values : list float) : float :=
  Math_max_from neg_infinity values.

Module Metrics.

Record MemoryUsage : Type := {
  rss : float;
  heapTotal : float;
  heapUsed : float;
  external : float;
  arrayBuffers : float
}.

(** The object [memoryDelta] of the metrics; [heapUsedDelta] is its
    field [heapUsed], and so on. *)
Record MemoryDelta : Type := {
  heapUsedDelta : float;
  heapTotalDelta : float;
  externalDelta : float;
  rssDelta : float
}.

Record PerformanceMetrics : Type := {
  duration : float;
  memoryBefore : MemoryUsage;
  memoryAfter : MemoryUsage;
  memoryDelta : MemoryDelta
}.

Record PerformanceThresholds : Type := {
  maxDuration : option float;
  maxMemoryIncrease : option float;
  maxP95Duration : option float;
  maxP99Duration : option float
}.

(** What [benchmarkFunction] resolves to. *)
Record Benchmark (T : Type) : Type := {
  results : list T;
  durations : list float;
  stats : PerformanceStats;
  metrics : list PerformanceMetrics
}.
Arguments results {T} _.
Arguments durations {T} _.
Arguments stats {T} _.
Arguments metrics {T} _.

Section Measure.
Context {World T : Type}.

(** [performance.now()] and [process.memoryUsage()] read the world, which
    may change by the reading; the measured function runs in the world
    and returns or throws. *)
Variable performance_now : World -> float * World.
Variable process_memoryUsage : World -> MemoryUsage * World.

Definition measurePerformance (fn : World -> completion T * World) (w : World)
  : completion (T * PerformanceMetrics) * World :=
  let '(memoryBefore, w) := process_memoryUsage w in
  let '(startTime, w) := performance_now w in
  let '(outcome, w) := fn w in
  match outcome with
  | Throw e => (Throw e, w)
  | Normal result =>
      let '(endTime, w) := performance_now w in
      let '(memoryAfter, w) := process_memoryUsage w in
      (Normal
         (result,
          {| duration := (endTime - startTime)%float;
             memoryBefore := memoryBefore;
             memoryAfter := memoryAfter;
             memoryDelta :=
               {| heapUsedDelta := (heapUsed memoryAfter - heapUsed memoryBefore)%float;
                  heapTotalDelta := (heapTotal memoryAfter - heapTotal memoryBefore)%float;
                  externalDelta := (external memoryAfter - external memoryBefore)%float;
                  rssDelta := (rss memoryAfter - rss memoryBefore)%float |} |}),
       w)
  end.

(** The loop [for (let i = 0; i < iterations; i++)] with [remaining]
    rounds to go: each round pushes onto the three arrays. *)
Fixpoint benchmark_rounds (fn : World -> completion T * World) (remaining : nat)
    (results : list T) (durations : list float)
    (metrics : list PerformanceMetrics) (w : World)
  : completion (list T * list float * list PerformanceMetrics) * World :=
  match remaining with
  | O => (Normal (results, durations, metrics), w)
  | S remaining' =>
      match measurePerformance fn w with
      | (Throw e, w') => (Throw e, w')
      | (Normal (result, iterationMetrics), w') =>
          benchmark_rounds fn remaining'
            (results ++ [result])
            (durations ++ [duration iterationMetrics])
            (metrics ++ [iterationMetrics]) w'
      end
  end.

(** [benchmarkFunction] for an integer number of iterations. *)
Definition benchmarkFunction (fn : World -> completion T * World)
    (iterations : Z) (w : World) : completion (Benchmark T) * World :=
  match benchmark_rounds fn (Z.to_nat iterations) [] [] [] w with
  | (Throw e, w') => (Throw e, w')
  | (Normal (results, durations, metrics), w') =>
      (bind (calculateStats durations) (fun stats =>
         Normal {| results := results; durations := durations;
                   stats := stats; metrics := metrics |}),
       w')
  end.

End Measure.

(** [expect(received).toBeLessThan(expected)] holds when [received] is a
    number below [expected]; on [undefined] the matcher itself throws. *)
Definition toBeLessThan (received : value) (expected : float) : bool :=
  match received with
  | Num x => (x <? expected)%float
  | Undefined => false
  end.

(** The expectations of [assertPerformanceThresholds], in its order. *)
Inductive expectation : Type :=
| MeanBelowMaxDuration
| P95BelowMaxP95Duration
| P99BelowMaxP99Duration
| MemoryBelowMaxMemoryIncrease.

(** The assertion returns, or throws at the first expectation that does
    not hold. *)
Inductive assertion : Type :=
| Returns
| ThrowsAt (failed : expectation).

(** [if (threshold !== undefined) expect(received).toBeLessThan(threshold)],
    followed by [rest]. *)
Definition expect_below (threshold : option float) (received : value)
    (e : expectation) (rest : assertion) : assertion :=
  match threshold with
  | None => rest
  | Some t => if toBeLessThan received t then rest else ThrowsAt e
  end.

Definition assertPerformanceThresholds (stats : PerformanceStats)
    (metrics : list PerformanceMetrics) (thresholds : PerformanceThresholds)
  : assertion :=
  expect_below (maxDuration thresholds) (mean stats) MeanBelowMaxDuration
    (expect_below (maxP95Duration thresholds) (p95 stats) P95BelowMaxP95Duration
       (expect_below (maxP99Duration thresholds) (p99 stats) P99BelowMaxP99Duration
          (expect_below (maxMemoryIncrease thresholds)
             (Num (Math_max (map (fun m => heapUsedDelta (memoryDelta m)) metrics)))
             MemoryBelowMaxMemoryIncrease
             Returns))).

Definition units : list string := ["B"; "KB"; "MB"; "GB"].

(** The loop [while (size >= 1024 && unitIndex < units.length - 1)] of
    [formatMemory], with [remaining] the number of units above the
    current one. *)
Fixpoint formatMemory_loop (remaining : nat) (size : float) (unitIndex : nat)
  : float * nat :=
  match remaining with
  | O => (size, unitIndex)
  | S remaining' =>
      if (1024 <=? size)%float
      then formatMemory_loop remaining' (size / 1024)%float (S unitIndex)
      else (size, unitIndex)
  end.

Definition formatMemory (bytes : float) : string :=
  let '(size, unitIndex) := formatMemory_loop (length units - 1) bytes 0 in
  toFixed2 size +:+ " " +:+ nth unitIndex units "".

Record MockGame : Type := {
  app_name : string;
  title : string;
  art_cover : string;
  install_path : string;
  is_installed : bool
}.

(** The element that [generateMockGameLibrary] makes for the index [i]. *)
Definition mockGame (i : Z) : MockGame :=
  {| app_name := "game_" +:+ pretty i;
     title := "Game " +:+ pretty i;
     art_cover := "https://example.com/cover_" +:+ pretty i +:+ ".jpg";
     install_path := "/games/game_" +:+ pretty i;
     is_installed := Z.rem i 3 =? 0 |}.

(** [Array.from({ length: size }, (_, i) => ...)] at an integer [size]:
    no element for a negative size; an array length of [2^32] or more is
    a RangeError, here [None]. *)
Definition generateMockGameLibrary (size : Z) : option (list MockGame) :=
  if 2 ^ 32 <=? size then None else Some (map mockGame (seqZ 0 size)).

End Metrics.

(** ** Mock data of the React utilities (react-performance-utils) *)

Module ReactMetrics.

Record Install : Type := {
  install_path : string;
  install_is_installed : bool;
  install_size : string;
  install_platform : string
}.

(** [install_is_installed] and [install_platform] are the fields
    [is_installed] and [platform] of [install]. *)
Record MockGame : Type := {
  app_name : string;
  title : string;
  art_cover : string;
  art_square : string;
  install : Install;
  runner : string;
  is_installed : bool
}.

Definition mockGame (i : Z) : MockGame :=
  {| app_name := "game_" +:+ pretty i;
     title := "Game " +:+ pretty i;
     art_cover := "https://example.com/cover_" +:+ pretty i +:+ ".jpg";
     art_square := "https://example.com/square_" +:+ pretty i +:+ ".jpg";
     install :=
       {| install_path := "/games/game_" +:+ pretty i;
          install_is_installed := Z.rem i 3 =? 0;
          install_size := "10GB";
          install_platform := "linux" |};
     runner := "legendary";
     is_installed := Z.rem i 3 =? 0 |}.

Definition createMockGames (count : Z) : option (list MockGame) :=
  if 2 ^ 32 <=? count then None else Some (map mockGame (seqZ 0 count)).

(** What [benchmarkComponentRender] resolves to. *)
Record ComponentBenchmark : Type := {
  durations : list float;
  mean : float;
  median : value;
  p95 : value;
  p99 : value
}.

(** The statistics [benchmarkComponentRender] computes once its loop has
    filled [durations]. *)
Definition render_statistics (durations : list float) : ComponentBenchmark :=
  let sorted := sort ascending durations in
  let mean :=
    (fold_left (fun sum d => sum + d) durations 0
     / of_int (Z.of_nat (length durations)))%float in
  let n := Z.of_nat (length sorted) in
  {| durations := durations;
     mean := mean;
     median := index sorted (Math_floor (of_int n / 2));
     p95 := index sorted (Math_floor (of_int n * 0.95));
     p99 := index sorted (Math_floor (of_int n * 0.99)) |}.

Section Render.
Context {World : Type}.
Variable performance_now : World -> float * World.

(** The loop of [benchmarkComponentRender], with [remaining] rounds to
    go. *)
Fixpoint render_rounds (renderFn : World -> completion unit * World)
    (remaining : nat) (durations : list float) (w : World)
  : completion (list float) * World :=
  match remaining with
  | O => (Normal durations, w)
  | S remaining' =>
      let '(start, w) := performance_now w in
      let '(outcome, w) := renderFn w in
      match outcome with
      | Throw e => (Throw e, w)
      | Normal _ =>
          let '(finish, w) := performance_now w in
          render_rounds renderFn remaining' (durations ++ [(finish - start)%float]) w
      end
  end.

(** [benchmarkComponentRender] for an integer number of iterations. *)
Definition benchmarkComponentRender (renderFn : World -> completion unit * World)
    (iterations : Z) (w : World) : completion ComponentBenchmark * World :=
  match render_rounds renderFn (Z.to_nat iterations) [] w with
  | (Throw e, w') => (Throw e, w')
  | (Normal durations, w') => (Normal (render_statistics durations), w')
  end.

End Render.

End ReactMetrics.

(** ** Test result tracker (test-result-tracker.ts) *)

Module Tracker.

(** Arrays are objects of the heap, held by reference. *)
Abbreviation ref := positive (only parsing).
Abbreviation Heap := (gmap positive (list TestResult)) (only parsing).

(** A tracker: its private field [results] holds the reference of an
    array. *)
Record TestResultTracker : Type := { results : ref }.

(** [this.results = []] allocates a new array. *)
Definition new_array (h : Heap) : ref * Heap :=
  let a := fresh (dom h) in (a, <[a := []]> h).

Definition createTracker (h : Heap) : TestResultTracker * Heap :=
  let '(a, h) := new_array h in ({| results := a |}, h).

(** [track] at the instant [now]: [push] changes the array in place. *)
Definition track (t : TestResultTracker) (h : Heap) (testName now : string)
    (stats : PerformanceStats) (iterations : Z) (metadata : option Metadata)
  : Heap :=
  alter (fun a => a ++ [{| testName := testName;
                           timestamp := now;
                           commit := None;
                           branch := None;
                           stats := stats;
                           iterations := iterations;
                           metadata := metadata |}])
        (results t) h.

(** [getResults] returns the array itself, not a copy. *)
Definition getResults (t : TestResultTracker) : ref := results t.

Definition clear (t : TestResultTracker) (h : Heap) : TestResultTracker * Heap :=
  let '(a, h) := new_array h in ({| results := a |}, h).

(** Reading an array of the heap. *)
Definition read (h : Heap) (a : ref) : list TestResult := default [] (h !! a).

Definition count (t : TestResultTracker) (h : Heap) : Z :=
  Z.of_nat (length (read h (results t))).

End Tracker.

(** ** Vocabulary of the properties *)

(** *** Binary64 numbers *)

Module Binary64.

Definition SFfinite (x : spec_float) : bool :=
  match x with
  | S754_zero _ | S754_finite _ _ _ => true
  | _ => false
  end.

Definition SFnotnan (x : spec_float) : bool :=
  match x with S754_nan => false | _ => true end.

(** An integer that orders finite floats as [SFcompare] does: the value
    scaled by [2^1074]. *)
Definition key (x : spec_float) : Z :=
  match x with
  | S754_finite s m e => cond_Zopp s (Zpos m * 2 ^ (e + 1074))
  | _ => 0
  end.

(** The float is a zero, or has the sign [s]. *)
Definition signed (s : bool) (x : spec_float) : bool :=
  match x with
  | S754_zero _ => true
  | S754_finite s' _ _ | S754_infinity s' => Bool.eqb s s'
  | S754_nan => false
  end.

(** The float is not zero and has the sign [s]. *)
Definition strictly (s : bool) (x : spec_float) : bool :=
  match x with
  | S754_finite s' _ _ | S754_infinity s' => Bool.eqb s s'
  | _ => false
  end.

(** Neither NaN nor an infinity. *)
Definition finite (x : float) : bool := SFfinite (Prim2SF x).

(** Finite and not the negative zero: the numbers on which numeric
    equality is identity. *)
Definition ordinary (x : float) : bool :=
  match Prim2SF x with
  | S754_zero s => negb s
  | S754_finite _ _ _ => true
  | _ => false
  end.

Definition fkey (x : float) : Z := key (Prim2SF x).

(** Zero or positive, and not NaN. *)
Definition nonneg (x : float) : bool := signed false (Prim2SF x).

End Binary64.

(** *** Sorting *)

(** Order by an integer key. *)
Definition key_le {A} (f : A -> Z) (a b : A) : Prop := f a <= f b.

(** *** Statistics *)

(** A list of numbers in ascending order, by [<=] on adjacent elements. *)
Fixpoint is_ascending (l : list float) : bool :=
  match l with
  | x :: (y :: _) as l' => (x <=? y)%float && is_ascending l'
  | _ => true
  end.

Definition sum (l : list float) : float :=
  fold_left (fun a b => (a + b)%float) l 0%float.

(** The summary as the design words it, over the ascending sort [sorted]
    of the samples: [n] its length, [mean = sum/n],
    [median = sorted[floor(n/2)]], [min = sorted[0]], [max = sorted[n-1]],
    [p95 = sorted[floor(n*0.95)]], [p99 = sorted[floor(n*0.99)]], and
    [stdDev] the square root of the mean of the squared deviations from
    the mean (divisor [n]).  The indices are the exact integer parts:
    [floor(n*0.95)] is the quotient of [95 n] by [100]. *)
Definition reference_summary (sorted : list float) : PerformanceStats :=
  let n := Z.of_nat (length sorted) in
  let mean := (sum sorted / of_int n)%float in
  let deviations := map (fun v => ((v - mean) * (v - mean))%float) sorted in
  {| mean := Num mean;
     median := index sorted (Some (n / 2));
     min := index sorted (Some 0);
     max := index sorted (Some (n - 1));
     p95 := index sorted (Some (n * 95 / 100));
     p99 := index sorted (Some (n * 99 / 100));
     stdDev := Num (sqrt (sum deviations / of_int n)) |}.

(** [a <= b] on statistics, as JavaScript compares them. *)
Definition le (a b : value) : bool := (ToNumber a <=? ToNumber b)%float.

(** [min <= median <= p95 <= p99 <= max]. *)
Definition order_statistics_ordered (s : PerformanceStats) : bool :=
  le (min s) (median s) && le (median s) (p95 s)
  && le (p95 s) (p99 s) && le (p99 s) (max s).

(** [min <= mean <= max]. *)
Definition mean_within (s : PerformanceStats) : bool :=
  le (min s) (mean s) && le (mean s) (max s).

(** [stdDev >= 0]. *)
Definition stdDev_nonneg (s : PerformanceStats) : bool :=
  le (Num 0) (stdDev s).

(** *** Comparisons *)

(** [(current - baseline) / baseline]. *)
Definition relative_change (current baseline : value) : float :=
  ((ToNumber current - ToNumber baseline) / ToNumber baseline)%float.

(** Neither a regression nor an improvement. *)
Definition stable (c : ComparisonResult) : bool :=
  negb (regression c) && negb (improvement c).

(** The test has a counterpart of the same name among [baselineResults]. *)
Definition matched (baselineResults : list TestResult) (r : TestResult) : bool :=
  existsb (fun b => String.eqb (testName b) (testName r)) baselineResults.

(** [c] compares the current result [cur] with a baseline result of the
    same name: it carries both summaries and the four relative changes. *)
Definition aligned (baselineResults : list TestResult)
    (cur : TestResult) (c : ComparisonResult) : Prop :=
  comparedTest c = testName cur /\
  currentStats c = stats cur /\
  exists b, In b baselineResults /\ testName b = testName cur /\
    baselineStats c = stats b /\
    meanChange (changes c) = relative_change (mean (stats cur)) (mean (stats b)) /\
    medianChange (changes c) = relative_change (median (stats cur)) (median (stats b)) /\
    p95Change (changes c) = relative_change (p95 (stats cur)) (p95 (stats b)) /\
    p99Change (changes c) = relative_change (p99 (stats cur)) (p99 (stats b)).

(** The warnings for the current tests without a counterpart, in order. *)
Definition unmatched_warnings (baselineResults currentResults : list TestResult)
  : list message :=
  map (fun r => NoBaselineForTest (testName r))
      (List.filter (fun r => negb (matched baselineResults r)) currentResults).

(** The comparisons [cs] are the output of a comparison with the
    threshold [t]: of [compareWithBaseline] called with [t], or of
    [compareReports], whose threshold is 0.1. *)
Definition produced (cs : list ComparisonResult) (t : float) : Prop :=
  (exists fs current, cs = (ResultsStorage.compareWithBaseline fs current t).1) \/
  (t = CompareTool.REGRESSION_THRESHOLD /\
   exists baseline current, cs = (CompareTool.compareReports baseline current).1).

(** *** Sample data *)

Definition sample_stats (m : float) : PerformanceStats :=
  mkStats (Num m) (Num m) (Num m) (Num m) (Num m) (Num m) (Num 0).

Definition sample_result (test : string) (m : float) : TestResult :=
  {| testName := test;
     timestamp := "2025-01-15T10:30:00.000Z";
     commit := None;
     branch := None;
     stats := sample_stats m;
     iterations := 10;
     metadata := None |}.

Definition sample_report (rs : list TestResult) : PerformanceReport :=
  {| testSuite := "ipc-performance";
     reportTimestamp := "2025-01-15T10:30:00.000Z";
     environment := {| node := "v20.11.0"; platform := "linux"; arch := "x64" |};
     results := rs |}.

(** A baseline with the tests X and Y, and a current run with X (slower
    by 30%) and a new test Z. *)
Definition sample_baseline : PerformanceReport :=
  sample_report [sample_result "X" 10; sample_result "Y" 20].

Definition sample_current : PerformanceReport :=
  sample_report [sample_result "X" 13; sample_result "Z" 5].

Definition report_file (r : PerformanceReport) (time : Z) : File :=
  {| content := ReportJson r; mtime := time |}.

(** A results directory with a baseline and one saved report, named as
    [savePerformanceReport] names it. *)
Definition sample_fs : FileSystem :=
  {| results_dir :=
       Some (<["baseline.json" := report_file sample_baseline 1000]>
             (<["ipc-performance_report_2025-01-15T10-30-00-000Z.json"
                  := report_file sample_current 2000]> ∅));
     elsewhere := ∅ |}.

(** *** Result store *)

(** The file names [cleanupOldResults] considers: JSON files other than
    the baseline. *)
Definition old_result_file (f : string) : bool :=
  endsWith f ".json" && negb (String.eqb f "baseline.json").

(** Every statistic of the summary is a number. *)
Definition numeric (s : PerformanceStats) : bool :=
  match mean s, median s, min s, max s, p95 s, p99 s, stdDev s with
  | Num _, Num _, Num _, Num _, Num _, Num _, Num _ => true
  | _, _, _, _, _, _, _ => false
  end.

(** The CSV row of a result whose statistics are numbers. *)
Definition row_text (r : TestResult) : string :=
  let s := stats r in
  join "," ([testName r; timestamp r]
              ++ map (fun v => toFixed2 (ToNumber v))
                     [mean s; median s; min s; max s; p95 s; p99 s; stdDev s]
              ++ [pretty (iterations r)]).

(** A report whose only result has a NaN mean. *)
Definition nan_report : PerformanceReport :=
  sample_report
    [{| testName := "T";
        timestamp := "2025-01-15T10:30:00.000Z";
        commit := None;
        branch := None;
        stats := mkStats (Num nan) (Num 1) (Num 1) (Num 1) (Num 1) (Num 1) (Num 0);
        iterations := 10;
        metadata := None |}].

(** A results directory with an old baseline, five saved reports and a
    CSV export. *)
Definition five_reports_fs : FileSystem :=
  {| results_dir :=
       Some (list_to_map
               [("baseline.json", report_file sample_baseline 1);
                ("ipc-performance_report_2025-01-11T10-30-00-000Z.json", report_file sample_current 10);
                ("ipc-performance_report_2025-01-12T10-30-00-000Z.json", report_file sample_current 20);
                ("ipc-performance_report_2025-01-13T10-30-00-000Z.json", report_file sample_current 30);
                ("ipc-performance_report_2025-01-14T10-30-00-000Z.json", report_file sample_current 40);
                ("ipc-performance_report_2025-01-15T10-30-00-000Z.json", report_file sample_current 50);
                ("ipc-performance_2025-01-15T10-30-00-000Z.csv", {| content := Text "csv"; mtime := 5 |})]);
     elsewhere := ∅ |}.

(** *** Order of all numbers *)

(** [rank] extends [key] to the infinities: an integer that orders the
    numbers other than NaN as [SFcompare] does. *)
Definition rank (x : spec_float) : Z :=
  match x with
  | S754_infinity s => cond_Zopp s (2 ^ 2200)
  | _ => Binary64.key x
  end.

Definition frank (x : float) : Z := rank (Prim2SF x).

Definition notnan (x : float) : bool := Binary64.SFnotnan (Prim2SF x).

(** *** Measurement *)

(** The deltas of a metric are the differences of its two memory
    readings. *)
Definition deltas_of_readings (m : Metrics.PerformanceMetrics) : Prop :=
  let d := Metrics.memoryDelta m in
  let a := Metrics.memoryAfter m in
  let b := Metrics.memoryBefore m in
  Metrics.heapUsedDelta d = (Metrics.heapUsed a - Metrics.heapUsed b)%float /\
  Metrics.heapTotalDelta d = (Metrics.heapTotal a - Metrics.heapTotal b)%float /\
  Metrics.externalDelta d = (Metrics.external a - Metrics.external b)%float /\
  Metrics.rssDelta d = (Metrics.rss a - Metrics.rss b)%float.

(** The summary of no sample. *)
Definition empty_summary : PerformanceStats :=
  mkStats (Num nan) Undefined Undefined Undefined Undefined Undefined (Num nan).

(** A world that is a clock in milliseconds: reading the time advances
    it by one, and the measured function takes five. *)
Definition clock_now (w : Z) : float * Z := (of_int w, w + 1).

Definition clock_memory (w : Z) : Metrics.MemoryUsage * Z :=
  ({| Metrics.rss := 0; Metrics.heapTotal := 0; Metrics.heapUsed := of_int w;
      Metrics.external := 0; Metrics.arrayBuffers := 0 |}, w).

Definition clock_fn (w : Z) : completion unit * Z := (Normal tt, w + 5).

(** *** Mock data *)

(** The fields a game of [createMockGames] shares with one of
    [generateMockGameLibrary]. *)
Definition shared_fields (g : ReactMetrics.MockGame) : Metrics.MockGame :=
  {| Metrics.app_name := ReactMetrics.app_name g;
     Metrics.title := ReactMetrics.title g;
     Metrics.art_cover := ReactMetrics.art_cover g;
     Metrics.install_path := ReactMetrics.install_path (ReactMetrics.install g);
     Metrics.is_installed := ReactMetrics.is_installed g |}.

(** *** Tracker *)

(** The calls made on a tracker. *)
Inductive tracker_call : Type :=
| Track (testName now : string) (stats : PerformanceStats) (iterations : Z)
        (metadata : option Metadata)
| Clear.

Definition tracked_result (testName now : string) (stats : PerformanceStats)
    (iterations : Z) (metadata : option Metadata) : TestResult :=
  {| testName := testName; timestamp := now; commit := None; branch := None;
     stats := stats; iterations := iterations; metadata := metadata |}.

Definition call (st : Tracker.TestResultTracker * Tracker.Heap) (c : tracker_call)
  : Tracker.TestResultTracker * Tracker.Heap :=
  match c with
  | Track testName now stats iterations metadata =>
      (st.1, Tracker.track st.1 st.2 testName now stats iterations metadata)
  | Clear => Tracker.clear st.1 st.2
  end.

(** The results tracked since the last [Clear], oldest first, after
    those of [before]. *)
Fixpoint tracked (cs : list tracker_call) (before : list TestResult)
  : list TestResult :=
  match cs with
  | [] => before
  | Track testName now stats iterations metadata :: cs' =>
      tracked cs' (before ++ [tracked_result testName now stats iterations metadata])
  | Clear :: cs' => tracked cs' []
  end.

(** *** Baselines *)

(** The results of a list without those whose name occurred earlier in
    it. *)
Fixpoint first_of_each_name (rs : list TestResult) : list TestResult :=
  match rs with
  | [] => []
  | r :: rs' =>
      r :: List.filter (fun x => negb (String.eqb (testName x) (testName r)))
                       (first_of_each_name rs')
  end.

(** A baseline with the test X twice. *)
Definition sample_twice : PerformanceReport :=
  sample_report [sample_result "X" 10; sample_result "Y" 20; sample_result "X" 30].

(** A render that takes five milliseconds of the clock world. *)
Definition clock_render (w : Z) : completion unit * Z := (Normal tt, w + 5).

(** *** CSV text *)

(** The number of occurrences of a character in a text. *)
Fixpoint occurrences (c : ascii) (s : string) : nat :=
  match s with
  | EmptyString => 0
  | String d s' => (if Ascii.eqb c d then 1 else 0) + occurrences c s'
  end.

(** The characters [toFixed] and the printing of an integer can
    produce. *)
Definition number_characters : string := "0123456789.-+eNaInfity".

(** The occurrences of a character in the name and the timestamp of a
    result. *)
Definition occurrences_in_texts (c : ascii) (r : TestResult) : nat :=
  occurrences c (testName r) + occurrences c (timestamp r).

(** A report whose test name has a comma. *)
Definition comma_report : PerformanceReport :=
  sample_report [sample_result "render, first" 10].

(** ** Facts on binary64 arithmetic *)

Module Binary64Facts.
Import Binary64.

Lemma digits2_pos_bounds (m : positive) :
  2 ^ (Zpos (digits2_pos m) - 1) <= Zpos m < 2 ^ Zpos (digits2_pos m).
Proof.
  induction m as [m IH|m IH|]; simpl digits2_pos.
  - rewrite Pos2Z.inj_succ.
    replace (Z.succ (Zpos (digits2_pos m)) - 1) with (Z.succ (Zpos (digits2_pos m) - 1)) by lia.
    rewrite !Z.pow_succ_r by lia. lia.
  - rewrite Pos2Z.inj_succ.
    replace (Z.succ (Zpos (digits2_pos m)) - 1) with (Z.succ (Zpos (digits2_pos m) - 1)) by lia.
    rewrite !Z.pow_succ_r by lia. lia.
  - simpl. lia.
Qed.

Lemma iter_xO (d m : positive) :
  Zpos (Pos.iter xO m d) = Zpos m * 2 ^ Zpos d.
Proof.
  induction d as [|d IH] using Pos.peano_ind.
  - simpl. lia.
  - rewrite Pos.iter_succ, Pos2Z.inj_succ, Z.pow_succ_r by lia.
    rewrite Pos2Z.inj_xO, IH. lia.
Qed.

(** What validity says of a finite float. *)
Lemma valid_finite s m e :
  valid_binary (S754_finite s m e) = true ->
  -1074 <= e <= 971 /\ Zpos m < 2 ^ 53 /\ (-1074 < e -> 2 ^ 52 <= Zpos m).
Proof.
  unfold valid_binary, SpecFloat.valid_binary, bounded, canonical_mantissa, fexp, SpecFloat.emin, emax, prec.
  intros H. apply andb_prop in H as [H1 H2].
  apply Z.eqb_eq in H1. apply Z.leb_le in H2.
  pose proof (digits2_pos_bounds m) as [Hlo Hhi].
  assert (Hd : Zpos (digits2_pos m) <= 53) by lia.
  split; [lia|]. split.
  - eapply Z.lt_le_trans; [exact Hhi|]. apply Z.pow_le_mono_r; lia.
  - intros He. assert (Zpos (digits2_pos m) = 53) as Hd53 by lia.
    rewrite Hd53 in Hlo. exact Hlo.
Qed.

Lemma pow2_pos k : 0 <= k -> 0 < 2 ^ k.
Proof. intros. apply Z.pow_pos_nonneg; lia. Qed.

Lemma scaled_lt m1 e1 m2 e2 :
  Zpos m1 < 2 ^ 53 -> 2 ^ 52 <= Zpos m2 -> -1074 <= e1 < e2 ->
  Zpos m1 * 2 ^ (e1 + 1074) < Zpos m2 * 2 ^ (e2 + 1074).
Proof.
  intros H1 H2 He.
  replace (e2 + 1074) with ((e1 + 1074) + 1 + (e2 - e1 - 1)) by lia.
  rewrite (Z.pow_add_r 2 (e1 + 1074 + 1)), (Z.pow_add_r 2 (e1 + 1074) 1) by lia.
  pose proof (pow2_pos (e1 + 1074) ltac:(lia)).
  pose proof (pow2_pos (e2 - e1 - 1) ltac:(lia)).
  change (2 ^ 1) with 2. change (2 ^ 53) with (2 * 2 ^ 52) in H1.
  set (a := 2 ^ (e1 + 1074)) in *. set (b := 2 ^ (e2 - e1 - 1)) in *.
  set (c := 2 ^ 52) in *.
  assert (Zpos m1 * a < 2 * c * a) by (apply Z.mul_lt_mono_pos_r; lia).
  assert (c * (2 * a) <= Zpos m2 * (2 * a)) by (apply Z.mul_le_mono_nonneg_r; lia).
  assert (Zpos m2 * (2 * a) * 1 <= Zpos m2 * (2 * a) * b)
    by (apply Z.mul_le_mono_nonneg_l; lia).
  lia.
Qed.

Lemma compare_key (x y : spec_float) :
  valid_binary x = true -> valid_binary y = true ->
  SFfinite x = true -> SFfinite y = true ->
  SFcompare x y = Some (key x ?= key y).
Proof.
  intros Vx Vy Fx Fy.
  destruct x as [sx| | |sx mx ex], y as [sy| | |sy my ey]; try discriminate; cbn [SFcompare key cond_Zopp].
  - reflexivity.
  - apply valid_finite in Vy as (He & _ & _).
    pose proof (pow2_pos (ey + 1074) ltac:(lia)).
    destruct sy; cbn [cond_Zopp]; f_equal; symmetry; [apply Z.compare_gt_iff|apply Z.compare_lt_iff]; nia.
  - apply valid_finite in Vx as (He & _ & _).
    pose proof (pow2_pos (ex + 1074) ltac:(lia)).
    destruct sx; cbn [cond_Zopp]; f_equal; symmetry; [apply Z.compare_lt_iff|apply Z.compare_gt_iff]; nia.
  - apply valid_finite in Vx as (Hex & Hmx & Hnx).
    apply valid_finite in Vy as (Hey & Hmy & Hny).
    pose proof (pow2_pos (ex + 1074) ltac:(lia)) as Px.
    pose proof (pow2_pos (ey + 1074) ltac:(lia)) as Py.
    f_equal.
    destruct sx, sy; cbn [cond_Zopp].
    + (* both negative *)
      destruct (Z.compare_spec ex ey) as [E|L|G].
      * subst ey. rewrite Pos.compare_cont_spec. cbn [Pos.switch_Eq].
        change (mx ?= my)%positive with (Zpos mx ?= Zpos my).
        symmetry.
        destruct (Z.compare_spec (Zpos mx) (Zpos my)); cbn [CompOpp]; [apply Z.compare_eq_iff|apply Z.compare_gt_iff|apply Z.compare_lt_iff]; nia.
      * symmetry. apply Z.compare_gt_iff.
        pose proof (scaled_lt mx ex my ey Hmx (Hny ltac:(lia)) ltac:(lia)). lia.
      * symmetry. apply Z.compare_lt_iff.
        pose proof (scaled_lt my ey mx ex Hmy (Hnx ltac:(lia)) ltac:(lia)). lia.
    + symmetry. apply Z.compare_lt_iff. nia.
    + symmetry. apply Z.compare_gt_iff. nia.
    + destruct (Z.compare_spec ex ey) as [E|L|G].
      * subst ey. rewrite Pos.compare_cont_spec. cbn [Pos.switch_Eq].
        change (mx ?= my)%positive with (Zpos mx ?= Zpos my).
        symmetry.
        destruct (Z.compare_spec (Zpos mx) (Zpos my)); [apply Z.compare_eq_iff|apply Z.compare_lt_iff|apply Z.compare_gt_iff]; nia.
      * symmetry. apply Z.compare_lt_iff.
        pose proof (scaled_lt mx ex my ey Hmx (Hny ltac:(lia)) ltac:(lia)). lia.
      * symmetry. apply Z.compare_gt_iff.
        pose proof (scaled_lt my ey mx ex Hmy (Hnx ltac:(lia)) ltac:(lia)). lia.
Qed.

(** *** Right shifts and rounding *)

Lemma iter_pos_nat {A} (f : A -> A) (p : positive) (x : A) :
  SpecFloat.iter_pos f p x = Nat.iter (Pos.to_nat p) f x.
Proof.
  revert x. induction p as [p IH|p IH|]; intros x; cbn [SpecFloat.iter_pos].
  - rewrite !IH, Pos2Nat.inj_xI.
    replace (S (2 * Pos.to_nat p)) with (Pos.to_nat p + (Pos.to_nat p + 1))%nat by lia.
    rewrite !Nat.iter_add. reflexivity.
  - rewrite !IH, Pos2Nat.inj_xO.
    replace (2 * Pos.to_nat p)%nat with (Pos.to_nat p + Pos.to_nat p)%nat by lia.
    rewrite Nat.iter_add. reflexivity.
  - reflexivity.
Qed.

Lemma shr_1_m (mrs : shr_record) :
  0 <= shr_m mrs -> shr_m (shr_1 mrs) = shr_m mrs / 2.
Proof.
  destruct mrs as [m r s]. cbn [shr_m]. intros Hm.
  destruct m as [|[p|p|]|p]; cbn [shr_1 shr_m]; try lia.
  - reflexivity.
  - apply Z.div_unique with 1; lia.
  - apply Z.div_unique with 0; lia.
  - reflexivity.
Qed.

Lemma shr_iter_m (k : nat) (mrs : shr_record) :
  0 <= shr_m mrs ->
  shr_m (Nat.iter k shr_1 mrs) = shr_m mrs / 2 ^ Z.of_nat k.
Proof.
  intros Hm. induction k as [|k IH].
  - simpl. rewrite Z.div_1_r. reflexivity.
  - rewrite Nat.iter_succ, shr_1_m, IH.
    + rewrite Nat2Z.inj_succ, Z.pow_succ_r by lia.
      rewrite Z.div_div by (try apply pow2_pos; lia).
      f_equal. lia.
    + rewrite IH. apply Z.div_pos; [lia|apply pow2_pos; lia].
Qed.

Lemma shr_record_of_loc_m m l : shr_m (shr_record_of_loc m l) = m.
Proof. destruct l as [|[]]; reflexivity. Qed.

(** Shifting to the format never loses a positive mantissa whose
    exponent is in range. *)
Lemma shr_fexp_pos m e l :
  0 < m -> -1074 <= e ->
  0 < shr_m (fst (shr_fexp prec emax m e l)) /\ -1074 <= snd (shr_fexp prec emax m e l).
Proof.
  intros Hm He. unfold shr_fexp, shr.
  destruct m as [|m|m]; try lia. cbn [Zdigits2].
  pose proof (digits2_pos_bounds m) as [Hlo _].
  set (d := Zpos (digits2_pos m)) in *.
  unfold fexp, SpecFloat.emin, emax, prec.
  destruct (Z.max (d + e - 53) (3 - 1024 - 53) - e) as [|p|p] eqn:Hs;
    cbn [fst snd]; rewrite ?shr_record_of_loc_m; try lia.
  rewrite iter_pos_nat, shr_iter_m by (rewrite shr_record_of_loc_m; lia).
  rewrite shr_record_of_loc_m, positive_nat_Z.
  split; [|lia].
  assert (Hp : Zpos p = d - 53) by lia.
  apply Z.div_str_pos. split; [apply pow2_pos; lia|].
  eapply Z.le_trans; [|exact Hlo]. apply Z.pow_le_mono_r; lia.
Qed.

Lemma shr_fexp_nonneg m e l :
  0 <= m -> 0 <= shr_m (fst (shr_fexp prec emax m e l)).
Proof.
  intros Hm. unfold shr_fexp, shr.
  destruct (fexp prec emax (Zdigits2 m + e) - e) as [|p|p];
    cbn [fst]; rewrite ?shr_record_of_loc_m; try lia.
  rewrite iter_pos_nat, shr_iter_m by (rewrite shr_record_of_loc_m; lia).
  rewrite shr_record_of_loc_m.
  apply Z.div_pos; [lia|apply pow2_pos; lia].
Qed.

Lemma round_nearest_even_ge m l : m <= round_nearest_even m l.
Proof.
  unfold round_nearest_even. destruct l as [|[]]; try lia.
  destruct (Z.even m); lia.
Qed.

Lemma binary_round_aux_signed s m e l :
  0 <= m -> signed s (binary_round_aux prec emax s m e l) = true.
Proof.
  intros Hm. unfold binary_round_aux.
  destruct (shr_fexp prec emax m e l) as [mrs' e'] eqn:E1.
  pose proof (shr_fexp_nonneg m e l Hm) as H1. rewrite E1 in H1. cbn [fst] in H1.
  pose proof (round_nearest_even_ge (shr_m mrs') (loc_of_shr_record mrs')) as H2.
  set (q := round_nearest_even _ _) in *.
  destruct (shr_fexp prec emax q e' loc_Exact) as [mrs'' e''] eqn:E2.
  pose proof (shr_fexp_nonneg q e' loc_Exact ltac:(lia)) as H3.
  rewrite E2 in H3. cbn [fst] in H3.
  destruct (shr_m mrs'') as [|p|p]; try lia; cbn [signed].
  - reflexivity.
  - destruct (e'' <=? emax - prec); cbn [signed]; apply eqb_reflx.
Qed.

Lemma binary_round_aux_strictly s m e l :
  0 < m -> -1074 <= e ->
  strictly s (binary_round_aux prec emax s m e l) = true.
Proof.
  intros Hm He. unfold binary_round_aux.
  destruct (shr_fexp prec emax m e l) as [mrs' e'] eqn:E1.
  pose proof (shr_fexp_pos m e l Hm He) as [H1 H1e].
  rewrite E1 in H1, H1e. cbn [fst snd] in H1, H1e.
  pose proof (round_nearest_even_ge (shr_m mrs') (loc_of_shr_record mrs')) as H2.
  set (q := round_nearest_even _ _) in *.
  destruct (shr_fexp prec emax q e' loc_Exact) as [mrs'' e''] eqn:E2.
  pose proof (shr_fexp_pos q e' loc_Exact ltac:(lia) H1e) as [H3 _].
  rewrite E2 in H3. cbn [fst] in H3.
  destruct (shr_m mrs'') as [|p|p]; try lia.
  destruct (e'' <=? emax - prec); cbn [strictly]; apply eqb_reflx.
Qed.

Lemma binary_round_strictly s m e :
  -1074 <= e -> strictly s (binary_round prec emax s m e) = true.
Proof.
  intros He. unfold binary_round.
  destruct (shl_align m e (fexp prec emax (Zpos (digits2_pos m) + e)))
    as [mz ez] eqn:E.
  apply binary_round_aux_strictly; [lia|].
  unfold shl_align in E.
  assert (-1074 <= fexp prec emax (Zpos (digits2_pos m) + e))
    by (unfold fexp, SpecFloat.emin, emax, prec; lia).
  destruct (_ - e); inversion E; subst; lia.
Qed.

(** Normalising a non-zero integer mantissa keeps its sign. *)
Lemma binary_normalize_strictly m e :
  -1074 <= e -> m <> 0 ->
  strictly (m <? 0) (binary_normalize prec emax m e false) = true.
Proof.
  intros He Hm. destruct m as [|m|m]; [lia| |]; cbn [binary_normalize];
    apply binary_round_strictly; exact He.
Qed.

Lemma shl_align_fst m e e' :
  e' <= e -> Zpos (fst (shl_align m e e')) = Zpos m * 2 ^ (e - e').
Proof.
  intros He. unfold shl_align.
  destruct (e' - e) as [|d|d] eqn:Hd; cbn [fst].
  - replace (e - e') with 0 by lia. lia.
  - lia.
  - rewrite iter_xO. f_equal. f_equal. lia.
Qed.

Lemma strictly_ltb_zero s x :
  strictly s x = true -> SFltb x (S754_zero false) = s.
Proof.
  destruct x as [| s'| |s' m e]; cbn [strictly]; try discriminate;
    intros H; apply eqb_prop in H; subst s'; destruct s; reflexivity.
Qed.

(** The sign of a difference of finite floats is the order of the
    operands: a non-zero difference never rounds to zero. *)
Lemma SFsub_ltb_zero (x y : spec_float) :
  valid_binary x = true -> valid_binary y = true ->
  SFfinite x = true -> SFfinite y = true ->
  SFltb (SF64sub x y) (S754_zero false) = (key x <? key y).
Proof.
  intros Vx Vy Fx Fy.
  destruct x as [sx| | |sx mx ex], y as [sy| | |sy my ey]; try discriminate;
    cbn [SF64sub SFsub key].
  - destruct sx, sy; reflexivity.
  - apply valid_finite in Vy as (He & _ & _).
    pose proof (pow2_pos (ey + 1074) ltac:(lia)).
    destruct sy; cbn [negb SFltb SFcompare cond_Zopp]; symmetry;
      [apply Z.ltb_ge|apply Z.ltb_lt]; nia.
  - apply valid_finite in Vx as (He & _ & _).
    pose proof (pow2_pos (ex + 1074) ltac:(lia)).
    destruct sx; cbn [SFltb SFcompare cond_Zopp]; symmetry;
      [apply Z.ltb_lt|apply Z.ltb_ge]; nia.
  - apply valid_finite in Vx as (Hex & _ & _).
    apply valid_finite in Vy as (Hey & _ & _).
    set (ez := Z.min ex ey).
    rewrite !shl_align_fst by lia.
    set (D := cond_Zopp sx (Zpos mx * 2 ^ (ex - ez))
              - cond_Zopp sy (Zpos my * 2 ^ (ey - ez))).
    assert (HD : D * 2 ^ (ez + 1074)
                 = cond_Zopp sx (Zpos mx * 2 ^ (ex + 1074))
                   - cond_Zopp sy (Zpos my * 2 ^ (ey + 1074))).
    { replace (ex + 1074) with ((ex - ez) + (ez + 1074)) by lia.
      replace (ey + 1074) with ((ey - ez) + (ez + 1074)) by lia.
      rewrite (Z.pow_add_r 2 (ex - ez)), (Z.pow_add_r 2 (ey - ez)) by lia.
      unfold D. destruct sx, sy; cbn [cond_Zopp]; ring. }
    pose proof (pow2_pos (ez + 1074) ltac:(lia)) as Hz.
    destruct (Z.eq_dec D 0) as [D0|D0].
    + rewrite D0. cbn [binary_normalize SFltb SFcompare].
      symmetry. apply Z.ltb_ge. rewrite D0 in HD. lia.
    + rewrite (strictly_ltb_zero (D <? 0))
        by (apply binary_normalize_strictly; lia).
      destruct (Z.ltb_spec D 0); symmetry; [apply Z.ltb_lt|apply Z.ltb_ge]; nia.
Qed.

(** *** Facts on primitive floats *)

Lemma ordinary_finite x : ordinary x = true -> finite x = true.
Proof. unfold ordinary, finite. destruct (Prim2SF x) as [[]| | |]; auto. Qed.

Lemma compare_fkey x y :
  finite x = true -> finite y = true ->
  SFcompare (Prim2SF x) (Prim2SF y) = Some (fkey x ?= fkey y).
Proof. intros. apply compare_key; auto using Prim2SF_valid. Qed.

Lemma leb_fkey x y :
  finite x = true -> finite y = true -> (x <=? y)%float = (fkey x <=? fkey y).
Proof.
  intros Fx Fy. rewrite FloatAxioms.leb_spec. unfold SFleb, Z.leb.
  rewrite compare_fkey by assumption. destruct (fkey x ?= fkey y); reflexivity.
Qed.

Lemma sub_ltb_zero x y :
  finite x = true -> finite y = true ->
  (x - y <? 0)%float = (fkey x <? fkey y).
Proof.
  intros Fx Fy. rewrite FloatAxioms.ltb_spec, sub_spec.
  change (Prim2SF 0) with (S754_zero false).
  apply SFsub_ltb_zero; auto using Prim2SF_valid.
Qed.

Lemma fkey_inj x y :
  ordinary x = true -> ordinary y = true -> fkey x = fkey y -> x = y.
Proof.
  intros Ox Oy Hk. apply Prim2SF_inj.
  pose proof (compare_fkey x y (ordinary_finite _ Ox) (ordinary_finite _ Oy)) as Hc.
  rewrite Hk, Z.compare_refl in Hc.
  unfold ordinary in Ox, Oy.
  destruct (Prim2SF x) as [sx| | |sx mx ex], (Prim2SF y) as [sy| | |sy my ey];
    try discriminate; cbn [SFcompare] in Hc.
  - destruct sx, sy; try discriminate; reflexivity.
  - destruct sy; discriminate.
  - destruct sx; discriminate.
  - destruct sx, sy; try discriminate;
      destruct (Z.compare_spec ex ey); try discriminate; subst;
      injection Hc as Hc; rewrite Pos.compare_cont_spec in Hc;
      cbn [Pos.switch_Eq] in Hc;
      destruct (Pos.compare_spec mx my); try discriminate; subst; reflexivity.
Qed.

(** *** Exact and bracketed rounding *)

Lemma shr_fexp_spec m e l :
  0 <= m ->
  let p := Z.max 0 (fexp prec emax (Zdigits2 m + e) - e) in
  shr_m (fst (shr_fexp prec emax m e l)) = m / 2 ^ p /\
  snd (shr_fexp prec emax m e l) = e + p.
Proof.
  intros Hm p. unfold shr_fexp, shr. fold (fexp prec emax (Zdigits2 m + e) - e) in p.
  subst p.
  destruct (fexp prec emax (Zdigits2 m + e) - e) as [|p|p]; cbn [fst snd].
  - rewrite shr_record_of_loc_m, Z.div_1_r. change (Z.max 0 0) with 0. lia.
  - rewrite iter_pos_nat, shr_iter_m by (rewrite shr_record_of_loc_m; lia).
    rewrite shr_record_of_loc_m, positive_nat_Z.
    rewrite Z.max_r by lia. lia.
  - rewrite shr_record_of_loc_m. rewrite Z.max_l by lia.
    rewrite Z.div_1_r. lia.
Qed.

Lemma round_nearest_even_le m l : round_nearest_even m l <= m + 1.
Proof.
  unfold round_nearest_even. destruct l as [|[]]; try lia.
  destruct (Z.even m); lia.
Qed.

Lemma Zdigits2_bounds m :
  0 < m -> 2 ^ (Zdigits2 m - 1) <= m < 2 ^ Zdigits2 m.
Proof. destruct m; try lia. intros _. apply digits2_pos_bounds. Qed.

Lemma Zdigits2_le m k : 0 < m -> m < 2 ^ k -> 0 <= k -> Zdigits2 m <= k.
Proof.
  intros Hm Hk Hk0. pose proof (Zdigits2_bounds m Hm) as [Hlo _].
  destruct (Z.le_gt_cases (Zdigits2 m) k) as [|Hgt]; [assumption|].
  assert (2 ^ k <= 2 ^ (Zdigits2 m - 1)) by (apply Z.pow_le_mono_r; lia).
  lia.
Qed.

Lemma Zdigits2_pos m : 0 < m -> 0 < Zdigits2 m.
Proof. destruct m; simpl; lia. Qed.

Lemma div_pow2_div_pow2 a p q :
  0 <= p -> 0 <= q -> a / 2 ^ p / 2 ^ q = a / 2 ^ (p + q).
Proof.
  intros Hp Hq. rewrite Z.pow_add_r by assumption.
  apply Z.div_div; [pose proof (pow2_pos p Hp); lia|apply pow2_pos; lia].
Qed.

Lemma digits2_pos_iter_xO (k m : positive) :
  digits2_pos (Pos.iter xO m k) = (digits2_pos m + k)%positive.
Proof.
  induction k as [|k IH] using Pos.peano_ind.
  - simpl. lia.
  - rewrite Pos.iter_succ. cbn [digits2_pos]. rewrite IH. lia.
Qed.

(** A mantissa already in canonical position is left as it is. *)
Lemma binary_round_aux_exact s m e :
  bounded prec emax m e = true ->
  binary_round_aux prec emax s (Zpos m) e loc_Exact = S754_finite s m e.
Proof.
  unfold bounded, canonical_mantissa. intros H.
  apply andb_prop in H as [Hc Hb]. apply Z.eqb_eq in Hc.
  unfold binary_round_aux, shr_fexp. cbn [Zdigits2].
  rewrite Hc, Z.sub_diag. cbn [shr shr_record_of_loc shr_m loc_of_shr_record
    round_nearest_even Zdigits2].
  rewrite Hc, Z.sub_diag. cbn [shr shr_record_of_loc shr_m].
  rewrite Hb. reflexivity.
Qed.

(** Integers below [2^53] are floats. *)
Lemma binary_normalize_int n :
  0 < n < 2 ^ 53 ->
  exists m e,
    binary_normalize prec emax n 0 false = S754_finite false m e /\
    -52 <= e <= 0 /\ Zpos m = n * 2 ^ (- e) /\ 2 ^ 52 <= Zpos m < 2 ^ 53.
Proof.
  intros [Hn0 Hn]. destruct n as [|n|n]; try lia.
  cbn [binary_normalize]. unfold binary_round.
  pose proof (digits2_pos_bounds n) as [Hlo Hhi].
  assert (Hd : Zpos (digits2_pos n) <= 53) by (apply (Zdigits2_le (Zpos n)); lia).
  set (d := digits2_pos n) in *.
  unfold shl_align.
  replace (fexp prec emax (Zpos d + 0) - 0) with (Zpos d - 53)
    by (unfold fexp, SpecFloat.emin, emax, prec; lia).
  replace (fexp prec emax (Zpos d + 0)) with (Zpos d - 53)
    by (unfold fexp, SpecFloat.emin, emax, prec; lia).
  destruct (Zpos d - 53) as [|k|k] eqn:Hk; try lia.
  - exists n, 0. split.
    + apply binary_round_aux_exact. unfold bounded, canonical_mantissa.
      fold d. apply andb_true_intro. split; [apply Z.eqb_eq|apply Z.leb_le];
        unfold fexp, SpecFloat.emin, emax, prec; lia.
    + assert (Zpos d = 53) as Hd53 by lia. rewrite Hd53 in Hlo, Hhi.
      change (53 - 1) with 52 in Hlo. change (- 0) with 0. lia.
  - exists (Pos.iter xO n k), (Zneg k). split.
    + apply binary_round_aux_exact. unfold bounded, canonical_mantissa.
      rewrite digits2_pos_iter_xO. fold d.
      apply andb_true_intro. split; [apply Z.eqb_eq|apply Z.leb_le];
        unfold fexp, SpecFloat.emin, emax, prec; lia.
    + rewrite iter_xO. change (- Zneg k) with (Zpos k).
      split; [lia|]. split; [reflexivity|].
      assert (Hkd : Zpos k = 53 - Zpos d) by lia.
      split.
      * replace 52 with ((Zpos d - 1) + Zpos k) by lia.
        rewrite Z.pow_add_r by lia.
        apply Z.mul_le_mono_nonneg_r; [apply Z.pow_nonneg; lia|exact Hlo].
      * replace 53 with (Zpos d + Zpos k) by lia.
        rewrite Z.pow_add_r by lia.
        apply Z.mul_lt_mono_pos_r; [apply pow2_pos; lia|exact Hhi].
Qed.

Lemma of_int_spec n :
  0 < n < 2 ^ 53 ->
  exists m e,
    Prim2SF (of_int n) = S754_finite false m e /\
    -52 <= e <= 0 /\ Zpos m = n * 2 ^ (- e) /\ 2 ^ 52 <= Zpos m < 2 ^ 53.
Proof.
  intros Hn. unfold of_int. rewrite of_uint63_spec, Uint63.of_Z_spec.
  rewrite Z.mod_small.
  - apply binary_normalize_int, Hn.
  - split; [lia|]. eapply Z.lt_trans; [apply Hn|]. reflexivity.
Qed.

(** *** Signs through the arithmetic *)

Lemma signed_notnan s x : signed s x = true -> SFnotnan x = true.
Proof. destruct x; cbn; auto. Qed.

Lemma SFfinite_notnan x : SFfinite x = true -> SFnotnan x = true.
Proof. destruct x; cbn; auto. Qed.

Lemma binary_normalize_signed m e :
  signed (m <? 0) (binary_normalize prec emax m e false) = true.
Proof.
  destruct m as [|m|m]; cbn [binary_normalize]; [reflexivity| |];
    unfold binary_round;
    destruct (shl_align m e _) as [mz ez];
    apply binary_round_aux_signed; lia.
Qed.

Lemma binary_normalize_notnan m e :
  SFnotnan (binary_normalize prec emax m e false) = true.
Proof. eapply signed_notnan, binary_normalize_signed. Qed.

Lemma SFadd_signed x y :
  signed false x = true -> signed false y = true ->
  signed false (SF64add x y) = true.
Proof.
  destruct x as [sx|sx| |sx mx ex], y as [sy|sy| |sy my ey];
    cbn [signed SF64add SFadd]; try discriminate; intros Hx Hy;
    try (destruct sx; try discriminate); try (destruct sy; try discriminate);
    try reflexivity.
  cbn [cond_Zopp].
  match goal with |- signed false (binary_normalize _ _ ?m _ _) = true =>
    replace false with (m <? 0) at 1 by (apply Z.ltb_ge; lia) end.
  apply binary_normalize_signed.
Qed.

Lemma SFadd_notnan x y :
  SFnotnan x = true -> SFfinite y = true -> SFnotnan (SF64add x y) = true.
Proof.
  destruct x as [sx|sx| |sx mx ex], y as [sy|sy| |sy my ey];
    cbn [SFnotnan SFfinite SF64add SFadd]; try discriminate; intros _ _;
    try reflexivity.
  - destruct sx, sy; reflexivity.
  - apply binary_normalize_notnan.
Qed.

Lemma SFsub_notnan x y :
  SFfinite x = true -> SFnotnan y = true -> SFnotnan (SF64sub x y) = true.
Proof.
  destruct x as [sx|sx| |sx mx ex], y as [sy|sy| |sy my ey];
    cbn [SFnotnan SFfinite SF64sub SFsub]; try discriminate; intros _ _;
    try reflexivity.
  - destruct sx, sy; reflexivity.
  - apply binary_normalize_notnan.
Qed.

Lemma SFmul_square x :
  SFnotnan x = true -> signed false (SF64mul x x) = true.
Proof.
  destruct x as [sx|sx| |sx mx ex]; cbn [SFnotnan SF64mul SFmul signed];
    try discriminate; intros _; rewrite ?xorb_nilpotent; try reflexivity.
  apply binary_round_aux_signed. lia.
Qed.

Lemma SFdiv_core_nonneg m1 e1 m2 e2 :
  0 <= fst (fst (SFdiv_core_binary prec emax (Zpos m1) e1 (Zpos m2) e2)).
Proof.
  unfold SFdiv_core_binary.
  set (s := _ - _ - _).
  set (m' := match s with Z0 => _ | Zpos _ => _ | Zneg _ => _ end).
  assert (Hm' : 0 <= m').
  { subst m'. destruct s; try lia. apply Z.shiftl_nonneg. lia. }
  destruct (Z.div_eucl m' (Zpos m2)) as [q r] eqn:Hqr. cbn [fst].
  assert (Hq : q = m' / Zpos m2) by (unfold Z.div; rewrite Hqr; reflexivity).
  rewrite Hq. apply Z.div_pos; lia.
Qed.

Lemma SFdiv_signed x m e :
  signed false x = true ->
  signed false (SF64div x (S754_finite false m e)) = true.
Proof.
  destruct x as [sx|sx| |sx mx ex]; cbn [signed SF64div SFdiv];
    try discriminate; intros Hx; try reflexivity.
  - destruct sx; [discriminate|reflexivity].
  - destruct sx; [discriminate|]. cbn [xorb].
    pose proof (SFdiv_core_nonneg mx ex m e) as Hq.
    destruct (SFdiv_core_binary prec emax (Zpos mx) ex (Zpos m) e) as [[mz ez] lz].
    apply binary_round_aux_signed. exact Hq.
Qed.

Lemma SFdiv_notnan x m e :
  SFnotnan x = true ->
  SFnotnan (SF64div x (S754_finite false m e)) = true.
Proof.
  destruct x as [sx|sx| |sx mx ex]; cbn [SFnotnan SF64div SFdiv];
    try discriminate; intros _; try reflexivity.
  pose proof (SFdiv_core_nonneg mx ex m e) as Hq.
  destruct (SFdiv_core_binary prec emax (Zpos mx) ex (Zpos m) e) as [[mz ez] lz].
  eapply signed_notnan, binary_round_aux_signed. exact Hq.
Qed.

Lemma SFsqrt_signed x :
  signed false x = true -> signed false (SF64sqrt x) = true.
Proof.
  destruct x as [sx|sx| |sx mx ex]; cbn [signed SF64sqrt SFsqrt];
    try discriminate; intros Hx; try reflexivity;
    (destruct sx; [discriminate|]); [reflexivity|].
  unfold SFsqrt_core_binary.
  set (s := _ - _).
  set (m' := match s with Z0 => _ | Zpos _ => _ | Zneg _ => _ end).
  assert (Hm' : 0 <= m').
  { subst m'. destruct s; try lia. apply Z.shiftl_nonneg. lia. }
  pose proof (Z.sqrtrem_spec m' Hm') as Hs.
  destruct (Z.sqrtrem m') as [q r].
  apply binary_round_aux_signed. lia.
Qed.

Lemma SFleb_zero_signed x :
  signed false x = true -> SFleb (S754_zero false) x = true.
Proof.
  destruct x as [sx|sx| |sx mx ex]; cbn [signed]; try discriminate;
    intros Hx; try reflexivity; destruct sx; try discriminate; reflexivity.
Qed.

(** *** Exact operations *)

Lemma SFsub_diag x :
  SFfinite x = true -> SF64sub x x = S754_zero false.
Proof.
  destruct x as [sx| | |sx mx ex]; cbn [SFfinite SF64sub SFsub];
    try discriminate; intros _.
  - destruct sx; reflexivity.
  - rewrite Z.sub_diag. reflexivity.
Qed.

Lemma div_eucl_exact a b q :
  0 < b -> a = b * q -> Z.div_eucl a b = (q, 0).
Proof.
  intros Hb Ha. pose proof (Z_div_mod a b ltac:(lia)) as H.
  destruct (Z.div_eucl a b) as [q' r']. destruct H as [H1 H2].
  assert (q' = q) by nia. subst q'. f_equal. lia.
Qed.

Lemma digits2_pos_53 (m : positive) :
  2 ^ 52 <= Zpos m < 2 ^ 53 -> Zpos (digits2_pos m) = 53.
Proof.
  intros [Hlo Hhi]. pose proof (digits2_pos_bounds m) as [Hdlo Hdhi].
  assert (Zpos (digits2_pos m) <= 53) by (apply (Zdigits2_le (Zpos m)); lia).
  destruct (Z.le_gt_cases 53 (Zpos (digits2_pos m))) as [|Hlt]; [lia|exfalso].
  assert (2 ^ Zpos (digits2_pos m) <= 2 ^ 52) by (apply Z.pow_le_mono_r; lia).
  lia.
Qed.

(** A full mantissa with one bit too many, the last being 0, is shifted
    back exactly. *)
Lemma binary_round_aux_double s m e :
  Zpos (digits2_pos m) = 53 -> -1074 <= e - 1 -> e <= 971 ->
  binary_round_aux prec emax s (Zpos m~0) (e - 1) loc_Exact = S754_finite s m e.
Proof.
  intros Hd Hlo Hhi.
  unfold binary_round_aux, shr_fexp. cbn [Zdigits2 digits2_pos].
  rewrite Pos2Z.inj_succ, Hd.
  replace (fexp prec emax (Z.succ 53 + (e - 1)) - (e - 1)) with 1
    by (unfold fexp, SpecFloat.emin, emax, prec; lia).
  cbn [shr SpecFloat.iter_pos shr_record_of_loc shr_1 shr_m
       loc_of_shr_record round_nearest_even Zdigits2 orb].
  rewrite Hd.
  replace (fexp prec emax (53 + (e - 1 + 1)) - (e - 1 + 1)) with 0
    by (unfold fexp, SpecFloat.emin, emax, prec; lia).
  cbn [shr shr_record_of_loc shr_m].
  replace (e - 1 + 1) with e by lia.
  replace (e <=? emax - prec) with true
    by (symmetry; apply Z.leb_le; unfold emax, prec; lia).
  reflexivity.
Qed.


Lemma sub_diag x : finite x = true -> (x - x)%float = 0%float.
Proof.
  intros F. apply Prim2SF_inj. rewrite sub_spec. apply SFsub_diag, F.
Qed.



(** *** The indices of [calculateStats] *)

Lemma shr_1_r (mrs : shr_record) :
  0 <= shr_m mrs -> shr_r (shr_1 mrs) = Z.odd (shr_m mrs).
Proof.
  destruct mrs as [m r s]. cbn [shr_m]. intros Hm.
  destruct m as [|[p|p|]|p]; cbn [shr_1 shr_r]; try lia; reflexivity.
Qed.

Lemma shr_iter_nonneg (k : nat) (mrs : shr_record) :
  0 <= shr_m mrs -> 0 <= shr_m (Nat.iter k shr_1 mrs).
Proof.
  intros Hm. rewrite shr_iter_m by assumption.
  apply Z.div_pos; [lia|apply pow2_pos; lia].
Qed.

(** After at least one shift the round bit is the last bit shifted out. *)
Lemma shr_iter_r (k : nat) (mrs : shr_record) :
  0 <= shr_m mrs ->
  shr_r (Nat.iter (S k) shr_1 mrs) = Z.odd (shr_m mrs / 2 ^ Z.of_nat k).
Proof.
  intros Hm. rewrite Nat.iter_succ, shr_1_r by (apply shr_iter_nonneg, Hm).
  rewrite shr_iter_m by assumption. reflexivity.
Qed.

(** The value of a rounded product, in terms of the shifted and rounded
    mantissa. *)
Lemma binary_round_aux_value M E l :
  0 < M -> -1074 <= E -> E + Z.max 0 (Zdigits2 M - 53) + 1 <= 971 ->
  let mrs := fst (shr_fexp prec emax M E l) in
  let Q := round_nearest_even (shr_m mrs) (loc_of_shr_record mrs) in
  let p := Z.max 0 (Zdigits2 M - 53) in
  exists m e,
    binary_round_aux prec emax false M E l = S754_finite false m e /\
    E <= e <= E + p + 1 /\
    shr_m mrs = M / 2 ^ p /\
    (e <= 0 -> Zpos m / 2 ^ (- e) = Q / 2 ^ (- (E + p))).
Proof.
  intros HM HE Hmax mrs Q p. subst mrs Q p. unfold binary_round_aux.
  pose proof (shr_fexp_spec M E l ltac:(lia)) as [Hq He1].
  pose proof (shr_fexp_pos M E l HM HE) as [Hq0 He1'].
  destruct (shr_fexp prec emax M E l) as [mrs' e1]. cbn [fst snd] in *.
  pose proof (Zdigits2_bounds M HM) as [HMlo HMhi].
  pose proof (Zdigits2_pos M HM) as HdM.
  set (dM := Zdigits2 M) in *.
  assert (Hp1 : Z.max 0 (fexp prec emax (dM + E) - E) = Z.max 0 (dM - 53))
    by (unfold fexp, SpecFloat.emin, emax, prec; lia).
  rewrite Hp1 in Hq, He1. set (p1 := Z.max 0 (dM - 53)) in *.
  set (q := shr_m mrs') in *.
  assert (Hq53 : q < 2 ^ 53).
  { rewrite Hq. apply Z.div_lt_upper_bound; [apply pow2_pos; lia|].
    rewrite <- Z.pow_add_r by lia.
    eapply Z.lt_le_trans; [exact HMhi|]. apply Z.pow_le_mono_r; lia. }
  pose proof (round_nearest_even_ge q (loc_of_shr_record mrs')) as HQlo.
  pose proof (round_nearest_even_le q (loc_of_shr_record mrs')) as HQhi.
  set (Q := round_nearest_even q (loc_of_shr_record mrs')) in *.
  assert (HQ0 : 0 < Q) by lia.
  pose proof (shr_fexp_spec Q e1 loc_Exact ltac:(lia)) as [Hm2 He2].
  pose proof (shr_fexp_pos Q e1 loc_Exact HQ0 He1') as [Hm20 _].
  destruct (shr_fexp prec emax Q e1 loc_Exact) as [mrs'' e2]. cbn [fst snd] in *.
  assert (HdQ : Zdigits2 Q <= 54)
    by (apply Zdigits2_le; [lia| |lia]; change (2 ^ 54) with (2 * 2 ^ 53); lia).
  pose proof (Zdigits2_pos Q HQ0) as HdQ0.
  assert (Hp2 : Z.max 0 (fexp prec emax (Zdigits2 Q + e1) - e1)
                = Z.max 0 (Zdigits2 Q - 53))
    by (unfold fexp, SpecFloat.emin, emax, prec; lia).
  rewrite Hp2 in Hm2, He2. set (p2 := Z.max 0 (Zdigits2 Q - 53)) in *.
  destruct (shr_m mrs'') as [|m|m] eqn:Em; try lia.
  assert (Hle : (e2 <=? emax - prec) = true)
    by (apply Z.leb_le; unfold emax, prec; lia).
  rewrite Hle. exists m, e2. split; [reflexivity|]. split; [lia|].
  split; [exact Hq|].
  intros He0. rewrite Hm2, div_pow2_div_pow2 by lia. f_equal. f_equal. lia.
Qed.

Lemma shr_fexp_round_bit M E :
  0 < M -> 0 < Zdigits2 M - 53 -> -1074 <= E ->
  shr_r (fst (shr_fexp prec emax M E loc_Exact))
  = Z.odd (M / 2 ^ (Zdigits2 M - 53 - 1)).
Proof.
  intros HM Hp HE. unfold shr_fexp, shr.
  replace (fexp prec emax (Zdigits2 M + E) - E) with (Zdigits2 M - 53)
    by (unfold fexp, SpecFloat.emin, emax, prec; lia).
  destruct (Zdigits2 M - 53) as [|p|p] eqn:Hd; try lia. cbn [fst].
  rewrite iter_pos_nat.
  destruct (Pos.to_nat p) as [|k] eqn:Hk; [lia|].
  rewrite shr_iter_r by (cbn; lia). cbn [shr_record_of_loc shr_m].
  do 3 f_equal. lia.
Qed.

Lemma round_up_on_odd (mrs : shr_record) :
  shr_r mrs = true -> Z.odd (shr_m mrs) = true ->
  round_nearest_even (shr_m mrs) (loc_of_shr_record mrs) = shr_m mrs + 1.
Proof.
  destruct mrs as [m r s]. cbn [shr_r shr_m]. intros -> Ho.
  destruct s; cbn [loc_of_shr_record round_nearest_even]; [reflexivity|].
  rewrite <- Z.negb_odd, Ho. reflexivity.
Qed.

(** With [U * V = W], a number within [U] below the next multiple of [W]
    keeps its quotient by [W] when it is divided by [U], moved up by at
    most one, and divided by [V]. *)
Lemma quotient_sandwich X U V W q Q k :
  0 < U -> 0 < V -> U * V = W ->
  q = X / U -> q <= Q <= q + 1 ->
  k * W <= X -> X + U < (k + 1) * W ->
  Q / V = k.
Proof.
  intros HU HV HW Hq HQ Hlo Hhi.
  pose proof (Z.mul_div_le X U HU) as H1.
  pose proof (Z.mul_succ_div_gt X U HU) as H2. rewrite <- Hq in H1, H2.
  symmetry. apply Z.div_unique with (Q - k * V); [left|ring].
  subst W. split.
  - assert (k * V < q + 1); [|lia].
    apply (Z.mul_lt_mono_pos_l U); [exact HU|]. nia.
  - assert (q + 1 < (k + 1) * V); [|lia].
    apply (Z.mul_lt_mono_pos_l U); [exact HU|]. nia.
Qed.

(** [Math.floor(n * c)] is the integer part of [n * a / b] when the
    constant [c] is the float [(a * 2^53 - 8) / b / 2^53] nearest to
    [a / b], for an array length [n]. *)
Lemma floor_mul_ratio n c mc a b :
  0 < n < 2 ^ 32 ->
  Prim2SF c = S754_finite false mc (-53) ->
  b * Zpos mc = a * 2 ^ 53 - 8 ->
  16 <= a -> a < b -> b <= 2 ^ 20 ->
  Math_floor (of_int n * c) = Some (n * a / b).
Proof.
  intros Hn Hc Hmc Ha Hab Hb.
  assert (Hmc53 : 2 ^ 52 <= Zpos mc < 2 ^ 53).
  { pose proof (Prim2SF_valid c) as V. rewrite Hc in V.
    apply valid_finite in V as (_ & Hhi & Hlo). split; [apply Hlo; lia|exact Hhi]. }
  destruct (of_int_spec n) as (m & e & Hm & He & Hme & Hmlo & Hmhi).
  { split; [lia|]. eapply Z.lt_trans; [apply Hn|]. reflexivity. }
  assert (He32 : e <= -21).
  { destruct (Z.le_gt_cases e (-21)) as [|Hgt]; [assumption|exfalso].
    assert (2 ^ (- e) <= 2 ^ 20) by (apply Z.pow_le_mono_r; lia).
    assert (n * 2 ^ (- e) <= n * 2 ^ 20)
      by (apply Z.mul_le_mono_nonneg_l; lia).
    assert (n * 2 ^ 20 < 2 ^ 32 * 2 ^ 20)
      by (apply Z.mul_lt_mono_pos_r; [reflexivity|lia]).
    change (2 ^ 32 * 2 ^ 20) with (2 ^ 52) in *. lia. }
  unfold Math_floor. rewrite mul_spec, Hm, Hc.
  cbn [SF64mul SFmul xorb].
  set (M := Zpos (m * mc)).
  assert (HM : M = Zpos m * Zpos mc) by reflexivity.
  assert (HM0 : 0 < M) by (unfold M; lia).
  assert (HMlo : 2 ^ 104 <= M).
  { rewrite HM. change (2 ^ 104) with (2 ^ 52 * 2 ^ 52).
    apply Z.mul_le_mono_nonneg; lia. }
  assert (HMhi : M < 2 ^ 106).
  { rewrite HM. change (2 ^ 106) with (2 ^ 53 * 2 ^ 53).
    apply Z.mul_lt_mono_nonneg; lia. }
  pose proof (Zdigits2_bounds M HM0) as [HdMlo HdMhi].
  assert (HdM : 105 <= Zdigits2 M <= 106).
  { split; [|apply Zdigits2_le; lia].
    destruct (Z.le_gt_cases 105 (Zdigits2 M)) as [|Hlt]; [assumption|exfalso].
    assert (2 ^ Zdigits2 M <= 2 ^ 104) by (apply Z.pow_le_mono_r; lia). lia. }
  destruct (binary_round_aux_value M (e + -53) loc_Exact)
    as (m' & e' & Hr & He' & Hq & Hfl); [lia|lia|lia|].
  rewrite Hr. cbn [cond_Zopp]. f_equal.
  rewrite <- (Z.opp_involutive e') at 1.
  rewrite Z.shiftl_opp_r, Z.shiftr_div_pow2 by lia.
  rewrite Hfl by lia. clear Hfl Hr m' e' He'.
  (* in terms of the exact product X = n * mc and u = digits - 53 *)
  set (g := - e) in *. set (p := Zdigits2 M - 53) in *.
  rewrite (Z.max_r 0 p) in * by lia.
  set (u := p - g).
  assert (Hu : 0 <= u <= 32) by (unfold u, p, g; lia).
  set (X := n * Zpos mc).
  assert (HMX : M = X * 2 ^ g) by (rewrite HM, Hme; unfold X; ring).
  set (U := 2 ^ u). set (V := 2 ^ (53 - u)).
  assert (HU : 0 < U) by (apply pow2_pos; lia).
  assert (HV : 0 < V) by (apply pow2_pos; lia).
  assert (HUV : U * V = 2 ^ 53)
    by (unfold U, V; rewrite <- Z.pow_add_r by lia; f_equal; lia).
  assert (HU32 : U <= 2 ^ 32) by (apply Z.pow_le_mono_r; lia).
  assert (Hg : 0 < 2 ^ g) by (apply pow2_pos; unfold g; lia).
  assert (Hpug : 2 ^ p = U * 2 ^ g)
    by (unfold U; rewrite <- Z.pow_add_r by (unfold g; lia); f_equal; unfold u; lia).
  assert (HqX : M / 2 ^ p = X / U).
  { rewrite HMX, Hpug. apply Z.div_mul_cancel_r; lia. }
  assert (HXhi : X < U * 2 ^ 53).
  { apply (Z.mul_lt_mono_pos_r (2 ^ g)); [exact Hg|].
    rewrite <- HMX. replace (U * 2 ^ 53 * 2 ^ g) with (2 ^ (53 + p)).
    - replace (53 + p) with (Zdigits2 M) by (unfold p; lia). exact HdMhi.
    - rewrite Z.pow_add_r, Hpug by lia. ring. }
  replace (- (e + -53 + p)) with (53 - u) by (unfold u, g; lia). fold V.
  set (mrs := fst (shr_fexp prec emax M (e + -53) loc_Exact)) in *.
  set (q := shr_m mrs) in *.
  pose proof (round_nearest_even_ge q (loc_of_shr_record mrs)) as HQlo.
  pose proof (round_nearest_even_le q (loc_of_shr_record mrs)) as HQhi.
  (* b * X = (n * a) * 2^53 - 8 * n *)
  set (W := 2 ^ 53) in *.
  assert (HbX : b * X = n * a * W - 8 * n).
  { unfold X. replace (b * (n * Zpos mc)) with (n * (b * Zpos mc)) by ring.
    rewrite Hmc. ring. }
  assert (Hb0 : 0 < b) by lia.
  pose proof (Z.div_mod (n * a) b ltac:(lia)) as Hkj.
  pose proof (Z.mod_pos_bound (n * a) b Hb0) as Hj.
  set (k := n * a / b) in *. set (j := (n * a) mod b) in *.
  assert (Hn35 : 8 * n < 2 ^ 35) by (change (2 ^ 35) with (8 * 2 ^ 32); lia).
  assert (HW : W = 2 ^ 53) by reflexivity.
  destruct (Z.eq_dec j 0) as [Hj0|Hj0].
  - (* n * a is a multiple of b: the product rounds up to the integer *)
    assert (Hw : b * (k * W - X) = 8 * n) by (rewrite Hkj, Hj0 in HbX; lia).
    set (w := k * W - X) in *.
    assert (Hw0 : 0 < w) by nia.
    assert (Hw2 : 2 * w <= k).
    { apply (Z.mul_le_mono_pos_l _ _ b); [exact Hb0|]. nia. }
    assert (Hw35 : w < 2 ^ 35) by nia.
    assert (HkU : k <= U).
    { assert (k * W < (U + 1) * W); [|nia].
      replace (k * W) with (X + w) by (unfold w; ring). nia. }
    assert (Hu1 : 1 <= u).
    { destruct (Z.eq_dec u 0) as [Hu0|]; [|lia].
      unfold U in HkU. rewrite Hu0 in HkU. change (2 ^ 0) with 1 in HkU. lia. }
    assert (HV2 : V = 2 * 2 ^ (52 - u)).
    { unfold V. rewrite <- Z.pow_succ_r by lia. f_equal. lia. }
    assert (HU2 : U = 2 * 2 ^ (u - 1)).
    { unfold U. rewrite <- Z.pow_succ_r by lia. f_equal. lia. }
    assert (HXk : X = k * V * U - w) by (unfold w; rewrite <- HUV; ring).
    assert (Hq1 : q = k * V - 1).
    { rewrite Hq, HqX. symmetry.
      apply Z.div_unique with (U - w); [left; lia|]. rewrite HXk. ring. }
    assert (Hr : shr_r mrs = true).
    { unfold mrs. rewrite shr_fexp_round_bit by lia. fold p.
      replace (M / 2 ^ (p - 1)) with (2 * (k * V) - 1).
      - rewrite Z.odd_sub, Z.odd_mul. reflexivity.
      - apply Z.div_unique with (2 ^ g * (2 ^ (u - 1) - w));
          [left; split; [nia|]|].
        + replace (p - 1) with (g + (u - 1)) by (unfold u; lia).
          rewrite Z.pow_add_r by (unfold g; lia).
          apply Z.mul_lt_mono_pos_l; [exact Hg|]. lia.
        + replace (p - 1) with (g + (u - 1)) by (unfold u; lia).
          rewrite Z.pow_add_r by (unfold g; lia).
          rewrite HMX, HXk, HU2. ring. }
    assert (Hodd : Z.odd q = true).
    { rewrite Hq1, HV2. replace (k * (2 * 2 ^ (52 - u)) - 1)
        with (2 * (k * 2 ^ (52 - u)) - 1) by ring.
      rewrite Z.odd_sub, Z.odd_mul. reflexivity. }
    pose proof (round_up_on_odd mrs Hr Hodd) as Hup. fold q in Hup.
    rewrite Hup, Hq1.
    replace (k * V - 1 + 1) with (k * V) by ring.
    apply Z.div_mul. lia.
  - (* otherwise the product is far from the next integer *)
    apply (quotient_sandwich X U V W q); try assumption.
    + rewrite Hq. exact HqX.
    + split; [exact HQlo|exact HQhi].
    + apply (Z.mul_le_mono_pos_l _ _ b); [exact Hb0|]. nia.
    + apply (Z.mul_lt_mono_pos_l b); [exact Hb0|].
      assert (b * U <= 2 ^ 20 * 2 ^ 32) by (apply Z.mul_le_mono_nonneg; lia).
      change (2 ^ 20 * 2 ^ 32) with (2 ^ 52) in *.
      assert (2 * 2 ^ 52 = W) by reflexivity.
      nia.
Qed.

Lemma floor_n_095 n :
  0 <= n < 2 ^ 32 -> Math_floor (of_int n * 0.95) = Some (n * 95 / 100).
Proof.
  intros Hn. destruct (Z.eq_dec n 0) as [->|]; [reflexivity|].
  rewrite (floor_mul_ratio n 0.95 8556839292003942 19 20);
    [|lia|reflexivity|reflexivity|lia..].
  f_equal. Z.to_euclidean_division_equations; lia.
Qed.

Lemma floor_n_099 n :
  0 <= n < 2 ^ 32 -> Math_floor (of_int n * 0.99) = Some (n * 99 / 100).
Proof.
  intros Hn. destruct (Z.eq_dec n 0) as [->|]; [reflexivity|].
  apply (floor_mul_ratio n 0.99 8917127262193582 99 100);
    [lia|reflexivity|reflexivity|lia..].
Qed.

(** [Math.floor(n / 2)] is the integer quotient, for an array length. *)
Lemma floor_half n :
  0 <= n < 2 ^ 32 -> Math_floor (of_int n / 2) = Some (n / 2).
Proof.
  intros Hn. destruct (Z.eq_dec n 0) as [->|Hn0]; [reflexivity|].
  destruct (of_int_spec n) as (m & e & Hm & He & Hme & Hmb).
  { split; [lia|]. eapply Z.lt_trans; [apply Hn|]. reflexivity. }
  pose proof (digits2_pos_53 m Hmb) as Hd.
  unfold Math_floor. rewrite div_spec, Hm.
  change (Prim2SF 2) with (S754_finite false 4503599627370496 (-51)).
  cbn [SF64div SFdiv xorb]. unfold SFdiv_core_binary. cbn [Zdigits2].
  rewrite Hd. change (Zpos (digits2_pos 4503599627370496)) with 53.
  replace (Z.min _ _) with (e - 2)
    by (unfold fexp, SpecFloat.emin, emax, prec; lia).
  replace (e - -51 - (e - 2)) with 53 by lia.
  rewrite (div_eucl_exact _ _ (Zpos m~0)); [| lia |].
  - change (new_location 4503599627370496 0) with loc_Exact.
    replace (e - 2) with (e - 1 - 1) by lia.
    rewrite (binary_round_aux_double false m (e - 1) Hd) by lia.
    cbn [cond_Zopp]. f_equal.
    replace (e - 1) with (- (1 - e)) by lia.
    rewrite Z.shiftl_opp_r, Z.shiftr_div_pow2 by lia.
    pose proof (pow2_pos (- e) ltac:(lia)) as Hpe.
    replace (2 ^ (1 - e)) with (2 * 2 ^ (- e))
      by (rewrite <- Z.pow_succ_r by lia; f_equal; lia).
    rewrite Hme. apply Z.div_mul_cancel_r; lia.
  - rewrite Z.shiftl_mul_pow2 by lia. change (2 ^ 53) with 9007199254740992. lia.
Qed.

(** *** Facts on the sums of [calculateStats] *)

Lemma sum_notnan (l : list float) (acc : float) :
  Forall (fun x => finite x = true) l ->
  SFnotnan (Prim2SF acc) = true ->
  SFnotnan (Prim2SF (fold_left (fun sum val => sum + val)%float l acc)) = true.
Proof.
  intros Hl. revert acc. induction Hl as [|x l Hx Hl IH]; intros acc Hacc.
  - exact Hacc.
  - cbn [fold_left]. apply IH. rewrite add_spec. apply SFadd_notnan; assumption.
Qed.

Lemma div_int_notnan x n :
  0 < n < 2 ^ 53 -> SFnotnan (Prim2SF x) = true ->
  SFnotnan (Prim2SF (x / of_int n)) = true.
Proof.
  intros Hn Hx. destruct (of_int_spec n Hn) as (m & e & Hm & _).
  rewrite div_spec, Hm. apply SFdiv_notnan, Hx.
Qed.

Lemma div_int_nonneg x n :
  0 < n < 2 ^ 53 -> nonneg x = true -> nonneg (x / of_int n) = true.
Proof.
  intros Hn Hx. destruct (of_int_spec n Hn) as (m & e & Hm & _).
  unfold nonneg. rewrite div_spec, Hm. apply SFdiv_signed, Hx.
Qed.

Lemma sum_squares_nonneg (l : list float) (mean acc : float) :
  Forall (fun x => finite x = true) l ->
  SFnotnan (Prim2SF mean) = true ->
  nonneg acc = true ->
  nonneg (fold_left (fun sum val => sum + Math_pow2 (val - mean))%float l acc)
  = true.
Proof.
  intros Hl Hmean. revert acc. induction Hl as [|x l Hx Hl IH]; intros acc Hacc.
  - exact Hacc.
  - cbn [fold_left]. apply IH. unfold nonneg, Math_pow2.
    rewrite add_spec, mul_spec, sub_spec.
    apply SFadd_signed; [exact Hacc|].
    apply SFmul_square, SFsub_notnan; assumption.
Qed.

Lemma sqrt_nonneg x : nonneg x = true -> nonneg (sqrt x) = true.
Proof. unfold nonneg. rewrite sqrt_spec. apply SFsqrt_signed. Qed.

Lemma nonneg_leb x : nonneg x = true -> (0 <=? x)%float = true.
Proof.
  unfold nonneg. rewrite FloatAxioms.leb_spec.
  change (Prim2SF 0) with (S754_zero false). apply SFleb_zero_signed.
Qed.

(** *** Facts on comparisons against a threshold *)




(** A zero is neither above a positive threshold nor below its
    opposite. *)
Lemma zero_within_threshold c t s :
  Prim2SF c = S754_zero s -> (0 <? t)%float = true ->
  (t <? c)%float = false /\ (c <? - t)%float = false.
Proof.
  intros Hc Ht. rewrite !FloatAxioms.ltb_spec, opp_spec, Hc.
  rewrite FloatAxioms.ltb_spec in Ht. change (Prim2SF 0) with (S754_zero false) in Ht.
  destruct (Prim2SF t) as [st|st| |st mt et]; try discriminate;
    destruct st; try discriminate; split; reflexivity.
Qed.

(** With a non-negative threshold no number is both above the threshold
    and below its opposite. *)
Lemma above_below_exclusive c t :
  (0 <=? t)%float = true -> (t <? c)%float = true -> (c <? - t)%float = true ->
  False.
Proof.
  rewrite FloatAxioms.leb_spec, !FloatAxioms.ltb_spec, opp_spec.
  change (Prim2SF 0) with (S754_zero false).
  destruct (Prim2SF t) as [st|st| |st mt et], (Prim2SF c) as [sc|sc| |sc mc ec];
    unfold SFleb, SFltb; cbn [SFcompare SFopp];
    try discriminate;
    try (destruct st; discriminate); try (destruct sc; discriminate);
    try (destruct st, sc; discriminate).
Qed.

End Binary64Facts.

(** ** Facts on sorting *)

Section SortFacts.
Context {A : Type} (precedes : A -> A -> bool).
(** On the elements satisfying [P] the comparator orders by the key [f]. *)
Context (P : A -> Prop) (f : A -> Z).
Hypothesis precedes_key :
  forall a b, P a -> P b -> precedes a b = (f a <? f b).

Lemma insert_perm (x : A) (l : list A) : Permutation (insert precedes x l) (x :: l).
Proof.
  induction l as [|y l IH]; cbn [insert]; [reflexivity|].
  destruct (precedes y x); [|reflexivity].
  rewrite IH. apply perm_swap.
Qed.

Lemma sort_perm (l : list A) : Permutation (sort precedes l) l.
Proof.
  induction l as [|x l IH]; cbn [sort]; [reflexivity|].
  rewrite insert_perm, IH. reflexivity.
Qed.

Lemma sort_length (l : list A) : length (sort precedes l) = length l.
Proof. apply Permutation_length, sort_perm. Qed.

Lemma sort_Forall (Q : A -> Prop) (l : list A) :
  Forall Q l -> Forall Q (sort precedes l).
Proof. intros H. eapply Permutation_Forall; [symmetry; apply sort_perm|exact H]. Qed.

Lemma insert_sorted (x : A) (l : list A) :
  P x -> Forall P l ->
  StronglySorted (key_le f) l -> StronglySorted (key_le f) (insert precedes x l).
Proof.
  intros Px Pl Hs. induction Hs as [|y l Hs IH Hy]; cbn [insert].
  - repeat constructor.
  - apply Forall_cons_1 in Pl as [Py Pl].
    rewrite precedes_key by assumption.
    destruct (Z.ltb_spec (f y) (f x)) as [Hlt|Hge].
    + constructor; [apply IH, Pl|].
      eapply Permutation_Forall; [symmetry; apply insert_perm|].
      constructor; [unfold key_le; lia|exact Hy].
    + constructor; [constructor; assumption|].
      constructor; [exact Hge|].
      eapply List.Forall_impl; [|exact Hy]. unfold key_le. intros; lia.
Qed.

Lemma sort_sorted (l : list A) :
  Forall P l -> StronglySorted (key_le f) (sort precedes l).
Proof.
  induction l as [|x l IH]; cbn [sort]; intros Pl; [constructor|].
  apply Forall_cons_1 in Pl as [Px Pl].
  apply insert_sorted; [assumption|apply sort_Forall, Pl|apply IH, Pl].
Qed.

(** Two sorted arrangements of the same elements coincide when equal
    keys mean equal elements. *)
Lemma sorted_perm_unique (l1 l2 : list A) :
  (forall a b, P a -> P b -> f a = f b -> a = b) ->
  Forall P l1 ->
  StronglySorted (key_le f) l1 -> StronglySorted (key_le f) l2 ->
  Permutation l1 l2 -> l1 = l2.
Proof.
  intros Hinj. revert l2.
  induction l1 as [|a l1 IH]; intros l2 P1 S1 S2 Hp.
  - apply Permutation_nil in Hp. congruence.
  - destruct l2 as [|b l2]; [apply Permutation_sym, Permutation_nil in Hp; discriminate|].
    apply Forall_cons_1 in P1 as [Pa P1].
    apply StronglySorted_inv in S1 as [S1 Ha].
    apply StronglySorted_inv in S2 as [S2 Hb].
    assert (Pb : P b).
    { assert (In b (a :: l1)) as [->|Hin]
        by (eapply Permutation_in; [symmetry; exact Hp|left; reflexivity]);
        [assumption|].
      rewrite List.Forall_forall in P1. auto. }
    assert (a = b) as <-.
    { apply Hinj; [assumption..|].
      assert (Hab : f a <= f b).
      { assert (In b (a :: l1)) as [->|Hin]
          by (eapply Permutation_in; [symmetry; exact Hp|left; reflexivity]);
          [lia|].
        rewrite List.Forall_forall in Ha. apply Ha, Hin. }
      assert (Hba : f b <= f a).
      { assert (In a (b :: l2)) as [->|Hin]
          by (eapply Permutation_in; [exact Hp|left; reflexivity]);
          [lia|].
        rewrite List.Forall_forall in Hb. apply Hb, Hin. }
      lia. }
    f_equal. apply IH; try assumption.
    eapply Permutation_cons_inv, Hp.
Qed.

Lemma sort_unique (l s : list A) :
  (forall a b, P a -> P b -> f a = f b -> a = b) ->
  Forall P l -> Permutation s l -> StronglySorted (key_le f) s ->
  sort precedes l = s.
Proof.
  intros Hinj Pl Hp Hs. apply sorted_perm_unique; try assumption.
  - apply sort_Forall, Pl.
  - apply sort_sorted, Pl.
  - rewrite sort_perm. symmetry. exact Hp.
Qed.

(** The element at a smaller index of a sorted list has the smaller key. *)
Lemma sorted_lookup (l : list A) (i j : nat) (x y : A) :
  StronglySorted (key_le f) l -> (i <= j)%nat ->
  l !! i = Some x -> l !! j = Some y -> f x <= f y.
Proof.
  intros Hs. revert i j. induction Hs as [|a l Hs IH Ha]; intros i j Hij Hi Hj.
  - discriminate.
  - destruct i as [|i], j as [|j]; cbn in Hi, Hj; try lia.
    + injection Hi as <-. injection Hj as <-. lia.
    + injection Hi as <-. rewrite List.Forall_forall in Ha.
      apply Ha. eapply list_elem_of_In, list_elem_of_lookup_2, Hj.
    + eapply IH; [|eassumption..]. lia.
Qed.
End SortFacts.

(** ** Facts on the statistics engine *)

Section StatisticsFacts.
Import Binary64 Binary64Facts.

Lemma ascending_key (a b : float) :
  finite a = true -> finite b = true -> ascending a b = (fkey a <? fkey b).
Proof. apply sub_ltb_zero. Qed.

Lemma forallb_finite (l : list float) :
  forallb finite l = true -> Forall (fun x => finite x = true) l.
Proof. rewrite forallb_forall, List.Forall_forall. auto. Qed.

Lemma forallb_ordinary (l : list float) :
  forallb ordinary l = true -> Forall (fun x => ordinary x = true) l.
Proof. rewrite forallb_forall, List.Forall_forall. auto. Qed.

Lemma ordinary_all_finite (l : list float) :
  Forall (fun x => ordinary x = true) l -> Forall (fun x => finite x = true) l.
Proof. apply List.Forall_impl, ordinary_finite. Qed.

Lemma sort_ascending_sorted (l : list float) :
  Forall (fun x => finite x = true) l ->
  StronglySorted (key_le fkey) (sort ascending l).
Proof. apply sort_sorted. exact ascending_key. Qed.

(** An ascending list of finite numbers is sorted by key. *)
Lemma is_ascending_sorted (l : list float) :
  Forall (fun x => finite x = true) l ->
  is_ascending l = true -> StronglySorted (key_le fkey) l.
Proof.
  intros Hf Ha. apply Sorted_StronglySorted.
  { intros a b c. unfold key_le. lia. }
  induction l as [|x l IH]; [constructor|].
  apply Forall_cons_1 in Hf as [Hx Hf].
  destruct l as [|y l]; [repeat constructor|].
  cbn [is_ascending] in Ha. apply andb_prop in Ha as [Hxy Ha].
  constructor; [apply IH; assumption|].
  constructor. unfold key_le.
  apply Forall_cons_1 in Hf as [Hy _].
  rewrite leb_fkey in Hxy by assumption. apply Z.leb_le, Hxy.
Qed.

(** The sort of [calculateStats] is the ascending arrangement of the
    samples. *)
Lemma sort_ascending_unique (l s : list float) :
  Forall (fun x => ordinary x = true) l ->
  Permutation s l -> is_ascending s = true ->
  sort ascending l = s.
Proof.
  intros Ho Hp Ha.
  apply (sort_unique ascending (fun x => ordinary x = true) fkey).
  - intros a b Oa Ob. apply ascending_key; apply ordinary_finite; assumption.
  - exact fkey_inj.
  - exact Ho.
  - exact Hp.
  - apply is_ascending_sorted; [|exact Ha].
    apply ordinary_all_finite.
    eapply Permutation_Forall; [symmetry; exact Hp|exact Ho].
Qed.

Lemma sum_map {A} (g : A -> float) (l : list A) (acc : float) :
  fold_left (fun a b => (a + b)%float) (map g l) acc
  = fold_left (fun sum val => (sum + g val)%float) l acc.
Proof.
  revert acc. induction l as [|x l IH]; intros acc; [reflexivity|].
  cbn [map fold_left]. apply IH.
Qed.

(** The summary is a function of the sorted array. *)
Lemma calculateStats_of_sort (durations permuted : list float) :
  sort ascending permuted = sort ascending durations ->
  calculateStats permuted = calculateStats durations.
Proof. unfold calculateStats. intros ->. reflexivity. Qed.

(** The binary64 index computations give the exact integer parts. *)
Lemma calculateStats_reference (durations : list float) :
  Z.of_nat (length durations) < 2 ^ 32 ->
  calculateStats durations
  = Normal (reference_summary (sort ascending durations)).
Proof.
  intros Hlen. unfold calculateStats, reference_summary, sum, Math_pow2.
  rewrite sum_map.
  assert (Hn : 0 <= Z.of_nat (length (sort ascending durations)) < 2 ^ 32)
    by (rewrite sort_length; lia).
  rewrite (floor_half _ Hn), (floor_n_095 _ Hn), (floor_n_099 _ Hn).
  reflexivity.
Qed.

Lemma index_lookup (a : list float) (k : Z) (x : float) :
  0 <= k -> a !! Z.to_nat k = Some x -> index a (Some k) = Num x.
Proof.
  intros Hk Hx. unfold index, get.
  destruct (Z.ltb_spec k 0); [lia|]. rewrite Hx. reflexivity.
Qed.

Lemma lookup_in_range (a : list float) (k : Z) :
  0 <= k < Z.of_nat (length a) -> exists x, a !! Z.to_nat k = Some x.
Proof.
  intros Hk. destruct (lookup_lt_is_Some_2 a (Z.to_nat k)) as [x Hx]; [lia|].
  exists x. exact Hx.
Qed.

(** Order statistics of a sorted array of finite numbers at ordered
    indices are ordered. *)
Lemma sorted_index_le (a : list float) (i j : Z) :
  Forall (fun x => finite x = true) a ->
  StronglySorted (key_le fkey) a ->
  0 <= i -> i <= j -> j < Z.of_nat (length a) ->
  le (index a (Some i)) (index a (Some j)) = true.
Proof.
  intros Hf Hs Hi Hij Hj.
  destruct (lookup_in_range a i) as [x Hx]; [lia|].
  destruct (lookup_in_range a j) as [y Hy]; [lia|].
  rewrite (index_lookup a i x), (index_lookup a j y) by (assumption || lia).
  unfold le. cbn [ToNumber].
  rewrite List.Forall_forall in Hf.
  rewrite leb_fkey.
  - apply Z.leb_le.
    apply (sorted_lookup fkey a (Z.to_nat i) (Z.to_nat j)); [assumption|lia|assumption..].
  - apply Hf. eapply list_elem_of_In, list_elem_of_lookup_2, Hx.
  - apply Hf. eapply list_elem_of_In, list_elem_of_lookup_2, Hy.
Qed.

Lemma stdDev_of_finite (a : list float) :
  Forall (fun x => finite x = true) a ->
  0 < Z.of_nat (length a) < 2 ^ 32 ->
  stdDev_nonneg (reference_summary a) = true.
Proof.
  intros Hf Hn. unfold stdDev_nonneg, reference_summary, le, sum.
  cbn [stdDev ToNumber].
  assert (Hn53 : 0 < Z.of_nat (length a) < 2 ^ 53).
  { split; [lia|]. eapply Z.lt_trans; [apply Hn|]. reflexivity. }
  apply nonneg_leb, sqrt_nonneg, div_int_nonneg; [exact Hn53|].
  rewrite sum_map.
  apply (sum_squares_nonneg a _ 0%float Hf); [|reflexivity].
  apply div_int_notnan; [exact Hn53|].
  apply sum_notnan; [exact Hf|reflexivity].
Qed.

End StatisticsFacts.

(** ** Properties of the statistics engine *)

Section StatisticsProperties.
Import Binary64 Binary64Facts.

Example calculateStats_five :
  calculateStats [3; 1; 2; 5; 4]%float
  = Normal (mkStats (Num 3) (Num 3) (Num 1) (Num 5) (Num 5) (Num 5)
                    (Num 1.4142135623730951)).
Proof. reflexivity. Qed.

(** For a hundred samples the 95th percentile is the element of index 95. *)
Example p95_index_of_hundred : Math_floor (of_int 100 * 0.95) = Some 95.
Proof. reflexivity. Qed.

(** C2, as stated, fails: on the empty sequence [calculateStats] raises
    nothing, neither [InvalidInput] nor any other exception; it returns
    a summary. *)
Lemma C2_empty_input_returns :
  calculateStats [] <> Throw InvalidInput /\
  exists s, calculateStats [] = Normal s.
Proof. split; [discriminate|eexists; reflexivity]. Qed.

(** C2, amended: on the empty sequence [calculateStats] completes
    normally and returns the summary whose mean and standard deviation
    are NaN and whose median, min, max, p95 and p99 are undefined. *)
Theorem C2_empty_input_summary :
  calculateStats []
  = Normal (mkStats (Num nan) Undefined Undefined Undefined Undefined
                    Undefined (Num nan)).
Proof. reflexivity. Qed.




(** C4, as stated, fails: the mean of three samples of 0.1 is
    0.10000000000000002, above the maximum 0.1, because the sum
    0.30000000000000004 and its third are rounded. *)
Lemma C4_mean_above_max :
  exists s, calculateStats [0.1; 0.1; 0.1]%float = Normal s /\
            mean s = Num 0.10000000000000002 /\
            max s = Num 0.1 /\
            mean_within s = false.
Proof. eexists. split; [reflexivity|]. repeat split; reflexivity. Qed.

(** C4, amended: for every non-empty sequence of finite durations (an
    array, so of length below 2^32) the summary returned by
    [calculateStats] satisfies [min <= median <= p95 <= p99 <= max] and
    [stdDev >= 0]; the mean is computed in rounded arithmetic and is not
    bounded by min and max. *)
Theorem C4_order_statistics (durations : list float) :
  durations <> [] ->
  forallb finite durations = true ->
  Z.of_nat (length durations) < 2 ^ 32 ->
  exists s, calculateStats durations = Normal s /\
            order_statistics_ordered s = true /\
            stdDev_nonneg s = true.
Proof.
  intros Hne Hf Hlen. apply forallb_finite in Hf.
  exists (reference_summary (sort ascending durations)).
  split; [apply calculateStats_reference, Hlen|].
  set (a := sort ascending durations).
  assert (Hfa : Forall (fun x => finite x = true) a) by (apply sort_Forall, Hf).
  assert (Hsa : StronglySorted (key_le fkey) a) by (apply sort_ascending_sorted, Hf).
  assert (Hn : 0 < Z.of_nat (length a) < 2 ^ 32).
  { unfold a. rewrite sort_length.
    assert (length durations <> 0%nat) by (destruct durations; [congruence|discriminate]).
    lia. }
  split; [|apply stdDev_of_finite; assumption].
  unfold order_statistics_ordered, reference_summary.
  cbn [min median p95 p99 max].
  repeat (apply andb_true_intro; split);
    apply sorted_index_le; try assumption;
    Z.to_euclidean_division_equations; lia.
Qed.

Lemma C4_witness :
  [3; 1; 2]%float <> [] /\
  forallb finite [3; 1; 2]%float = true /\
  Z.of_nat (length [3; 1; 2]%float) < 2 ^ 32 /\
  exists s, calculateStats [3; 1; 2]%float = Normal s /\
            order_statistics_ordered s = true /\
            stdDev_nonneg s = true.
Proof.
  split; [discriminate|]. split; [reflexivity|]. split; [reflexivity|].
  apply (C4_order_statistics [3; 1; 2]%float); [discriminate|reflexivity|reflexivity].
Defined.

(** C5, as stated, fails: a zero and a negative zero in their two orders
    give different summaries.  The comparator finds them equal, so the
    sort keeps the order of the input, and the minimum of [0; -0] is the
    zero where that of [-0; 0] is the negative zero (the maximum and the
    median likewise). *)
Lemma C5_negative_zero_order :
  Permutation [0; -0]%float [-0; 0]%float /\
  forallb finite [0; -0]%float = true /\
  (exists s, calculateStats [0; -0]%float = Normal s /\
             min s = Num 0 /\ median s = Num (-0) /\ max s = Num (-0)) /\
  (exists s, calculateStats [-0; 0]%float = Normal s /\
             min s = Num (-0) /\ median s = Num 0 /\ max s = Num 0) /\
  calculateStats [-0; 0]%float <> calculateStats [0; -0]%float.
Proof.
  split; [apply perm_swap|]. split; [reflexivity|].
  split; [eexists; split; [reflexivity|]; repeat split; reflexivity|].
  split; [eexists; split; [reflexivity|]; repeat split; reflexivity|].
  intros H.
  apply (f_equal (fun c => match c with
                           | Normal s => Prim2SF (ToNumber (min s))
                           | Throw _ => S754_nan
                           end)) in H.
  vm_compute in H. discriminate H.
Qed.

(** C5, amended: [calculateStats] is invariant under permutation of its
    input when the durations are finite numbers other than the negative
    zero: for every such sequence and every permutation of it, the two
    summaries are identical in all seven fields. *)
Theorem C5_permutation_invariant (durations permuted : list float) :
  forallb ordinary durations = true ->
  Permutation durations permuted ->
  calculateStats permuted = calculateStats durations.
Proof.
  intros Ho Hp. apply forallb_ordinary in Ho.
  apply calculateStats_of_sort.
  apply (sort_unique ascending (fun x => ordinary x = true) fkey).
  - intros a b Oa Ob. apply ascending_key; apply ordinary_finite; assumption.
  - exact fkey_inj.
  - eapply Permutation_Forall; [exact Hp|exact Ho].
  - rewrite sort_perm. exact Hp.
  - apply sort_ascending_sorted, ordinary_all_finite, Ho.
Qed.

Lemma C5_witness :
  forallb ordinary [3; 1; 2]%float = true /\
  Permutation [3; 1; 2]%float [2; 3; 1]%float /\
  calculateStats [2; 3; 1]%float = calculateStats [3; 1; 2]%float.
Proof.
  assert (Hp : Permutation [3; 1; 2]%float [2; 3; 1]%float).
  { eapply perm_trans; [apply perm_skip, perm_swap|apply perm_swap]. }
  split; [reflexivity|]. split; [exact Hp|].
  apply (C5_permutation_invariant [3; 1; 2]%float [2; 3; 1]%float eq_refl Hp).
Defined.

End StatisticsProperties.

(** ** Facts on the comparator *)

Section ComparatorFacts.
Import Binary64 Binary64Facts.

Lemma compare_each_tool (bs cs : list TestResult) :
  CompareTool.compare_each bs cs
  = ResultsStorage.compare_each bs cs CompareTool.REGRESSION_THRESHOLD.
Proof.
  induction cs as [|c cs IH]; [reflexivity|].
  cbn [CompareTool.compare_each ResultsStorage.compare_each]. rewrite IH.
  reflexivity.
Qed.

Lemma find_matched (bs : list TestResult) (r : TestResult) :
  match find (fun b => String.eqb (testName b) (testName r)) bs with
  | Some b => In b bs /\ testName b = testName r /\ matched bs r = true
  | None => matched bs r = false
  end.
Proof.
  unfold matched.
  destruct (find _ bs) as [b|] eqn:Hf.
  - apply find_some in Hf as [Hin Hb]. split; [exact Hin|].
    split; [apply String.eqb_eq, Hb|].
    apply existsb_exists. exists b. split; assumption.
  - destruct (existsb _ bs) eqn:He; [|reflexivity].
    apply existsb_exists in He as (b & Hin & Hb).
    pose proof (find_none _ _ Hf b Hin) as Hn. cbn beta in Hn. congruence.
Qed.

Lemma comparison_aligned (bs : list TestResult) (b cur : TestResult) (t : float) :
  In b bs -> testName b = testName cur ->
  aligned bs cur (ResultsStorage.comparison b cur t).
Proof.
  intros Hin Hname. split; [reflexivity|]. split; [reflexivity|].
  exists b. repeat split; assumption.
Qed.

(** The loop yields one aligned comparison per matched current test, in
    the order of the current tests, and one warning per unmatched one. *)
Lemma compare_each_spec (bs cs : list TestResult) (t : float) :
  Forall2 (aligned bs) (List.filter (matched bs) cs)
          (ResultsStorage.compare_each bs cs t).1 /\
  (ResultsStorage.compare_each bs cs t).2 = unmatched_warnings bs cs.
Proof.
  induction cs as [|c cs [IH1 IH2]]; [split; [constructor|reflexivity]|].
  cbn [ResultsStorage.compare_each List.filter].
  unfold unmatched_warnings. cbn [List.filter].
  destruct (ResultsStorage.compare_each bs cs t) as [out ws]. cbn [fst snd] in *.
  pose proof (find_matched bs c) as Hf.
  destruct (find _ bs) as [b|].
  - destruct Hf as (Hin & Hname & ->). cbn [negb fst snd]. split.
    + constructor; [apply comparison_aligned; assumption|exact IH1].
    + exact IH2.
  - rewrite Hf. cbn [negb fst snd map]. split; [exact IH1|].
    f_equal. exact IH2.
Qed.

Lemma compare_each_produced (bs cs : list TestResult) (t : float)
    (c : ComparisonResult) :
  In c (ResultsStorage.compare_each bs cs t).1 ->
  exists b cur, c = ResultsStorage.comparison b cur t.
Proof.
  induction cs as [|r cs IH]; [intros []|].
  cbn [ResultsStorage.compare_each].
  destruct (ResultsStorage.compare_each bs cs t) as [out ws]. cbn [fst] in IH.
  destruct (find _ bs) as [b|]; cbn [fst].
  - intros [<-|Hin]; [exists b, r; reflexivity|apply IH, Hin].
  - exact IH.
Qed.

Lemma produced_comparison (comparisons : list ComparisonResult) (t : float)
    (c : ComparisonResult) :
  produced comparisons t -> In c comparisons ->
  exists b cur, c = ResultsStorage.comparison b cur t.
Proof.
  intros [(fs & current & ->)|(-> & baseline & current & ->)] Hin.
  - unfold ResultsStorage.compareWithBaseline in Hin.
    destruct (ResultsStorage.loadBaseline fs) as [[baseline|] log];
      [|destruct Hin].
    destruct (ResultsStorage.compare_each _ _ _) as [out ws] eqn:E.
    cbn [fst] in Hin. apply (compare_each_produced (results baseline) (results current)).
    rewrite E. exact Hin.
  - unfold CompareTool.compareReports in Hin.
    rewrite compare_each_tool in Hin.
    eapply compare_each_produced, Hin.
Qed.

Lemma classes_partition (l : list ComparisonResult) :
  Forall (fun c => regression c && improvement c = false) l ->
  (length (List.filter regression l) + length (List.filter improvement l)
   + length (List.filter stable l))%nat = length l.
Proof.
  induction 1 as [|c l Hc Hl IH]; [reflexivity|].
  cbn [List.filter]. unfold stable at 1.
  destruct (regression c), (improvement c); try discriminate;
    cbn [negb andb length]; lia.
Qed.

End ComparatorFacts.

(** ** Properties of the comparator *)

Section ComparatorProperties.
Import Binary64 Binary64Facts.

(** Baseline mean 10 and current mean 13: a change of 0.3, a regression
    at the threshold 0.1. *)
Example regression_of_thirty_percent :
  let c := ResultsStorage.comparison (sample_result "X" 10) (sample_result "X" 13) 0.1 in
  meanChange (changes c) = 0.3%float /\ regression c = true /\ improvement c = false.
Proof. repeat split; reflexivity. Qed.

(** Baseline mean 10 and current mean 11: a change of exactly 0.1, which
    is no regression at the threshold 0.1. *)
Example change_at_threshold :
  let c := ResultsStorage.comparison (sample_result "X" 10) (sample_result "X" 11) 0.1 in
  meanChange (changes c) = 0.1%float /\ regression c = false /\ improvement c = false.
Proof. repeat split; reflexivity. Qed.



(** The tests X and Y in the baseline and X and Z in the current run:
    one comparison, for X, and one warning, for Z. *)
Example compare_sample :
  map comparedTest (ResultsStorage.compareWithBaseline sample_fs sample_current 0.1).1
    = ["X"] /\
  (ResultsStorage.compareWithBaseline sample_fs sample_current 0.1).2
    = [NoBaselineForTest "Z"].
Proof. split; vm_compute; reflexivity. Qed.

(** C7: the comparison goes through the current results in order and
    aligns them with the baseline by equality of the test names: every
    current test with a baseline counterpart yields exactly one result,
    carrying the relative changes [(current - baseline) / baseline] of
    mean, median, p95 and p99; a current test without counterpart is
    skipped with a warning and the comparison goes on; tests only in the
    baseline yield nothing; the results are in the order of the current
    tests.  This holds of [compareWithBaseline] (with the stored
    baseline) and of [compareReports]. *)
Theorem C7_alignment (fs : FileSystem) (baseline current : PerformanceReport)
    (t : float) :
  (ResultsStorage.loadBaseline fs).1 = Some baseline ->
  (Forall2 (aligned (results baseline))
           (List.filter (matched (results baseline)) (results current))
           (ResultsStorage.compareWithBaseline fs current t).1 /\
   (ResultsStorage.compareWithBaseline fs current t).2
     = unmatched_warnings (results baseline) (results current)) /\
  (Forall2 (aligned (results baseline))
           (List.filter (matched (results baseline)) (results current))
           (CompareTool.compareReports baseline current).1 /\
   (CompareTool.compareReports baseline current).2
     = unmatched_warnings (results baseline) (results current)).
Proof.
  intros Hload. split.
  - unfold ResultsStorage.compareWithBaseline.
    assert (Hl : ResultsStorage.loadBaseline fs = (Some baseline, [])).
    { revert Hload. unfold ResultsStorage.loadBaseline.
      destruct (negb (existsSync fs BASELINE_FILE)); [discriminate|].
      destruct (readJson fs BASELINE_FILE); cbn [fst]; [|discriminate].
      intros [= ->]. reflexivity. }
    rewrite Hl.
    pose proof (compare_each_spec (results baseline) (results current) t) as [H1 H2].
    destruct (ResultsStorage.compare_each _ _ _) as [out ws].
    cbn [fst snd app] in *. split; assumption.
  - unfold CompareTool.compareReports. rewrite compare_each_tool.
    apply compare_each_spec.
Qed.

Lemma C7_witness :
  (ResultsStorage.loadBaseline sample_fs).1 = Some sample_baseline /\
  Forall2 (aligned (results sample_baseline))
          (List.filter (matched (results sample_baseline)) (results sample_current))
          (ResultsStorage.compareWithBaseline sample_fs sample_current 0.1).1.
Proof.
  assert (Hl : (ResultsStorage.loadBaseline sample_fs).1 = Some sample_baseline)
    by (vm_compute; reflexivity).
  split; [exact Hl|].
  apply (C7_alignment sample_fs sample_baseline sample_current 0.1%float Hl).
Defined.

(** C10: with a non-negative threshold no comparison is both a
    regression and an improvement; every comparison is exactly one of
    regression, improvement and stable, and the three counts add up to
    the number of compared tests. *)
Theorem C10_classes_exclusive (comparisons : list ComparisonResult) (t : float) :
  (0 <=? t)%float = true -> produced comparisons t ->
  Forall (fun c => regression c && improvement c = false) comparisons /\
  Forall (fun c => (if regression c then 1 else 0)
                   + (if improvement c then 1 else 0)
                   + (if stable c then 1 else 0) = 1) comparisons /\
  (length (List.filter regression comparisons)
   + length (List.filter improvement comparisons)
   + length (List.filter stable comparisons))%nat = length comparisons.
Proof.
  intros Ht Hp.
  assert (Hex : Forall (fun c => regression c && improvement c = false) comparisons).
  { apply List.Forall_forall. intros c Hin.
    destruct (produced_comparison comparisons t c Hp Hin) as (b & cur & ->).
    cbn [ResultsStorage.comparison regression improvement].
    destruct (t <? _)%float eqn:Hr; [|reflexivity].
    destruct (_ <? - t)%float eqn:Hi; [|reflexivity].
    exfalso. exact (above_below_exclusive _ t Ht Hr Hi). }
  split; [exact Hex|]. split; [|apply classes_partition, Hex].
  eapply List.Forall_impl; [|exact Hex].
  intros c Hc. cbn beta in Hc. unfold stable.
  destruct (regression c), (improvement c); try discriminate; reflexivity.
Qed.

Lemma C10_witness :
  (0 <=? 0.1)%float = true /\
  produced (CompareTool.compareReports sample_baseline sample_current).1 0.1 /\
  (length (List.filter regression (CompareTool.compareReports sample_baseline sample_current).1)
   + length (List.filter improvement (CompareTool.compareReports sample_baseline sample_current).1)
   + length (List.filter stable (CompareTool.compareReports sample_baseline sample_current).1))%nat
  = length (CompareTool.compareReports sample_baseline sample_current).1.
Proof.
  assert (Hp : produced (CompareTool.compareReports sample_baseline sample_current).1 0.1).
  { right. split; [reflexivity|]. exists sample_baseline, sample_current. reflexivity. }
  split; [reflexivity|]. split; [exact Hp|].
  apply (C10_classes_exclusive _ 0.1%float eq_refl Hp).
Defined.

End ComparatorProperties.

(** ** Properties of the comparison tool *)

Section CompareToolProperties.

(** No name ends both with [_report_] and with [.json]. *)
Lemma report_filter_rejects (f : string) :
  endsWith f "_report_" && endsWith f ".json" = false.
Proof.
  destruct (endsWith f "_report_") eqn:E1; [|reflexivity].
  destruct (endsWith f ".json") eqn:E2; [|reflexivity].
  exfalso. unfold endsWith in E1, E2.
  apply bool_decide_eq_true in E1, E2.
  destruct E1 as [k1 E1], E2 as [k2 E2].
  rewrite E1 in E2. cbn in E2. discriminate.
Qed.

Lemma filter_none {A} (p : A -> bool) (l : list A) :
  (forall x, p x = false) -> List.filter p l = [].
Proof.
  intros Hp. induction l as [|x l IH]; [reflexivity|].
  cbn [List.filter]. rewrite Hp. exact IH.
Qed.

(** [getLatestReport] finds no report, whatever the directory holds. *)
Lemma getLatestReport_none (fs : FileSystem) :
  CompareTool.getLatestReport fs = None.
Proof.
  unfold CompareTool.getLatestReport.
  destruct (results_dir fs) as [d|]; [|reflexivity].
  rewrite filter_none; [reflexivity|].
  intros [f file]. apply report_filter_rejects.
Qed.

(** Without arguments and with a baseline the tool always ends with
    status 1 and "No performance results found". *)
Lemma main_no_results (fs : FileSystem) :
  existsSync fs BASELINE_FILE = true ->
  CompareTool.main fs []
  = {| CompareTool.status := 1; CompareTool.why := CompareTool.NoPerformanceResults |}.
Proof.
  intros Hb. unfold CompareTool.main. rewrite Hb, getLatestReport_none.
  reflexivity.
Qed.

(** C1 is not met by the code: in a results directory holding a
    baseline and a saved report [ipc-performance_report_2025-01-15T10-30-00-000Z.json]
    [getLatestReport] returns null, and the tool run without arguments
    exits with status 1 and "No performance results found" instead of
    comparing; the same two reports given as arguments are compared. *)
Theorem C1_latest_report_not_found :
  existsSync sample_fs BASELINE_FILE = true /\
  existsSync sample_fs (InResultsDir "ipc-performance_report_2025-01-15T10-30-00-000Z.json") = true /\
  CompareTool.getLatestReport sample_fs = None /\
  CompareTool.main sample_fs []
  = {| CompareTool.status := 1; CompareTool.why := CompareTool.NoPerformanceResults |} /\
  CompareTool.main sample_fs
    [BASELINE_FILE; InResultsDir "ipc-performance_report_2025-01-15T10-30-00-000Z.json"]
  = {| CompareTool.status := 1; CompareTool.why := CompareTool.RegressionsDetected ["X"] |}.
Proof.
  split; [vm_compute; reflexivity|]. split; [vm_compute; reflexivity|].
  split; [apply getLatestReport_none|].
  split; [apply main_no_results; vm_compute; reflexivity|].
  vm_compute. reflexivity.
Qed.

End CompareToolProperties.

(** ** Properties of the exporter *)

Section ExporterProperties.
Import Binary64.

Lemma toFixed_not_invalid (v : value) :
  ResultsStorage.toFixed v <> Throw InvalidInput.
Proof. destruct v; discriminate. Qed.

Lemma traverse_not_invalid {A B} (f : A -> completion B) (l : list A) :
  (forall x, f x <> Throw InvalidInput) -> traverse f l <> Throw InvalidInput.
Proof.
  intros Hf. induction l as [|x l IH]; [discriminate|].
  cbn [traverse]. specialize (Hf x).
  destruct (f x) as [y|e]; cbn [bind]; [|intros [= ->]; apply Hf; reflexivity].
  destruct (traverse f l) as [ys|e]; cbn [bind]; [discriminate|exact IH].
Qed.

Lemma csv_row_not_invalid (r : TestResult) :
  ResultsStorage.csv_row r <> Throw InvalidInput.
Proof.
  unfold ResultsStorage.csv_row.
  pose proof (traverse_not_invalid ResultsStorage.toFixed
                [mean (stats r); median (stats r); min (stats r); max (stats r);
                 p95 (stats r); p99 (stats r); stdDev (stats r)]
                toFixed_not_invalid) as H.
  destruct (traverse _ _) as [cells|e]; cbn [bind];
    [discriminate|intros [= ->]; apply H; reflexivity].
Qed.

Lemma csv_row_numeric (r : TestResult) :
  numeric (stats r) = true -> ResultsStorage.csv_row r = Normal (row_text r).
Proof.
  unfold numeric, ResultsStorage.csv_row, row_text.
  destruct (mean (stats r)), (median (stats r)), (min (stats r)),
    (max (stats r)), (p95 (stats r)), (p99 (stats r)), (stdDev (stats r));
    try discriminate.
  reflexivity.
Qed.

Lemma traverse_rows (rs : list TestResult) :
  forallb (fun r => numeric (stats r)) rs = true ->
  traverse ResultsStorage.csv_row rs = Normal (map row_text rs).
Proof.
  induction rs as [|r rs IH]; [reflexivity|].
  cbn [forallb]. intros H. apply andb_prop in H as [Hr Hrs].
  cbn [traverse]. rewrite (csv_row_numeric r Hr), (IH Hrs). reflexivity.
Qed.

Lemma traverse_csv_row (rs : list TestResult) :
  match traverse ResultsStorage.csv_row rs with
  | Normal rows => forallb (fun r => numeric (stats r)) rs = true
  | Throw e => e = TypeError /\ forallb (fun r => numeric (stats r)) rs = false
  end.
Proof.
  induction rs as [|r rs IH]; [reflexivity|].
  cbn [traverse forallb].
  assert (Hr : match ResultsStorage.csv_row r with
               | Normal _ => numeric (stats r) = true
               | Throw e => e = TypeError /\ numeric (stats r) = false
               end).
  { unfold ResultsStorage.csv_row, numeric.
    destruct (mean (stats r)), (median (stats r)), (min (stats r)),
      (max (stats r)), (p95 (stats r)), (p99 (stats r)), (stdDev (stats r));
      cbn; auto. }
  destruct (ResultsStorage.csv_row r) as [row|e]; cbn [bind].
  - rewrite Hr. cbn [andb].
    destruct (traverse ResultsStorage.csv_row rs) as [rows|e]; cbn [bind]; exact IH.
  - destruct Hr as [-> ->]. split; reflexivity.
Qed.

(** [exportToCSV] has no failure of its own: it fails with the TypeError
    of [toFixed] or with the error of the write. *)
Lemma exportToCSV_not_invalid (fs : FileSystem) (now_iso : string) (now_ms : Z)
    (report : PerformanceReport) :
  ResultsStorage.exportToCSV fs now_iso now_ms report <> Throw InvalidInput.
Proof.
  unfold ResultsStorage.exportToCSV.
  pose proof (traverse_not_invalid ResultsStorage.csv_row (results report)
                csv_row_not_invalid) as Hrows.
  destruct (traverse _ _) as [rows|e]; cbn [bind];
    [|intros [= ->]; apply Hrows; reflexivity].
  destruct (results_dir fs); [|discriminate].
  destruct (ResultsStorage.has_separator _); discriminate.
Qed.

(** What a completed export has done. *)
Lemma exportToCSV_completed (fs : FileSystem) (now_iso : string) (now_ms : Z)
    (report : PerformanceReport) (filepath : path) (fs' : FileSystem)
    (log : list message) :
  ResultsStorage.exportToCSV fs now_iso now_ms report = Normal (filepath, fs', log) ->
  let filename := testSuite report +:+ "_" +:+ replace_colon_dot now_iso +:+ ".csv" in
  let csv := join newline (ResultsStorage.csv_header :: map row_text (results report)) in
  forallb (fun r => numeric (stats r)) (results report) = true /\
  ResultsStorage.has_separator filename = false /\
  filepath = InResultsDir filename /\
  log = [CsvExported filepath] /\
  exists d,
    results_dir fs = Some d /\
    fs' = {| results_dir := Some (<[filename := {| content := Text csv; mtime := now_ms |}]> d);
             elsewhere := elsewhere fs |}.
Proof.
  intros H filename csv. unfold ResultsStorage.exportToCSV in H.
  pose proof (traverse_csv_row (results report)) as Hnum.
  destruct (traverse ResultsStorage.csv_row (results report)) as [rows|e] eqn:Hrows;
    cbn [bind] in H; [|discriminate].
  rewrite (traverse_rows _ Hnum) in Hrows. injection Hrows as <-.
  destruct (results_dir fs) as [d|]; [|discriminate].
  fold filename in H. fold csv in H.
  destruct (ResultsStorage.has_separator filename); [discriminate|].
  injection H as <- <- <-.
  split; [exact Hnum|]. split; [reflexivity|]. split; [reflexivity|].
  split; [reflexivity|]. exists d. split; reflexivity.
Qed.

(** [toFixed(2)] as JavaScript prints: 1.005 is the binary64 number
    1.00499999999999989..., which rounds down. *)
Example toFixed2_samples :
  map toFixed2 [1.005; 1234.5678; 0.005; -0.001; 2.5; 1e21; nan; infinity]%float
  = ["1.00"; "1234.57"; "0.01"; "-0.00"; "2.50"; "1e+21"; "NaN"; "Infinity"].
Proof. vm_compute. reflexivity. Qed.

(** C9, as stated, fails: no report makes [exportToCSV] fail with
    [InvalidInput]; the report with a NaN mean is exported, and its row
    carries the text [NaN]. *)
Lemma C9_nan_is_exported :
  (~ exists fs now_iso now_ms report,
       ResultsStorage.exportToCSV fs now_iso now_ms report = Throw InvalidInput) /\
  exists fs',
    ResultsStorage.exportToCSV sample_fs "2025-01-16T09:00:00.000Z" 3000 nan_report
    = Normal (InResultsDir "ipc-performance_2025-01-16T09-00-00-000Z.csv", fs',
              [CsvExported (InResultsDir "ipc-performance_2025-01-16T09-00-00-000Z.csv")]) /\
    option_map content
      (lookup_file fs' (InResultsDir "ipc-performance_2025-01-16T09-00-00-000Z.csv"))
    = Some (Text (ResultsStorage.csv_header +:+ newline +:+
                  "T,2025-01-15T10:30:00.000Z,NaN,1.00,1.00,1.00,1.00,1.00,0.00,10")).
Proof.
  split.
  - intros (fs & now_iso & now_ms & report & H).
    exact (exportToCSV_not_invalid fs now_iso now_ms report H).
  - eexists. split; vm_compute; reflexivity.
Qed.

(** C9, amended: [exportToCSV] does not validate the statistics.  It
    never fails with [InvalidInput]; whenever it completes, every
    statistic of the report was a number, and the file it has written
    holds the header and one row per result, in which a statistic that is
    NaN or infinite is the text [NaN], [Infinity] or [-Infinity]. *)
Theorem C9_export_unvalidated (fs : FileSystem) (now_iso : string) (now_ms : Z)
    (report : PerformanceReport) (filepath : path) (fs' : FileSystem)
    (log : list message) :
  ResultsStorage.exportToCSV fs now_iso now_ms report = Normal (filepath, fs', log) ->
  forallb (fun r => numeric (stats r)) (results report) = true /\
  option_map content (lookup_file fs' filepath)
  = Some (Text (join newline
                  (ResultsStorage.csv_header :: map row_text (results report)))) /\
  (forall x, finite x = false ->
     toFixed2 x = "NaN" \/ toFixed2 x = "Infinity" \/ toFixed2 x = "-Infinity") /\
  (forall fs now_iso now_ms report,
     ResultsStorage.exportToCSV fs now_iso now_ms report <> Throw InvalidInput).
Proof.
  intros H.
  destruct (exportToCSV_completed _ _ _ _ _ _ _ H) as (Hnum & _ & -> & _ & d & _ & ->).
  split; [exact Hnum|]. split; [|split].
  - cbn [lookup_file results_dir mbind option_bind].
    rewrite lookup_insert_eq. reflexivity.
  - intros x. unfold finite, toFixed2.
    destruct (Prim2SF x) as [s|[]| |s m e]; cbn [SFfinite]; try discriminate; auto.
  - exact exportToCSV_not_invalid.
Qed.

Lemma C9_witness :
  exists filepath fs' log,
    ResultsStorage.exportToCSV sample_fs "2025-01-16T09:00:00.000Z" 3000 nan_report
    = Normal (filepath, fs', log) /\
    forallb (fun r => numeric (stats r)) (results nan_report) = true /\
    option_map content (lookup_file fs' filepath)
    = Some (Text (join newline
                    (ResultsStorage.csv_header :: map row_text (results nan_report)))).
Proof.
  eexists _, _, _. split; [vm_compute; reflexivity|].
  match goal with
  | |- context [lookup_file ?fs' ?filepath] =>
      destruct (C9_export_unvalidated sample_fs "2025-01-16T09:00:00.000Z" 3000
                  nan_report filepath fs'
                  [CsvExported (InResultsDir "ipc-performance_2025-01-16T09-00-00-000Z.csv")])
        as (Hnum & Hfile & _)
  end; [vm_compute; reflexivity|].
  split; [exact Hnum|exact Hfile].
Defined.

End ExporterProperties.

(** ** Properties of the clean-up *)

Section CleanupProperties.

Lemma slice_nonneg {A} (l : list A) (k : Z) :
  0 <= k -> slice l k = drop (Z.to_nat k) l.
Proof.
  intros Hk. unfold slice. destruct (Z.ltb_spec k 0) as [|_]; [lia|].
  destruct (Z.le_gt_cases k (Z.of_nat (length l))) as [Hle|Hgt].
  - rewrite Z.min_l by lia. reflexivity.
  - rewrite Z.min_r by lia. rewrite Nat2Z.id.
    rewrite !drop_ge by lia. reflexivity.
Qed.

(** After the deletions a file is gone when it was named, and is as
    before when it was not. *)
Lemma delete_each_lookup (l : list Entry) (d : gmap string File) (f : string) :
  (In f (map name l) -> (ResultsStorage.delete_each d l).1 !! f = None) /\
  (~ In f (map name l) -> (ResultsStorage.delete_each d l).1 !! f = d !! f).
Proof.
  revert d. induction l as [|x l IH]; intros d.
  - split; [intros []|reflexivity].
  - cbn [ResultsStorage.delete_each map]. unfold ResultsStorage.unlinkSync.
    destruct (d !! name x) as [file|] eqn:Hx.
    + specialize (IH (delete (name x) d)) as [IH1 IH2].
      destruct (ResultsStorage.delete_each (delete (name x) d) l) as [d'' log].
      cbn [fst] in *. split.
      * intros [Heq|Hin].
        -- destruct (in_dec string_dec f (map name l)) as [Hi|Hn];
             [apply IH1, Hi|].
           rewrite IH2 by assumption. rewrite <- Heq. apply lookup_delete_eq.
        -- apply IH1, Hin.
      * intros Hn. rewrite IH2 by (intros Hi; apply Hn; right; exact Hi).
        apply lookup_delete_ne. intros Heq. apply Hn. left. exact Heq.
    + specialize (IH d) as [IH1 IH2].
      destruct (ResultsStorage.delete_each d l) as [d'' log].
      cbn [fst] in *. split.
      * intros [Heq|Hin].
        -- destruct (in_dec string_dec f (map name l)) as [Hi|Hn];
             [apply IH1, Hi|].
           rewrite IH2 by assumption. rewrite <- Heq. exact Hx.
        -- apply IH1, Hin.
      * intros Hn. apply IH2. intros Hi. apply Hn. right. exact Hi.
Qed.

Lemma newest_first_key (a b : Entry) :
  newest_first a b = (- entryMtime a <? - entryMtime b).
Proof.
  unfold newest_first.
  destruct (Z.ltb_spec (entryMtime b - entryMtime a) 0);
    destruct (Z.ltb_spec (- entryMtime a) (- entryMtime b)); lia || reflexivity.
Qed.

Lemma old_results_perm (d : gmap string File) :
  Permutation (ResultsStorage.old_results d)
    (map entry_of (List.filter (fun f => old_result_file f.1) (map_to_list d))).
Proof. apply sort_perm. Qed.

Lemma old_results_sorted (d : gmap string File) :
  StronglySorted (key_le (fun e => - entryMtime e)) (ResultsStorage.old_results d).
Proof.
  apply (sort_sorted newest_first (fun _ => True)).
  - intros a b _ _. apply newest_first_key.
  - apply List.Forall_forall. intros; exact I.
Qed.

Lemma old_results_in (d : gmap string File) (e : Entry) :
  In e (ResultsStorage.old_results d) <->
  exists file, d !! name e = Some file /\ old_result_file (name e) = true /\
               e = entry_of (name e, file).
Proof.
  split.
  - intros Hin.
    eapply Permutation_in in Hin; [|apply old_results_perm].
    apply in_map_iff in Hin as ([f file] & <- & Hin).
    apply filter_In in Hin as [Hin Hp]. cbn [fst] in Hp.
    apply list_elem_of_In, elem_of_map_to_list in Hin.
    exists file. repeat split; assumption.
  - intros (file & Hd & Hp & He).
    eapply Permutation_in; [symmetry; apply old_results_perm|].
    rewrite He. apply in_map. apply filter_In. split; [|exact Hp].
    apply list_elem_of_In, elem_of_map_to_list, Hd.
Qed.

Lemma old_results_names (d : gmap string File) (f : string) :
  In f (map name (ResultsStorage.old_results d)) <->
  is_Some (d !! f) /\ old_result_file f = true.
Proof.
  rewrite in_map_iff. split.
  - intros (e & <- & Hin). apply old_results_in in Hin as (file & Hd & Hp & _).
    split; [exists file; exact Hd|exact Hp].
  - intros [[file Hd] Hp]. exists (entry_of (f, file)). split; [reflexivity|].
    apply old_results_in. exists file. cbn. repeat split; assumption.
Qed.

Lemma NoDup_fst_filter {A B} (p : A * B -> bool) (l : list (A * B)) :
  NoDup (map fst l) -> NoDup (map fst (List.filter p l)).
Proof.
  induction l as [|x l IH]; cbn [map List.filter]; intros Hn; [constructor|].
  apply NoDup_cons in Hn as [Hx Hn].
  destruct (p x); [|apply IH, Hn].
  cbn [map]. apply NoDup_cons. split; [|apply IH, Hn].
  intros Hin. apply Hx. apply list_elem_of_In. apply list_elem_of_In in Hin.
  apply in_map_iff in Hin as (y & Hy & Hin). apply in_map_iff.
  exists y. split; [exact Hy|]. apply filter_In in Hin. apply Hin.
Qed.

Lemma old_results_NoDup (d : gmap string File) :
  NoDup (map name (ResultsStorage.old_results d)).
Proof.
  rewrite (Permutation_map name (old_results_perm d)).
  rewrite map_map. cbn [entry_of name].
  apply (NoDup_fst_filter (fun f => old_result_file f.1)).
  apply NoDup_fst_map_to_list.
Qed.

(** In a list sorted newest first, what is taken is no older than what
    is dropped. *)
Lemma take_newer_than_drop (files : list Entry) (k : nat) (a b : Entry) :
  StronglySorted (key_le (fun e => - entryMtime e)) files ->
  In a (take k files) -> In b (drop k files) -> entryMtime b <= entryMtime a.
Proof.
  intros Hs Ha Hb.
  apply list_elem_of_In, list_elem_of_lookup in Ha as [i Hi].
  apply list_elem_of_In, list_elem_of_lookup in Hb as [j Hj].
  pose proof (lookup_lt_Some _ _ _ Hi) as Hik. rewrite length_take in Hik.
  rewrite lookup_take_lt in Hi by lia. rewrite lookup_drop in Hj.
  pose proof (sorted_lookup (fun e => - entryMtime e) files i (k + j) a b Hs
                ltac:(lia) Hi Hj) as Hab.
  cbn beta in Hab. lia.
Qed.

(** Five saved reports, an older baseline and a CSV export, keeping two:
    the reports of the 4th and 5th remain with the baseline and the
    export; the three older reports are deleted. *)
Example cleanup_five_keep_two :
  let fs' := (ResultsStorage.cleanupOldResults five_reports_fs 2).1 in
  (ResultsStorage.cleanupOldResults five_reports_fs 2).2
    = [DeletedOldResult "ipc-performance_report_2025-01-13T10-30-00-000Z.json";
       DeletedOldResult "ipc-performance_report_2025-01-12T10-30-00-000Z.json";
       DeletedOldResult "ipc-performance_report_2025-01-11T10-30-00-000Z.json";
       CleanedUp 3] /\
  map (existsSync fs')
      [InResultsDir "baseline.json";
       InResultsDir "ipc-performance_2025-01-15T10-30-00-000Z.csv";
       InResultsDir "ipc-performance_report_2025-01-15T10-30-00-000Z.json";
       InResultsDir "ipc-performance_report_2025-01-14T10-30-00-000Z.json";
       InResultsDir "ipc-performance_report_2025-01-13T10-30-00-000Z.json";
       InResultsDir "ipc-performance_report_2025-01-12T10-30-00-000Z.json";
       InResultsDir "ipc-performance_report_2025-01-11T10-30-00-000Z.json"]
    = [true; true; true; true; false; false; false].
Proof. split; vm_compute; reflexivity. Qed.

(** C8: for every [keepLast >= 0], with the non-baseline JSON files of
    the results directory listed newest first (each once),
    [cleanupOldResults] deletes exactly those after the first
    [keepLast] and leaves every other file as it was: the [keepLast]
    most recently modified remain (all of them when there are fewer),
    none of the deleted is newer than one that remains, and
    [baseline.json] is never deleted. *)
Theorem C8_cleanup_keeps_latest (fs : FileSystem) (d : gmap string File)
    (keepLast : Z) :
  0 <= keepLast ->
  results_dir fs = Some d ->
  let files := ResultsStorage.old_results d in
  let kept := take (Z.to_nat keepLast) files in
  let deleted := drop (Z.to_nat keepLast) files in
  exists d',
    (ResultsStorage.cleanupOldResults fs keepLast).1
      = {| results_dir := Some d'; elsewhere := elsewhere fs |} /\
    (forall f, In f (map name deleted) -> d' !! f = None) /\
    (forall f, ~ In f (map name deleted) -> d' !! f = d !! f) /\
    (forall f, In f (map name files) <->
               is_Some (d !! f) /\ old_result_file f = true) /\
    NoDup (map name files) /\
    files = kept ++ deleted /\
    length kept = Nat.min (Z.to_nat keepLast) (length files) /\
    (forall a b, In a kept -> In b deleted -> entryMtime b <= entryMtime a) /\
    (forall e, In e files ->
               exists file, d !! name e = Some file /\ entryMtime e = mtime file) /\
    d' !! "baseline.json" = d !! "baseline.json".
Proof.
  intros Hk Hd files kept deleted.
  unfold ResultsStorage.cleanupOldResults. rewrite Hd.
  rewrite (slice_nonneg _ keepLast Hk). fold files. fold deleted.
  pose proof (delete_each_lookup deleted d) as Hl.
  destruct (ResultsStorage.delete_each d deleted) as [d' log].
  cbn [fst] in *. exists d'.
  split; [reflexivity|].
  split; [intros f; apply Hl|].
  split; [intros f; apply Hl|].
  split; [apply old_results_names|].
  split; [apply old_results_NoDup|].
  split; [symmetry; apply take_drop|].
  split; [apply length_take|].
  split; [intros a b; apply take_newer_than_drop, old_results_sorted|].
  split.
  - intros e He. apply old_results_in in He as (file & Hf & _ & He).
    exists file. split; [exact Hf|]. rewrite He. reflexivity.
  - apply Hl. intros Hin.
    assert (Hfiles : In "baseline.json" (map name files)).
    { apply in_map_iff in Hin as (e & He & Hin). apply in_map_iff.
      exists e. split; [exact He|].
      apply list_elem_of_In. apply list_elem_of_In in Hin.
      eapply subseteq_drop, Hin. }
    apply old_results_names in Hfiles as [_ Hp].
    vm_compute in Hp. discriminate.
Qed.

Lemma C8_witness :
  0 <= 2 /\
  (exists d, results_dir five_reports_fs = Some d) /\
  exists d',
    (ResultsStorage.cleanupOldResults five_reports_fs 2).1
      = {| results_dir := Some d'; elsewhere := elsewhere five_reports_fs |} /\
    d' !! "ipc-performance_report_2025-01-13T10-30-00-000Z.json" = None.
Proof.
  split; [lia|]. split; [eexists; reflexivity|].
  destruct (C8_cleanup_keeps_latest five_reports_fs _ 2 ltac:(lia) eq_refl)
    as (d' & Hfs & Hdel & _).
  exists d'. split; [exact Hfs|].
  apply Hdel. vm_compute. auto.
Defined.

End CleanupProperties.

(** ** Facts on the order of binary64 numbers *)

Module Binary64Order.
Import Binary64 Binary64Facts.

Lemma key_bound (x : spec_float) :
  valid_binary x = true -> - 2 ^ 2200 < key x < 2 ^ 2200.
Proof.
  destruct x as [s|s| |s m e]; cbn [key]; intros V; try (split; reflexivity).
  apply valid_finite in V as (He & Hm & _).
  assert (0 < 2 ^ (e + 1074)) by (apply pow2_pos; lia).
  assert (2 ^ (e + 1074) <= 2 ^ 2045) by (apply Z.pow_le_mono_r; lia).
  assert (Zpos m * 2 ^ (e + 1074) < 2 ^ 53 * 2 ^ 2045) by nia.
  assert (2 ^ 53 * 2 ^ 2045 < 2 ^ 2200).
  { rewrite <- Z.pow_add_r by lia. apply Z.pow_lt_mono_r; lia. }
  destruct s; cbn [cond_Zopp]; lia.
Qed.

Lemma rank_compare (x y : spec_float) :
  valid_binary x = true -> valid_binary y = true ->
  SFnotnan x = true -> SFnotnan y = true ->
  SFcompare x y = Some (rank x ?= rank y).
Proof.
  intros Vx Vy Nx Ny.
  destruct (SFfinite x) eqn:Fx, (SFfinite y) eqn:Fy.
  - rewrite (compare_key x y Vx Vy Fx Fy).
    destruct x, y; try discriminate; reflexivity.
  - destruct y as [| sy | |]; try discriminate.
    pose proof (key_bound x Vx) as Hx.
    assert (Hr : rank x = key x) by (destruct x; try discriminate; reflexivity).
    rewrite Hr. cbn [rank].
    destruct x as [sx| | |sx mx ex]; try discriminate;
      destruct sy; cbn [SFcompare cond_Zopp]; f_equal; symmetry;
      [apply Z.compare_gt_iff | apply Z.compare_lt_iff]; lia.
  - destruct x as [| sx | |]; try discriminate.
    pose proof (key_bound y Vy) as Hy.
    assert (Hr : rank y = key y) by (destruct y; try discriminate; reflexivity).
    rewrite Hr. cbn [rank].
    destruct y as [sy| | |sy my ey]; try discriminate;
      destruct sx; cbn [SFcompare cond_Zopp]; f_equal; symmetry;
      [apply Z.compare_lt_iff | apply Z.compare_gt_iff]; lia.
  - destruct x as [| sx | |], y as [| sy | |]; try discriminate.
    destruct sx, sy; reflexivity.
Qed.

Lemma ltb_frank (x y : float) :
  (x <? y)%float = notnan x && notnan y && (frank x <? frank y).
Proof.
  rewrite FloatAxioms.ltb_spec. unfold SFltb, notnan, frank.
  pose proof (Prim2SF_valid x) as Vx. pose proof (Prim2SF_valid y) as Vy.
  destruct (SFnotnan (Prim2SF x)) eqn:Nx.
  - destruct (SFnotnan (Prim2SF y)) eqn:Ny.
    + rewrite (rank_compare _ _ Vx Vy Nx Ny). cbn [andb].
      unfold Z.ltb. destruct (_ ?= _); reflexivity.
    + destruct (Prim2SF y); try discriminate.
      destruct (Prim2SF x); reflexivity.
  - destruct (Prim2SF x); try discriminate. reflexivity.
Qed.

Lemma leb_frank (x y : float) :
  (x <=? y)%float = notnan x && notnan y && (frank x <=? frank y).
Proof.
  rewrite FloatAxioms.leb_spec. unfold SFleb, notnan, frank.
  pose proof (Prim2SF_valid x) as Vx. pose proof (Prim2SF_valid y) as Vy.
  destruct (SFnotnan (Prim2SF x)) eqn:Nx.
  - destruct (SFnotnan (Prim2SF y)) eqn:Ny.
    + rewrite (rank_compare _ _ Vx Vy Nx Ny). cbn [andb].
      unfold Z.leb. destruct (_ ?= _); reflexivity.
    + destruct (Prim2SF y); try discriminate.
      destruct (Prim2SF x); reflexivity.
  - destruct (Prim2SF x); try discriminate. reflexivity.
Qed.

Lemma notnan_opp (x : float) : notnan (- x) = notnan x.
Proof.
  unfold notnan. rewrite opp_spec. destruct (Prim2SF x); reflexivity.
Qed.

Lemma frank_opp (x : float) : frank (- x) = - frank x.
Proof.
  unfold frank. rewrite opp_spec.
  destruct (Prim2SF x) as [s|s| |s m e]; cbn [SFopp rank key]; try reflexivity;
    destruct s; cbn [negb cond_Zopp]; lia.
Qed.

Lemma is_nan_notnan (x : float) : is_nan x = negb (notnan x).
Proof.
  unfold is_nan, notnan. rewrite FloatAxioms.eqb_spec. unfold SFeqb.
  pose proof (Prim2SF_valid x) as Vx.
  destruct (SFnotnan (Prim2SF x)) eqn:Nx.
  - rewrite (rank_compare _ _ Vx Vx Nx Nx), Z.compare_refl. reflexivity.
  - destruct (Prim2SF x); try discriminate. reflexivity.
Qed.

End Binary64Order.

(** ** Properties of the thresholds *)

Section ThresholdProperties.
Import Binary64Order.

(** The largest value is below [t] when every value is, and [-Infinity]
    is; a NaN among the values is below nothing. *)
Lemma Math_max_from_below (values : list float) (highest t : float) :
  notnan highest = true ->
  (Math_max_from highest values <? t)%float
  = (highest <? t)%float && forallb (fun x => (x <? t)%float) values.
Proof.
  revert highest. induction values as [|x values IH]; intros highest Hh.
  - cbn [Math_max_from forallb]. rewrite andb_true_r. reflexivity.
  - cbn [Math_max_from forallb]. rewrite is_nan_notnan.
    destruct (notnan x) eqn:Nx; cbn [negb].
    + rewrite IH by (destruct (_ || _); assumption).
      rewrite andb_assoc. f_equal.
      assert (Hz : is_positive_zero x && is_negative_zero highest = true ->
                   frank x = frank highest).
      { unfold is_positive_zero, is_negative_zero, frank.
        destruct (Prim2SF x) as [[]| | |]; try discriminate.
        destruct (Prim2SF highest) as [[]| | |]; try discriminate. reflexivity. }
      pose proof (ltb_frank highest x) as Hlt. rewrite Hh, Nx in Hlt.
      cbn [andb] in Hlt.
      destruct (is_positive_zero x && is_negative_zero highest) eqn:Ez;
        cbn [orb].
      * specialize (Hz eq_refl). rewrite !ltb_frank, Hh, Nx, Hz.
        destruct (notnan t), (frank highest <? frank t); reflexivity.
      * rewrite Hlt.
        destruct (Z.ltb_spec (frank highest) (frank x));
          rewrite !(ltb_frank _ t), Hh, Nx; cbn [andb];
          (destruct (notnan t); [|reflexivity]);
          destruct (Z.ltb_spec (frank highest) (frank t));
          destruct (Z.ltb_spec (frank x) (frank t)); reflexivity || lia.
    + rewrite (ltb_frank x t), Nx. cbn [andb]. rewrite andb_false_r.
      rewrite (ltb_frank nan t). reflexivity.
Qed.

Lemma Math_max_below (values : list float) (t : float) :
  (Math_max values <? t)%float
  = (neg_infinity <? t)%float && forallb (fun x => (x <? t)%float) values.
Proof. apply Math_max_from_below. reflexivity. Qed.

Lemma expect_below_returns (threshold : option float) (received : value)
    (e : Metrics.expectation) (rest : Metrics.assertion) :
  Metrics.expect_below threshold received e rest = Metrics.Returns <->
  (forall t, threshold = Some t -> Metrics.toBeLessThan received t = true) /\
  rest = Metrics.Returns.
Proof.
  unfold Metrics.expect_below. destruct threshold as [t|].
  - destruct (Metrics.toBeLessThan received t) eqn:E.
    + split; [intros H; split; [intros t' [= <-]; exact E|exact H]|intros [_ H]; exact H].
    + split; [discriminate|]. intros [H _]. specialize (H t eq_refl). congruence.
  - split; [intros H; split; [discriminate|exact H]|intros [_ H]; exact H].
Qed.

(** X1: [assertPerformanceThresholds] returns exactly when every
    threshold that is set is strictly above its statistic: the mean for
    [maxDuration], p95 for [maxP95Duration], p99 for [maxP99Duration]
    (each must be a number), and for [maxMemoryIncrease] the heap growth
    of every metric, the threshold being above [-Infinity] (the maximum
    of no metric). *)
Theorem assert_returns_iff (stats : PerformanceStats)
    (metrics : list Metrics.PerformanceMetrics)
    (thresholds : Metrics.PerformanceThresholds) :
  Metrics.assertPerformanceThresholds stats metrics thresholds = Metrics.Returns
  <->
  (forall t, Metrics.maxDuration thresholds = Some t ->
             Metrics.toBeLessThan (mean stats) t = true) /\
  (forall t, Metrics.maxP95Duration thresholds = Some t ->
             Metrics.toBeLessThan (p95 stats) t = true) /\
  (forall t, Metrics.maxP99Duration thresholds = Some t ->
             Metrics.toBeLessThan (p99 stats) t = true) /\
  (forall t, Metrics.maxMemoryIncrease thresholds = Some t ->
             (neg_infinity <? t)%float = true /\
             Forall (fun m => (Metrics.heapUsedDelta (Metrics.memoryDelta m) <? t)%float
                              = true) metrics).
Proof.
  unfold Metrics.assertPerformanceThresholds.
  rewrite !expect_below_returns.
  assert (Hmem : forall t,
    Metrics.toBeLessThan
      (Num (Math_max (map (fun m => Metrics.heapUsedDelta (Metrics.memoryDelta m))
                          metrics))) t = true <->
    (neg_infinity <? t)%float = true /\
    Forall (fun m => (Metrics.heapUsedDelta (Metrics.memoryDelta m) <? t)%float
                     = true) metrics).
  { intros t. cbn [Metrics.toBeLessThan]. rewrite Math_max_below.
    rewrite andb_true_iff, forallb_forall, List.Forall_forall.
    split; intros [H1 H2]; (split; [exact H1|]).
    - intros x Hx. apply H2. apply in_map_iff. exists x. split; [reflexivity|exact Hx].
    - intros y Hy. apply in_map_iff in Hy as (x & <- & Hx). apply H2, Hx. }
  split.
  - intros (Hd & Hp95 & Hp99 & Hm & _).
    repeat split; try assumption; apply Hmem, Hm; assumption.
  - intros (Hd & Hp95 & Hp99 & Hm).
    repeat split; try assumption. intros t Ht. apply Hmem, Hm, Ht.
Qed.

End ThresholdProperties.

(** ** Properties of the benchmark loop *)

Section BenchmarkProperties.
Import Binary64Order.
Context {World T : Type}.
Variable performance_now : World -> float * World.
Variable process_memoryUsage : World -> Metrics.MemoryUsage * World.

Let measure := Metrics.measurePerformance (T := T) performance_now process_memoryUsage.
Let rounds := Metrics.benchmark_rounds (T := T) performance_now process_memoryUsage.

Lemma measurePerformance_returns (fn : World -> completion T * World) (w : World) :
  (forall w, exists r w', fn w = (Normal r, w')) ->
  exists r m w', measure fn w = (Normal (r, m), w') /\ deltas_of_readings m.
Proof.
  intros Hfn. unfold measure, Metrics.measurePerformance.
  destruct (process_memoryUsage w) as [before w1].
  destruct (performance_now w1) as [startTime w2].
  destruct (Hfn w2) as (r & w3 & ->).
  destruct (performance_now w3) as [endTime w4].
  destruct (process_memoryUsage w4) as [after w5].
  eexists _, _, _. split; [reflexivity|]. repeat split.
Qed.

Lemma benchmark_rounds_returns (fn : World -> completion T * World) (k : nat)
    (rs : list T) (ds : list float) (ms : list Metrics.PerformanceMetrics)
    (w : World) :
  (forall w, exists r w', fn w = (Normal r, w')) ->
  exists rs' ms' w',
    rounds fn k rs ds ms w
    = (Normal (rs ++ rs', ds ++ map Metrics.duration ms', ms ++ ms'), w') /\
    length rs' = k /\ length ms' = k /\ Forall deltas_of_readings ms'.
Proof.
  intros Hfn. revert rs ds ms w.
  induction k as [|k IH]; intros rs ds ms w.
  - exists [], [], w. cbn. rewrite !app_nil_r. repeat split. constructor.
  - unfold rounds. cbn [Metrics.benchmark_rounds].
    destruct (measurePerformance_returns fn w Hfn) as (r & m & w1 & Hm & Hd).
    unfold measure in Hm. rewrite Hm.
    destruct (IH (rs ++ [r]) (ds ++ [Metrics.duration m]) (ms ++ [m]) w1)
      as (rs' & ms' & w' & Hr & Hlr & Hlm & Hds).
    unfold rounds in Hr. rewrite Hr.
    exists (r :: rs'), (m :: ms'), w'.
    cbn [map length]. rewrite <- !app_assoc. cbn [app].
    repeat split; [congruence..|constructor; assumption].
Qed.

(** X2: when the measured function never throws, [benchmarkFunction]
    completes; its arrays [results], [durations] and [metrics] have one
    entry per iteration (none for a count of iterations that is not
    positive), the durations are those of the metrics in the same order,
    every memory delta is the difference of the two readings of its
    round, and [stats] is the summary [calculateStats] gives of the
    durations. *)
Theorem benchmarkFunction_completes (fn : World -> completion T * World)
    (iterations : Z) (w : World) :
  (forall w, exists r w', fn w = (Normal r, w')) ->
  exists b w',
    Metrics.benchmarkFunction performance_now process_memoryUsage fn iterations w
    = (Normal b, w') /\
    length (Metrics.results b) = Z.to_nat iterations /\
    length (Metrics.durations b) = Z.to_nat iterations /\
    length (Metrics.metrics b) = Z.to_nat iterations /\
    Metrics.durations b = map Metrics.duration (Metrics.metrics b) /\
    Forall deltas_of_readings (Metrics.metrics b) /\
    calculateStats (Metrics.durations b) = Normal (Metrics.stats b).
Proof.
  intros Hfn. unfold Metrics.benchmarkFunction.
  destruct (benchmark_rounds_returns fn (Z.to_nat iterations) [] [] [] w Hfn)
    as (rs & ms & w' & Hr & Hlr & Hlm & Hds).
  unfold rounds in Hr. rewrite Hr. cbn [app].
  eexists _, w'. split; [reflexivity|].
  cbn [Metrics.results Metrics.durations Metrics.metrics Metrics.stats].
  rewrite length_map. repeat split; assumption.
Qed.

(** X3: with a count of iterations that is not positive the measured
    function is never called and no clock or memory is read: the world
    is as before, the three arrays are empty and [stats] is the summary
    of no sample; [assertPerformanceThresholds] on this outcome returns
    only if none of the three duration thresholds is set (and a memory
    threshold, if set, is above [-Infinity]). *)
Theorem benchmarkFunction_no_iteration (fn : World -> completion T * World)
    (iterations : Z) (w : World) (thresholds : Metrics.PerformanceThresholds) :
  iterations <= 0 ->
  Metrics.benchmarkFunction performance_now process_memoryUsage fn iterations w
  = (Normal {| Metrics.results := []; Metrics.durations := [];
               Metrics.stats := empty_summary; Metrics.metrics := [] |}, w) /\
  (Metrics.assertPerformanceThresholds empty_summary [] thresholds = Metrics.Returns
   <-> Metrics.maxDuration thresholds = None /\
       Metrics.maxP95Duration thresholds = None /\
       Metrics.maxP99Duration thresholds = None /\
       (forall t, Metrics.maxMemoryIncrease thresholds = Some t ->
                  (neg_infinity <? t)%float = true)).
Proof.
  intros Hi. split.
  - unfold Metrics.benchmarkFunction.
    replace (Z.to_nat iterations) with 0%nat by lia. reflexivity.
  - unfold Metrics.assertPerformanceThresholds.
    rewrite !expect_below_returns.
    cbn [mean p95 p99 empty_summary Metrics.toBeLessThan map Math_max Math_max_from].
    assert (Hnan : forall t, (nan <? t)%float = false).
    { intros t. rewrite ltb_frank. reflexivity. }
    split.
    + intros (Hd & Hp95 & Hp99 & Hm & _). repeat split.
      * destruct (Metrics.maxDuration thresholds) as [t|]; [|reflexivity].
        specialize (Hd t eq_refl). rewrite Hnan in Hd. discriminate.
      * destruct (Metrics.maxP95Duration thresholds) as [t|]; [|reflexivity].
        specialize (Hp95 t eq_refl). discriminate.
      * destruct (Metrics.maxP99Duration thresholds) as [t|]; [|reflexivity].
        specialize (Hp99 t eq_refl). discriminate.
      * exact Hm.
    + intros (Hd & Hp95 & Hp99 & Hm). rewrite Hd, Hp95, Hp99.
      repeat split; try discriminate. exact Hm.
Qed.

End BenchmarkProperties.

Lemma benchmarkFunction_completes_witness :
  (forall w, exists r w', clock_fn w = (Normal r, w')) /\
  exists b w',
    Metrics.benchmarkFunction clock_now clock_memory clock_fn 3 0 = (Normal b, w') /\
    length (Metrics.results b) = 3%nat /\
    Metrics.durations b = map Metrics.duration (Metrics.metrics b).
Proof.
  assert (Hfn : forall w, exists r w', clock_fn w = (Normal r, w'))
    by (intros w; eexists _, _; reflexivity).
  split; [exact Hfn|].
  destruct (benchmarkFunction_completes clock_now clock_memory clock_fn 3 0 Hfn)
    as (b & w' & Hb & Hr & _ & _ & Hd & _).
  exists b, w'. repeat split; assumption.
Defined.

Lemma benchmarkFunction_no_iteration_witness :
  0 <= 0 /\
  Metrics.benchmarkFunction clock_now clock_memory clock_fn 0 0
  = (Normal {| Metrics.results := []; Metrics.durations := [];
               Metrics.stats := empty_summary; Metrics.metrics := [] |}, 0).
Proof.
  split; [lia|].
  apply (benchmarkFunction_no_iteration clock_now clock_memory clock_fn 0 0
           {| Metrics.maxDuration := None; Metrics.maxMemoryIncrease := None;
              Metrics.maxP95Duration := None; Metrics.maxP99Duration := None |}).
  lia.
Defined.

(** ** Properties of the mock data *)

Section MockDataProperties.

Lemma append_inj_r (p s1 s2 : string) : p +:+ s1 = p +:+ s2 -> s1 = s2.
Proof.
  induction p as [|c p IH]; cbn; [auto|]. intros [= H]. apply IH, H.
Qed.

Lemma installed_count (n : nat) :
  Z.of_nat (length (List.filter (fun i => Z.rem i 3 =? 0) (seqZ 0 (Z.of_nat n))))
  = (Z.of_nat n + 2) / 3.
Proof.
  induction n as [|n IH]; [reflexivity|].
  rewrite seqZ_S, List.filter_app, length_app, Nat2Z.inj_add, IH.
  cbn [List.filter]. rewrite Z.add_0_l.
  rewrite Z.rem_mod_nonneg by lia.
  destruct (Z.eqb_spec (Z.of_nat n mod 3) 0) as [E|E]; cbn [length];
    Z.to_euclidean_division_equations; lia.
Qed.

Lemma filter_map {A B} (p : B -> bool) (f : A -> B) (l : list A) :
  List.filter p (map f l) = map f (List.filter (fun x => p (f x)) l).
Proof.
  induction l as [|x l IH]; [reflexivity|].
  cbn [map List.filter]. destruct (p (f x)); cbn [map]; rewrite IH; reflexivity.
Qed.

(** X4: for a size below 2^32, [generateMockGameLibrary] returns as many
    games as the size says (none for a negative size); the game of index
    [i] is named ["game_" i], its title is ["Game " i], and it is
    installed exactly when 3 divides [i]; all app names are different;
    and the number of installed games is the size over three, rounded
    up. *)
Theorem generateMockGameLibrary_games (size : Z) :
  size < 2 ^ 32 ->
  exists games,
    Metrics.generateMockGameLibrary size = Some games /\
    Z.of_nat (length games) = Z.max 0 size /\
    (forall i, 0 <= i < size ->
       exists g, games !! Z.to_nat i = Some g /\
                 Metrics.app_name g = "game_" +:+ pretty i /\
                 Metrics.title g = "Game " +:+ pretty i /\
                 (Metrics.is_installed g = true <-> i mod 3 = 0)) /\
    NoDup (map Metrics.app_name games) /\
    Z.of_nat (length (List.filter Metrics.is_installed games)) = (Z.max 0 size + 2) / 3.
Proof.
  intros Hs. unfold Metrics.generateMockGameLibrary.
  destruct (Z.leb_spec (2 ^ 32) size) as [|_]; [lia|].
  eexists. split; [reflexivity|].
  split; [rewrite length_map, length_seqZ; lia|].
  split; [|split].
  - intros i Hi. exists (Metrics.mockGame i).
    split; [|split; [reflexivity|split; [reflexivity|]]].
    + rewrite list_lookup_fmap, lookup_seqZ_lt by lia.
      cbn. do 2 f_equal. lia.
    + cbn [Metrics.is_installed Metrics.mockGame].
      rewrite Z.rem_mod_nonneg by lia. apply Z.eqb_eq.
  - rewrite map_map. apply NoDup_fmap_2; [|apply NoDup_seqZ].
    intros i j Hij. cbn in Hij. apply append_inj_r in Hij.
    apply (inj pretty) in Hij. exact Hij.
  - rewrite filter_map. rewrite length_map.
    destruct (Z.le_gt_cases 0 size) as [Hp|Hn].
    + rewrite Z.max_r by lia. rewrite <- (Z2Nat.id size Hp) at 1.
      cbn [Metrics.is_installed Metrics.mockGame].
      rewrite installed_count, Z2Nat.id by lia. reflexivity.
    + rewrite seqZ_nil by lia. rewrite Z.max_l by lia. reflexivity.
Qed.

Lemma generateMockGameLibrary_games_witness :
  100 < 2 ^ 32 /\
  exists games,
    Metrics.generateMockGameLibrary 100 = Some games /\
    Z.of_nat (length games) = 100 /\
    Z.of_nat (length (List.filter Metrics.is_installed games)) = 34.
Proof.
  split; [reflexivity|].
  destruct (generateMockGameLibrary_games 100 eq_refl)
    as (games & Hg & Hl & _ & _ & Hi).
  exists games. repeat split; assumption.
Defined.

(** X5: for a count below 2^32, the games of [createMockGames] agree
    with those of [generateMockGameLibrary] on the fields they share,
    and in each game the flag [is_installed] equals the flag of that name
    inside [install]. *)
Theorem createMockGames_agrees (count : Z) :
  count < 2 ^ 32 ->
  exists games,
    ReactMetrics.createMockGames count = Some games /\
    Metrics.generateMockGameLibrary count = Some (map shared_fields games) /\
    Forall (fun g => ReactMetrics.is_installed g
                     = ReactMetrics.install_is_installed (ReactMetrics.install g))
           games.
Proof.
  intros Hs. unfold ReactMetrics.createMockGames, Metrics.generateMockGameLibrary.
  destruct (Z.leb_spec (2 ^ 32) count) as [|_]; [lia|].
  eexists. split; [reflexivity|]. split.
  - rewrite map_map. reflexivity.
  - apply List.Forall_forall. intros g Hg.
    apply in_map_iff in Hg as (i & <- & _). reflexivity.
Qed.

Lemma createMockGames_agrees_witness :
  50 < 2 ^ 32 /\
  exists games,
    ReactMetrics.createMockGames 50 = Some games /\
    Metrics.generateMockGameLibrary 50 = Some (map shared_fields games).
Proof.
  split; [reflexivity|].
  destruct (createMockGames_agrees 50 eq_refl) as (games & Hg & Hl & _).
  exists games. split; assumption.
Defined.

End MockDataProperties.

(** ** Properties of the tracker *)

Section TrackerProperties.

Lemma new_array_fresh (h : Tracker.Heap) :
  h !! (Tracker.new_array h).1 = None /\
  (Tracker.new_array h).2 !! (Tracker.new_array h).1 = Some [] /\
  forall b, b <> (Tracker.new_array h).1 -> (Tracker.new_array h).2 !! b = h !! b.
Proof.
  unfold Tracker.new_array. cbn [fst snd].
  split; [apply not_elem_of_dom, is_fresh|].
  split; [apply lookup_insert_eq|].
  intros b Hb. apply lookup_insert_ne. congruence.
Qed.

Lemma calls_tracked (cs : list tracker_call) (t : Tracker.TestResultTracker)
    (h : Tracker.Heap) (before : list TestResult) :
  h !! Tracker.results t = Some before ->
  let st := fold_left call cs (t, h) in
  st.2 !! Tracker.results st.1 = Some (tracked cs before).
Proof.
  revert t h before. induction cs as [|c cs IH]; intros t h before Hb.
  - exact Hb.
  - cbn [fold_left]. destruct c as [testName now stats iterations metadata|].
    + cbn [call fst snd tracked]. apply IH.
      unfold Tracker.track. rewrite lookup_alter_eq, Hb. reflexivity.
    + cbn [call fst snd tracked]. unfold Tracker.clear.
      pose proof (new_array_fresh h) as (_ & Hn & _).
      destruct (Tracker.new_array h) as [a h']. cbn [fst snd] in *.
      apply IH. exact Hn.
Qed.

(** X6: after any sequence of [track] and [clear] calls on a new tracker,
    [getResults] is the array of the results tracked since the last
    [clear], in the order of the calls, each with the name, instant,
    statistics, iterations and metadata given and without commit or
    branch; [count] is their number. *)
Theorem tracker_holds_tracked (h : Tracker.Heap) (cs : list tracker_call) :
  let st := fold_left call cs (Tracker.createTracker h) in
  Tracker.read st.2 (Tracker.getResults st.1) = tracked cs [] /\
  Tracker.count st.1 st.2 = Z.of_nat (length (tracked cs [])).
Proof.
  unfold Tracker.createTracker.
  pose proof (new_array_fresh h) as (_ & Hn & _).
  destruct (Tracker.new_array h) as [a h']. cbn [fst snd] in Hn.
  pose proof (calls_tracked cs {| Tracker.results := a |} h' [] Hn) as Hc.
  cbn zeta in *.
  unfold Tracker.count, Tracker.read, Tracker.getResults. rewrite Hc.
  split; reflexivity.
Qed.

(** X7: [getResults] hands out the tracker's own array.  A result
    tracked later appears in an array obtained earlier, and no other
    array changes; [clear] gives the tracker a new, empty array, so an
    array obtained before the [clear] keeps its results, also when more
    results are tracked afterwards. *)
Theorem tracker_shares_array (t : Tracker.TestResultTracker) (h : Tracker.Heap)
    (testName now : string) (stats : PerformanceStats) (iterations : Z)
    (metadata : option Metadata) :
  is_Some (h !! Tracker.results t) ->
  let a := Tracker.getResults t in
  let r := tracked_result testName now stats iterations metadata in
  let h1 := Tracker.track t h testName now stats iterations metadata in
  let cleared := Tracker.clear t h in
  let h2 := Tracker.track cleared.1 cleared.2 testName now stats iterations metadata in
  Tracker.read h1 a = Tracker.read h a ++ [r] /\
  (forall b, b <> a -> Tracker.read h1 b = Tracker.read h b) /\
  Tracker.getResults cleared.1 <> a /\
  Tracker.count cleared.1 cleared.2 = 0 /\
  Tracker.read cleared.2 a = Tracker.read h a /\
  Tracker.read h2 a = Tracker.read h a /\
  Tracker.read h2 (Tracker.getResults cleared.1) = [r].
Proof.
  intros [l Hl] a r h1 cleared h2.
  subst a h1 h2 cleared.
  unfold Tracker.count, Tracker.read, Tracker.getResults, Tracker.track, Tracker.clear.
  pose proof (new_array_fresh h) as (Hf & Hn & Ho).
  destruct (Tracker.new_array h) as [a' h']. cbn [fst snd Tracker.results] in *.
  assert (Hne : a' <> Tracker.results t) by (intros ->; congruence).
  split; [rewrite lookup_alter_eq, Hl; reflexivity|].
  split; [intros b Hb; rewrite lookup_alter_ne by congruence; reflexivity|].
  split; [exact Hne|].
  split; [rewrite Hn; reflexivity|].
  split; [rewrite Ho by congruence; reflexivity|].
  split.
  - rewrite lookup_alter_ne by exact Hne. rewrite Ho by congruence. reflexivity.
  - rewrite lookup_alter_eq, Hn. reflexivity.
Qed.

Lemma tracker_shares_array_witness :
  is_Some ((Tracker.createTracker ∅).2 !! Tracker.results (Tracker.createTracker ∅).1) /\
  Tracker.read
    (Tracker.track (Tracker.createTracker ∅).1 (Tracker.createTracker ∅).2
       "T" "2025-01-15T10:30:00.000Z" (sample_stats 1) 10 None)
    (Tracker.getResults (Tracker.createTracker ∅).1)
  = Tracker.read (Tracker.createTracker ∅).2
      (Tracker.getResults (Tracker.createTracker ∅).1)
    ++ [tracked_result "T" "2025-01-15T10:30:00.000Z" (sample_stats 1) 10 None].
Proof.
  assert (Hs : is_Some ((Tracker.createTracker ∅).2
                          !! Tracker.results (Tracker.createTracker ∅).1)).
  { unfold Tracker.createTracker.
    pose proof (new_array_fresh ∅) as (_ & Hn & _).
    destruct (Tracker.new_array ∅) as [a h']. cbn [fst snd] in *.
    exists []. exact Hn. }
  split; [exact Hs|].
  apply (tracker_shares_array _ _ "T" "2025-01-15T10:30:00.000Z" (sample_stats 1)
           10 None Hs).
Defined.

End TrackerProperties.

(** ** More properties of the comparator *)

Section ComparatorRelations.
Import Binary64 Binary64Facts Binary64Order.

(** X8: the two [loadReport] functions agree.  Where the tool's returns
    a report the store's returns the same report and logs nothing; where
    the tool's throws the store's returns null: silently for a missing
    file, with a logged failure for a file that is not JSON.
    [loadBaseline] returns what the store's [loadReport] returns for
    [baseline.json]. *)
Theorem loaders_agree (fs : FileSystem) (filepath : path) :
  match CompareTool.loadReport fs filepath with
  | Normal report => ResultsStorage.loadReport fs filepath = (Some report, [])
  | Throw e =>
      if existsSync fs filepath
      then e = SyntaxError /\
           ResultsStorage.loadReport fs filepath = (None, [FailedToLoadReport filepath])
      else e = ENOENT /\ ResultsStorage.loadReport fs filepath = (None, [])
  end /\
  (ResultsStorage.loadBaseline fs).1 = (ResultsStorage.loadReport fs BASELINE_FILE).1.
Proof.
  split.
  - unfold CompareTool.loadReport, ResultsStorage.loadReport.
    destruct (existsSync fs filepath) eqn:E; cbn [negb]; [|split; reflexivity].
    unfold readJson. unfold existsSync in E. apply bool_decide_eq_true in E.
    destruct E as [f Hf]. rewrite Hf.
    destruct (content f); [reflexivity|split; reflexivity].
  - unfold ResultsStorage.loadBaseline, ResultsStorage.loadReport.
    destruct (negb (existsSync fs BASELINE_FILE)); [reflexivity|].
    destruct (readJson fs BASELINE_FILE); reflexivity.
Qed.

Lemma loadBaseline_log (fs : FileSystem) (baseline : PerformanceReport) :
  (ResultsStorage.loadBaseline fs).1 = Some baseline ->
  ResultsStorage.loadBaseline fs = (Some baseline, []).
Proof.
  unfold ResultsStorage.loadBaseline.
  destruct (negb (existsSync fs BASELINE_FILE)); [discriminate|].
  destruct (readJson fs BASELINE_FILE); cbn [fst]; [|discriminate].
  intros [= ->]. reflexivity.
Qed.

(** X9: with its default threshold 0.1, [compareWithBaseline] computes
    for the stored baseline exactly what the tool's [compareReports]
    computes: the same comparisons and the same warnings.  When there is
    no baseline to load (no file, or not JSON) it returns no comparison
    for any threshold, warns that no baseline was found, and
    [shouldFailOnRegression] is false. *)
Theorem compareWithBaseline_as_compareReports (fs : FileSystem)
    (current : PerformanceReport) :
  match (ResultsStorage.loadBaseline fs).1 with
  | Some baseline =>
      ResultsStorage.compareWithBaseline fs current 0.1
      = CompareTool.compareReports baseline current
  | None =>
      forall t,
        (ResultsStorage.compareWithBaseline fs current t).1 = [] /\
        last (ResultsStorage.compareWithBaseline fs current t).2 = Some NoBaselineFound /\
        ResultsStorage.shouldFailOnRegression
          (ResultsStorage.compareWithBaseline fs current t).1 = false
  end.
Proof.
  destruct (ResultsStorage.loadBaseline fs).1 as [baseline|] eqn:E.
  - unfold ResultsStorage.compareWithBaseline.
    rewrite (loadBaseline_log fs baseline E).
    unfold CompareTool.compareReports. rewrite compare_each_tool.
    change CompareTool.REGRESSION_THRESHOLD with 0.1%float.
    destruct (ResultsStorage.compare_each _ _ _) as [comparisons warnings].
    reflexivity.
  - intros t. unfold ResultsStorage.compareWithBaseline.
    destruct (ResultsStorage.loadBaseline fs) as [[b|] log]; [discriminate|].
    cbn [fst snd]. rewrite last_snoc. repeat split.
Qed.

(** The relative change of a number against itself is a zero or NaN. *)
Lemma self_change (m : float) :
  notnan ((m - m) / m) = false \/ exists s, Prim2SF ((m - m) / m) = S754_zero s.
Proof.
  unfold notnan. rewrite div_spec, sub_spec.
  pose proof (Prim2SF_valid m) as V.
  destruct (Prim2SF m) as [s|s| |s mm e] eqn:E.
  - left. destruct s; reflexivity.
  - left. destruct s; reflexivity.
  - left. reflexivity.
  - right. rewrite (SFsub_diag (S754_finite s mm e) eq_refl).
    exists (xorb false s). reflexivity.
Qed.

Lemma self_comparison_classes (x : TestResult) (t : float) :
  (0 <? t)%float = true ->
  regression (ResultsStorage.comparison x x t) = false /\
  improvement (ResultsStorage.comparison x x t) = false.
Proof.
  intros Ht. cbn [ResultsStorage.comparison regression improvement].
  destruct (self_change (ToNumber (mean (stats x)))) as [Hn|[s Hs]].
  - rewrite !ltb_frank, Hn, andb_false_r. split; reflexivity.
  - apply (zero_within_threshold _ t s Hs Ht).
Qed.

Lemma NoDup_map_inj {A B} (f : A -> B) (l : list A) (a b : A) :
  NoDup (map f l) -> In a l -> In b l -> f a = f b -> a = b.
Proof.
  induction l as [|x l IH]; cbn [map]; intros Hn Ha Hb Hf; [destruct Ha|].
  apply NoDup_cons in Hn as [Hx Hn].
  destruct Ha as [->|Ha], Hb as [->|Hb]; [reflexivity| | |apply IH; assumption].
  - exfalso. apply Hx. rewrite Hf. apply list_elem_of_In, in_map, Hb.
  - exfalso. apply Hx. rewrite <- Hf. apply list_elem_of_In, in_map, Ha.
Qed.

(** With distinct names, the result of a name is found by that name. *)
Lemma find_by_name (bs : list TestResult) (r : TestResult) :
  NoDup (map testName bs) -> In r bs ->
  find (fun b => String.eqb (testName b) (testName r)) bs = Some r.
Proof.
  intros Hn Hr.
  destruct (find _ bs) as [b|] eqn:E.
  - apply find_some in E as [Hb Hname]. apply String.eqb_eq in Hname.
    f_equal. apply (NoDup_map_inj testName bs); assumption.
  - eapply find_none in E; [|exact Hr]. cbn beta in E.
    rewrite String.eqb_refl in E. discriminate.
Qed.

Lemma compare_each_self (bs cs : list TestResult) (t : float) :
  NoDup (map testName bs) -> incl cs bs ->
  ResultsStorage.compare_each bs cs t
  = (map (fun x => ResultsStorage.comparison x x t) cs, []).
Proof.
  intros Hn. induction cs as [|c cs IH]; intros Hi; [reflexivity|].
  cbn [ResultsStorage.compare_each map].
  rewrite IH by (intros x Hx; apply Hi; right; exact Hx).
  rewrite (find_by_name bs c Hn) by (apply Hi; left; reflexivity).
  reflexivity.
Qed.

(** X10: a report compared with itself is stable.  When its test names
    are distinct, [compareReports] yields one comparison per result, in
    order, and no warning, and no comparison is a regression or an
    improvement, whatever the statistics are (zero, NaN, infinite or
    missing included); the same holds of [compareWithBaseline] with any
    positive threshold when the report is the stored baseline. *)
Theorem self_comparison_stable (report : PerformanceReport) :
  NoDup (map testName (results report)) ->
  (map comparedTest (CompareTool.compareReports report report).1
     = map testName (results report) /\
   (CompareTool.compareReports report report).2 = [] /\
   Forall (fun c => stable c = true) (CompareTool.compareReports report report).1) /\
  (forall fs t,
     (ResultsStorage.loadBaseline fs).1 = Some report ->
     (0 <? t)%float = true ->
     map comparedTest (ResultsStorage.compareWithBaseline fs report t).1
       = map testName (results report) /\
     (ResultsStorage.compareWithBaseline fs report t).2 = [] /\
     Forall (fun c => stable c = true)
            (ResultsStorage.compareWithBaseline fs report t).1).
Proof.
  intros Hn.
  assert (Hself : forall t, (0 <? t)%float = true ->
    map comparedTest (ResultsStorage.compare_each (results report) (results report) t).1
      = map testName (results report) /\
    (ResultsStorage.compare_each (results report) (results report) t).2 = [] /\
    Forall (fun c => stable c = true)
           (ResultsStorage.compare_each (results report) (results report) t).1).
  { intros t Ht.
    rewrite (compare_each_self _ _ t Hn) by (intros x Hx; exact Hx).
    cbn [fst snd]. split; [|split; [reflexivity|]].
    - rewrite map_map. reflexivity.
    - apply List.Forall_forall. intros c Hc.
      apply in_map_iff in Hc as (x & <- & _). unfold stable.
      destruct (self_comparison_classes x t Ht) as [-> ->]. reflexivity. }
  split.
  - unfold CompareTool.compareReports. rewrite compare_each_tool.
    apply Hself. reflexivity.
  - intros fs t Hl Ht. unfold ResultsStorage.compareWithBaseline.
    rewrite (loadBaseline_log fs report Hl).
    specialize (Hself t Ht).
    destruct (ResultsStorage.compare_each _ _ _) as [comparisons warnings].
    exact Hself.
Qed.

Lemma self_comparison_stable_witness :
  NoDup (map testName (results sample_baseline)) /\
  map comparedTest (CompareTool.compareReports sample_baseline sample_baseline).1
  = ["X"; "Y"] /\
  Forall (fun c => stable c = true)
         (CompareTool.compareReports sample_baseline sample_baseline).1.
Proof.
  assert (Hn : NoDup (map testName (results sample_baseline))).
  { apply (bool_decide_unpack _). vm_compute. exact I. }
  split; [exact Hn|].
  destruct (self_comparison_stable sample_baseline Hn) as [(Hnames & _ & Hs) _].
  split; [exact Hnames|exact Hs].
Defined.

Lemma find_filter {A} (p q : A -> bool) (l : list A) :
  (forall x, p x = true -> q x = true) ->
  find p (List.filter q l) = find p l.
Proof.
  intros Hpq. induction l as [|x l IH]; [reflexivity|].
  cbn [List.filter find]. destruct (p x) eqn:Px.
  - rewrite (Hpq x Px). cbn [find]. rewrite Px. reflexivity.
  - destruct (q x); [cbn [find]; rewrite Px|]; exact IH.
Qed.

Lemma find_first_of_each_name (bs : list TestResult) (n : string) :
  find (fun b => String.eqb (testName b) n) (first_of_each_name bs)
  = find (fun b => String.eqb (testName b) n) bs.
Proof.
  induction bs as [|b bs IH]; [reflexivity|].
  cbn [first_of_each_name find].
  destruct (String.eqb_spec (testName b) n) as [E|E]; [reflexivity|].
  rewrite find_filter; [exact IH|].
  intros x Hx. apply String.eqb_eq in Hx. apply negb_true_iff.
  apply String.eqb_neq. congruence.
Qed.

Lemma compare_each_ext (bs bs' cs : list TestResult) (t : float) :
  (forall n, find (fun b => String.eqb (testName b) n) bs
             = find (fun b => String.eqb (testName b) n) bs') ->
  ResultsStorage.compare_each bs cs t = ResultsStorage.compare_each bs' cs t.
Proof.
  intros Hf. induction cs as [|c cs IH]; [reflexivity|].
  cbn [ResultsStorage.compare_each]. rewrite IH, (Hf (testName c)). reflexivity.
Qed.

(** X11: of several baseline results with the same test name only the
    first one is ever used: dropping from the baseline every result
    whose name occurred earlier changes neither the comparisons nor the
    warnings, for [compareReports] and for the loop of
    [compareWithBaseline] with any threshold. *)
Theorem later_duplicates_ignored (baseline current : PerformanceReport) :
  CompareTool.compareReports
    {| testSuite := testSuite baseline;
       reportTimestamp := reportTimestamp baseline;
       environment := environment baseline;
       results := first_of_each_name (results baseline) |} current
  = CompareTool.compareReports baseline current /\
  forall t,
    ResultsStorage.compare_each (first_of_each_name (results baseline))
      (results current) t
    = ResultsStorage.compare_each (results baseline) (results current) t.
Proof.
  assert (H : forall t,
    ResultsStorage.compare_each (first_of_each_name (results baseline))
      (results current) t
    = ResultsStorage.compare_each (results baseline) (results current) t).
  { intros t. apply compare_each_ext. intros n. apply find_first_of_each_name. }
  split; [|exact H].
  unfold CompareTool.compareReports. cbn [results].
  rewrite !compare_each_tool. apply H.
Qed.

Lemma find_unique (bs bs' : list TestResult) (n : string) :
  NoDup (map testName bs) -> Permutation bs bs' ->
  find (fun b => String.eqb (testName b) n) bs
  = find (fun b => String.eqb (testName b) n) bs'.
Proof.
  intros Hn Hp.
  destruct (find _ bs) as [b|] eqn:E; destruct (find _ bs') as [b'|] eqn:E';
    [| | |reflexivity].
  - apply find_some in E as [Hb Hname], E' as [Hb' Hname'].
    apply String.eqb_eq in Hname, Hname'. f_equal.
    apply (NoDup_map_inj testName bs); [exact Hn|exact Hb| |congruence].
    eapply Permutation_in; [symmetry; exact Hp|exact Hb'].
  - apply find_some in E as [Hb Hname].
    eapply find_none in E'; [|eapply Permutation_in; [exact Hp|exact Hb]].
    cbn beta in E'. congruence.
  - apply find_some in E' as [Hb' Hname'].
    eapply find_none in E; [|eapply Permutation_in; [symmetry; exact Hp|exact Hb']].
    cbn beta in E. congruence.
Qed.

(** X12: when the test names of the baseline are distinct, the order of
    the baseline's results does not matter: a baseline with the same
    results in another order gives the same comparisons and the same
    warnings. *)
Theorem baseline_order_irrelevant (baseline reordered current : PerformanceReport) :
  NoDup (map testName (results baseline)) ->
  Permutation (results baseline) (results reordered) ->
  CompareTool.compareReports reordered current
  = CompareTool.compareReports baseline current /\
  forall t,
    ResultsStorage.compare_each (results reordered) (results current) t
    = ResultsStorage.compare_each (results baseline) (results current) t.
Proof.
  intros Hn Hp.
  assert (H : forall t,
    ResultsStorage.compare_each (results reordered) (results current) t
    = ResultsStorage.compare_each (results baseline) (results current) t).
  { intros t. apply compare_each_ext. intros n. symmetry.
    apply find_unique; assumption. }
  split; [|exact H].
  unfold CompareTool.compareReports. rewrite !compare_each_tool. apply H.
Qed.

Lemma baseline_order_irrelevant_witness :
  NoDup (map testName (results sample_baseline)) /\
  Permutation (results sample_baseline)
              (results (sample_report [sample_result "Y" 20; sample_result "X" 10])) /\
  CompareTool.compareReports
    (sample_report [sample_result "Y" 20; sample_result "X" 10]) sample_current
  = CompareTool.compareReports sample_baseline sample_current.
Proof.
  assert (Hn : NoDup (map testName (results sample_baseline))).
  { apply (bool_decide_unpack _). vm_compute. exact I. }
  assert (Hp : Permutation (results sample_baseline)
                 (results (sample_report [sample_result "Y" 20; sample_result "X" 10])))
    by apply perm_swap.
  split; [exact Hn|]. split; [exact Hp|].
  apply (baseline_order_irrelevant sample_baseline _ sample_current Hn Hp).
Defined.

(** The second X of the baseline, with mean 30, is not used: the current
    mean 13 is compared with 10. *)
Example compare_with_duplicate :
  map (fun c => ToNumber (mean (baselineStats c)))
      (CompareTool.compareReports sample_twice sample_current).1
  = [10%float].
Proof. reflexivity. Qed.

(** X13: loosening the threshold never adds a regression or an
    improvement.  For thresholds [t1 <= t2], [compareWithBaseline]
    compares the same tests with the same changes under both, every
    regression under [t2] is a regression under [t1], every improvement
    under [t2] is an improvement under [t1], and if
    [shouldFailOnRegression] holds under [t2] it holds under [t1]. *)
Theorem threshold_monotone (fs : FileSystem) (current : PerformanceReport)
    (t1 t2 : float) :
  (t1 <=? t2)%float = true ->
  let strict := (ResultsStorage.compareWithBaseline fs current t1).1 in
  let loose := (ResultsStorage.compareWithBaseline fs current t2).1 in
  Forall2 (fun a b =>
             comparedTest a = comparedTest b /\ changes a = changes b /\
             (regression b = true -> regression a = true) /\
             (improvement b = true -> improvement a = true))
          strict loose /\
  (ResultsStorage.shouldFailOnRegression loose = true ->
   ResultsStorage.shouldFailOnRegression strict = true).
Proof.
  intros Ht strict loose.
  assert (Hc : forall b c,
    let a := ResultsStorage.comparison b c t1 in
    let a' := ResultsStorage.comparison b c t2 in
    comparedTest a = comparedTest a' /\ changes a = changes a' /\
    (regression a' = true -> regression a = true) /\
    (improvement a' = true -> improvement a = true)).
  { intros b c.
    cbn [ResultsStorage.comparison comparedTest changes regression improvement].
    split; [reflexivity|]. split; [reflexivity|].
    rewrite leb_frank in Ht. rewrite !ltb_frank, !notnan_opp, !frank_opp.
    destruct (notnan t1), (notnan t2); try discriminate.
    destruct (notnan _); cbn [andb] in *; [|split; discriminate].
    split; intros H; apply Z.ltb_lt in H; apply Z.ltb_lt; apply Z.leb_le in Ht; lia. }
  assert (Hall : forall bs cs,
    Forall2 (fun a b =>
               comparedTest a = comparedTest b /\ changes a = changes b /\
               (regression b = true -> regression a = true) /\
               (improvement b = true -> improvement a = true))
            (ResultsStorage.compare_each bs cs t1).1
            (ResultsStorage.compare_each bs cs t2).1).
  { intros bs cs. induction cs as [|c cs IH]; [constructor|].
    cbn [ResultsStorage.compare_each].
    destruct (ResultsStorage.compare_each bs cs t1) as [s1 w1].
    destruct (ResultsStorage.compare_each bs cs t2) as [s2 w2].
    destruct (find _ bs) as [b|]; cbn [fst] in *; [|exact IH].
    constructor; [apply Hc|exact IH]. }
  assert (H2 : Forall2 (fun a b =>
             comparedTest a = comparedTest b /\ changes a = changes b /\
             (regression b = true -> regression a = true) /\
             (improvement b = true -> improvement a = true)) strict loose).
  { subst strict loose. unfold ResultsStorage.compareWithBaseline.
    destruct (ResultsStorage.loadBaseline fs) as [[baseline|] log]; [|constructor].
    specialize (Hall (results baseline) (results current)).
    destruct (ResultsStorage.compare_each _ _ t1) as [s1 w1].
    destruct (ResultsStorage.compare_each _ _ t2) as [s2 w2].
    exact Hall. }
  split; [exact H2|].
  unfold ResultsStorage.shouldFailOnRegression.
  clearbody strict loose. induction H2 as [|a b s l (_ & _ & Hr & _) _ IH];
    [discriminate|].
  cbn [existsb]. intros H. apply orb_true_iff in H as [H|H]; apply orb_true_iff;
    [left; apply Hr, H|right; apply IH, H].
Qed.

Lemma threshold_monotone_witness :
  (0.1 <=? 0.2)%float = true /\
  ResultsStorage.shouldFailOnRegression
    (ResultsStorage.compareWithBaseline sample_fs sample_current 0.2).1 = true /\
  ResultsStorage.shouldFailOnRegression
    (ResultsStorage.compareWithBaseline sample_fs sample_current 0.1).1 = true.
Proof.
  assert (H : ResultsStorage.shouldFailOnRegression
                (ResultsStorage.compareWithBaseline sample_fs sample_current 0.2).1
              = true) by (vm_compute; reflexivity).
  split; [reflexivity|]. split; [exact H|].
  apply (threshold_monotone sample_fs sample_current 0.1 0.2 eq_refl). exact H.
Defined.

Lemma rank_le (x : spec_float) : valid_binary x = true -> rank x <= 2 ^ 2200.
Proof.
  intros V. destruct x as [s|s| |s m e];
    try (pose proof (key_bound _ V); cbn [rank] in *; lia).
  destruct s; cbn [rank cond_Zopp]; lia.
Qed.

(** X14: a baseline mean of zero.  Against a baseline mean of [+0] a
    current mean that is positive and finite has the mean change
    [+Infinity]: it is a regression for every threshold below infinity
    and never an improvement.  When both means are zero the mean change
    is NaN and the comparison is stable for every threshold. *)
Theorem zero_baseline (b c : TestResult) (t x : float) :
  mean (stats b) = Num 0 -> mean (stats c) = Num x ->
  (finite x = true -> (0 <? x)%float = true ->
   meanChange (changes (ResultsStorage.comparison b c t)) = infinity /\
   regression (ResultsStorage.comparison b c t) = (t <? infinity)%float /\
   improvement (ResultsStorage.comparison b c t) = false) /\
  ((x =? 0)%float = true ->
   meanChange (changes (ResultsStorage.comparison b c t)) = nan /\
   stable (ResultsStorage.comparison b c t) = true).
Proof.
  intros Hb Hc. unfold stable.
  cbn [ResultsStorage.comparison meanChange changes regression improvement].
  rewrite Hb, Hc. cbn [ToNumber]. split.
  - intros Hf Hpos.
    assert (Hx : exists m e, Prim2SF x = S754_finite false m e).
    { rewrite ltb_frank in Hpos. unfold finite, notnan, frank in *.
      change (Prim2SF 0) with (S754_zero false) in Hpos.
      destruct (Prim2SF x) as [s|s| |s m e]; try discriminate.
      destruct s; [|eexists _, _; reflexivity].
      cbn [SFnotnan andb rank key cond_Zopp] in Hpos.
      apply Z.ltb_lt in Hpos.
      assert (0 < 2 ^ (e + 1074) \/ 2 ^ (e + 1074) = 0).
      { destruct (Z.le_gt_cases 0 (e + 1074)) as [H|H];
          [left; apply pow2_pos, H|right; apply Z.pow_neg_r, H]. }
      nia. }
    destruct Hx as (m & e & Hx).
    assert (Hinf : ((x - 0) / 0)%float = infinity).
    { apply Prim2SF_inj. rewrite div_spec, sub_spec, Hx. reflexivity. }
    rewrite Hinf. split; [reflexivity|]. split; [reflexivity|].
    rewrite ltb_frank, notnan_opp, frank_opp.
    destruct (notnan t); [|reflexivity]. cbn [notnan andb].
    pose proof (rank_le (Prim2SF (- t)) (Prim2SF_valid _)) as Hle.
    fold (frank (- t)) in Hle. rewrite frank_opp in Hle.
    apply Z.ltb_ge. exact Hle.
  - intros Hz.
    assert (Hx : exists s, Prim2SF x = S754_zero s).
    { rewrite FloatAxioms.eqb_spec in Hz.
      change (Prim2SF 0) with (S754_zero false) in Hz.
      destruct (Prim2SF x) as [s|s| |s m e]; try discriminate;
        [eexists; reflexivity|destruct s; discriminate..]. }
    destruct Hx as (s & Hx).
    assert (Hnan : ((x - 0) / 0)%float = nan).
    { apply Prim2SF_inj. rewrite div_spec, sub_spec, Hx. destruct s; reflexivity. }
    rewrite Hnan. split; [reflexivity|].
    rewrite !ltb_frank. cbn [notnan]. rewrite andb_false_r. reflexivity.
Qed.

Lemma zero_baseline_witness :
  mean (stats (sample_result "X" 0)) = Num 0 /\
  mean (stats (sample_result "X" 5)) = Num 5 /\
  regression (ResultsStorage.comparison (sample_result "X" 0) (sample_result "X" 5) 0.1)
  = true.
Proof.
  split; [reflexivity|]. split; [reflexivity|].
  destruct (zero_baseline (sample_result "X" 0) (sample_result "X" 5) 0.1 5
              eq_refl eq_refl) as [H _].
  destruct (H eq_refl eq_refl) as (_ & Hr & _). rewrite Hr. reflexivity.
Defined.

(** A baseline mean of 0 and a current mean of 5: the change is
    [+Infinity], a regression. *)
Example zero_baseline_sample :
  let c := ResultsStorage.comparison (sample_result "X" 0) (sample_result "X" 5) 0.1 in
  meanChange (changes c) = infinity /\ regression c = true.
Proof. split; reflexivity. Qed.

End ComparatorRelations.

(** ** More properties of the comparison tool *)

Section CompareToolExit.

Lemma some_filtered {A} (p : A -> bool) (l : list A) :
  (0 <? length (List.filter p l))%nat = existsb p l.
Proof.
  induction l as [|x l IH]; [reflexivity|].
  cbn [List.filter existsb]. destruct (p x); [reflexivity|exact IH].
Qed.

Lemma printComparison_status (comparisons : list ComparisonResult) :
  CompareTool.status (CompareTool.printComparison comparisons)
  = match traverse (fun comp => traverse ResultsStorage.toFixed
                                         (CompareTool.listed_statistics comp))
                   comparisons with
    | Throw _ => 1
    | Normal _ => if ResultsStorage.shouldFailOnRegression comparisons then 1 else 0
    end.
Proof.
  unfold CompareTool.printComparison, ResultsStorage.shouldFailOnRegression.
  destruct (traverse _ comparisons); [|reflexivity].
  rewrite some_filtered.
  destruct (existsb regression comparisons); [reflexivity|].
  destruct (0 <? _)%nat; reflexivity.
Qed.

Lemma compare_and_print_status
    (loaded : completion (PerformanceReport * PerformanceReport)) :
  CompareTool.status (CompareTool.compare_and_print loaded)
  = match loaded with
    | Throw _ => 1
    | Normal (b, c) =>
        match (CompareTool.compareReports b c).1 with
        | [] => 1
        | comparisons => CompareTool.status (CompareTool.printComparison comparisons)
        end
    end.
Proof.
  unfold CompareTool.compare_and_print.
  destruct loaded as [[b c]|e]; [|reflexivity].
  destruct (CompareTool.compareReports b c).1 as [|x l] eqn:E; reflexivity.
Qed.

(** X15: the exit status of the tool is 0 or 1, and it is 0 only when
    two files are named, both load as reports, at least one current test
    has a baseline counterpart and no comparison is a regression.  Run
    without arguments the tool never exits with 0. *)
Theorem main_exit_status (fs : FileSystem) (args : list path) :
  (CompareTool.status (CompareTool.main fs args) = 0 \/
   CompareTool.status (CompareTool.main fs args) = 1) /\
  (CompareTool.status (CompareTool.main fs args) = 0 ->
   exists file1 file2 baseline current,
     args = [file1; file2] /\
     CompareTool.loadReport fs file1 = Normal baseline /\
     CompareTool.loadReport fs file2 = Normal current /\
     (CompareTool.compareReports baseline current).1 <> [] /\
     ResultsStorage.shouldFailOnRegression
       (CompareTool.compareReports baseline current).1 = false).
Proof.
  unfold CompareTool.main.
  destruct args as [|file1 [|file2 [|file3 rest]]].
  - destruct (negb (existsSync fs BASELINE_FILE));
      [split; [right; reflexivity|discriminate]|].
    rewrite getLatestReport_none. split; [right; reflexivity|discriminate].
  - split; [right; reflexivity|discriminate].
  - rewrite compare_and_print_status.
    destruct (CompareTool.loadReport fs file1) as [b|e] eqn:E1; cbn [bind];
      [|split; [right; reflexivity|discriminate]].
    destruct (CompareTool.loadReport fs file2) as [c|e] eqn:E2; cbn [bind];
      [|split; [right; reflexivity|discriminate]].
    destruct (CompareTool.compareReports b c).1 as [|x l] eqn:E;
      [split; [right; reflexivity|discriminate]|].
    rewrite printComparison_status.
    destruct (traverse _ (x :: l));
      [|split; [right; reflexivity|discriminate]].
    destruct (ResultsStorage.shouldFailOnRegression (x :: l)) eqn:F;
      [split; [right; reflexivity|discriminate]|].
    split; [left; reflexivity|]. intros _.
    exists file1, file2, b, c. rewrite E.
    split; [reflexivity|]. split; [exact E1|]. split; [exact E2|].
    split; [discriminate|exact F].
  - split; [right; reflexivity|discriminate].
Qed.

(** The comparison of two results without a median is computed, but the
    listing of it ends the tool with an uncaught TypeError. *)
Example printComparison_missing_statistic :
  let r := tracked_result "T" "2025-01-15T10:30:00.000Z" empty_summary 0 None in
  CompareTool.printComparison [CompareTool.comparison r r]
  = {| CompareTool.status := 1; CompareTool.why := CompareTool.Uncaught TypeError |}.
Proof. vm_compute. reflexivity. Qed.

End CompareToolExit.

(** ** More properties of the clean-up *)

Section CleanupRelations.

Lemma slice_drop {A} (l : list A) (k : Z) :
  slice l k
  = drop (Z.to_nat (if k <? 0 then Z.max (Z.of_nat (length l) + k) 0
                    else Z.min k (Z.of_nat (length l)))) l.
Proof. reflexivity. Qed.

Lemma same_file_system (fs : FileSystem) (d : gmap string File) :
  results_dir fs = Some d ->
  {| results_dir := Some d; elsewhere := elsewhere fs |} = fs.
Proof. destruct fs as [r e]. cbn. intros ->. reflexivity. Qed.

(** What [cleanupOldResults] does when the files it deletes are those
    after the first [n]. *)
Lemma cleanup_deletes_drop (fs : FileSystem) (d : gmap string File)
    (keepLast : Z) (n : nat) :
  results_dir fs = Some d ->
  slice (ResultsStorage.old_results d) keepLast = drop n (ResultsStorage.old_results d) ->
  exists d',
    (ResultsStorage.cleanupOldResults fs keepLast).1
      = {| results_dir := Some d'; elsewhere := elsewhere fs |} /\
    (forall f, In f (map name (drop n (ResultsStorage.old_results d))) -> d' !! f = None) /\
    (forall f, ~ In f (map name (drop n (ResultsStorage.old_results d))) ->
               d' !! f = d !! f).
Proof.
  intros Hd Hs. unfold ResultsStorage.cleanupOldResults. rewrite Hd, Hs.
  pose proof (delete_each_lookup (drop n (ResultsStorage.old_results d)) d) as Hl.
  destruct (ResultsStorage.delete_each d _) as [d' log]. cbn [fst] in *.
  exists d'. split; [reflexivity|]. split; intros f; apply Hl.
Qed.

Lemma cleanup_nothing_to_delete (fs : FileSystem) (d : gmap string File)
    (keepLast : Z) :
  results_dir fs = Some d ->
  Z.of_nat (length (ResultsStorage.old_results d)) <= keepLast ->
  ResultsStorage.cleanupOldResults fs keepLast = (fs, []).
Proof.
  intros Hd Hk. unfold ResultsStorage.cleanupOldResults. rewrite Hd.
  rewrite slice_nonneg by lia. rewrite drop_ge by lia.
  cbn. rewrite (same_file_system fs d Hd). reflexivity.
Qed.

Lemma dropped_names_old (d : gmap string File) (n : nat) (f : string) :
  In f (map name (drop n (ResultsStorage.old_results d))) ->
  is_Some (d !! f) /\ old_result_file f = true.
Proof.
  intros Hin. apply old_results_names.
  apply in_map_iff in Hin as (e & He & Hin). apply in_map_iff.
  exists e. split; [exact He|].
  apply list_elem_of_In. apply list_elem_of_In in Hin.
  eapply subseteq_drop, Hin.
Qed.

(** X16: [cleanupOldResults] is idempotent for [keepLast >= 0]: run
    again with the same [keepLast] right after, it deletes nothing, logs
    nothing and leaves the file system as the first run left it.  More
    generally it changes and logs nothing whenever the directory holds
    no more than [keepLast] result files. *)
Theorem cleanup_idempotent (fs : FileSystem) (d : gmap string File) (keepLast : Z) :
  0 <= keepLast ->
  results_dir fs = Some d ->
  let fs' := (ResultsStorage.cleanupOldResults fs keepLast).1 in
  ResultsStorage.cleanupOldResults fs' keepLast = (fs', []) /\
  (Z.of_nat (length (ResultsStorage.old_results d)) <= keepLast ->
   ResultsStorage.cleanupOldResults fs keepLast = (fs, [])).
Proof.
  intros Hk Hd fs'. split; [|apply cleanup_nothing_to_delete, Hd].
  set (files := ResultsStorage.old_results d).
  destruct (cleanup_deletes_drop fs d keepLast (Z.to_nat keepLast) Hd
              (slice_nonneg _ keepLast Hk)) as (d' & Hfs & Hdel & Hkeep).
  fold files in Hdel, Hkeep. subst fs'. rewrite Hfs.
  apply (cleanup_nothing_to_delete _ d'); [reflexivity|].
  assert (Hsub : map name (ResultsStorage.old_results d')
                 ⊆+ map name (take (Z.to_nat keepLast) files)).
  { apply NoDup_submseteq; [apply old_results_NoDup|].
    intros f Hf. apply list_elem_of_In. apply list_elem_of_In in Hf.
    apply (old_results_names d' f) in Hf as [Hsome Hold].
    assert (Hnd : ~ In f (map name (drop (Z.to_nat keepLast) files))).
    { intros Hin. rewrite (Hdel f Hin) in Hsome. destruct Hsome; discriminate. }
    rewrite (Hkeep f Hnd) in Hsome.
    assert (Hfiles : In f (map name files))
      by (apply (old_results_names d f); split; assumption).
    rewrite <- (take_drop (Z.to_nat keepLast) files), map_app in Hfiles.
    apply in_app_or in Hfiles as [H|H]; [exact H|contradiction]. }
  apply submseteq_length in Hsub. rewrite !length_map, length_take in Hsub. lia.
Qed.

Lemma cleanup_idempotent_witness :
  0 <= 2 /\
  (exists d, results_dir five_reports_fs = Some d) /\
  ResultsStorage.cleanupOldResults
    (ResultsStorage.cleanupOldResults five_reports_fs 2).1 2
  = ((ResultsStorage.cleanupOldResults five_reports_fs 2).1, []).
Proof.
  split; [lia|]. split; [eexists; reflexivity|].
  apply (cleanup_idempotent five_reports_fs _ 2 ltac:(lia) eq_refl).
Defined.

(** X17: a negative [keepLast] does not keep files from the end: with
    the result files listed newest first, [cleanupOldResults] then
    deletes the [-keepLast] oldest ones (all of them when there are
    fewer) and leaves every other file as it was; none of the deleted is
    newer than one that remains. *)
Theorem cleanup_negative_keepLast (fs : FileSystem) (d : gmap string File)
    (keepLast : Z) :
  keepLast < 0 ->
  results_dir fs = Some d ->
  let files := ResultsStorage.old_results d in
  let n := (length files - Z.to_nat (- keepLast))%nat in
  let kept := take n files in
  let deleted := drop n files in
  exists d',
    (ResultsStorage.cleanupOldResults fs keepLast).1
      = {| results_dir := Some d'; elsewhere := elsewhere fs |} /\
    (forall f, In f (map name deleted) -> d' !! f = None) /\
    (forall f, ~ In f (map name deleted) -> d' !! f = d !! f) /\
    length deleted = Nat.min (Z.to_nat (- keepLast)) (length files) /\
    (forall a b, In a kept -> In b deleted -> entryMtime b <= entryMtime a).
Proof.
  intros Hk Hd files n kept deleted.
  assert (Hs : slice files keepLast = drop n files).
  { rewrite slice_drop. destruct (Z.ltb_spec keepLast 0) as [_|]; [|lia].
    f_equal. subst n. lia. }
  destruct (cleanup_deletes_drop fs d keepLast n Hd Hs) as (d' & Hfs & Hdel & Hkeep).
  exists d'. split; [exact Hfs|]. split; [exact Hdel|]. split; [exact Hkeep|].
  split; [subst deleted n; rewrite length_drop; lia|].
  intros a b. apply take_newer_than_drop, old_results_sorted.
Qed.

Lemma cleanup_negative_keepLast_witness :
  -1 < 0 /\
  (exists d, results_dir five_reports_fs = Some d) /\
  exists d',
    (ResultsStorage.cleanupOldResults five_reports_fs (-1)).1
      = {| results_dir := Some d'; elsewhere := elsewhere five_reports_fs |} /\
    d' !! "ipc-performance_report_2025-01-11T10-30-00-000Z.json" = None.
Proof.
  split; [lia|]. split; [eexists; reflexivity|].
  destruct (cleanup_negative_keepLast five_reports_fs _ (-1) ltac:(lia) eq_refl)
    as (d' & Hfs & Hdel & _).
  exists d'. split; [exact Hfs|].
  apply Hdel. vm_compute. auto.
Defined.

(** With [keepLast = -1] only the oldest of the five reports is
    deleted. *)
Example cleanup_keep_minus_one :
  (ResultsStorage.cleanupOldResults five_reports_fs (-1)).2
  = [DeletedOldResult "ipc-performance_report_2025-01-11T10-30-00-000Z.json";
     CleanedUp 1].
Proof. vm_compute. reflexivity. Qed.

End CleanupRelations.

(** ** More properties of the exporter *)

Section ExporterRelations.

Lemma list_ascii_of_string_app (a b : string) :
  list_ascii_of_string (a +:+ b) = list_ascii_of_string a ++ list_ascii_of_string b.
Proof.
  induction a as [|c a IH]; [reflexivity|].
  change (String c a +:+ b) with (String c (a +:+ b)).
  cbn [list_ascii_of_string app]. rewrite IH. reflexivity.
Qed.

(** A name made by [exportToCSV] does not end with [.json]. *)
Lemma csv_name_not_json (a b c : string) :
  endsWith (a +:+ b +:+ c +:+ ".csv") ".json" = false.
Proof.
  unfold endsWith. apply bool_decide_eq_false. intros [k Hk].
  rewrite !list_ascii_of_string_app, !rev_app_distr in Hk.
  cbn in Hk. discriminate.
Qed.

Lemma csv_name_not_old_result (a b c : string) :
  old_result_file (a +:+ b +:+ c +:+ ".csv") = false.
Proof. unfold old_result_file. rewrite csv_name_not_json. reflexivity. Qed.

(** X18: a successful [exportToCSV] writes one file and nothing else:
    the file at the returned path holds the CSV text and the time of the
    call, every other path is as before, and the path is never that of
    the baseline.  The file written is no report: the store's
    [loadReport] returns null for it with a logged failure, the tool's
    [loadReport] throws a syntax error, and [cleanupOldResults] never
    deletes it, whatever [keepLast]. *)
Theorem exportToCSV_frame (fs : FileSystem) (now_iso : string) (now_ms : Z)
    (report : PerformanceReport) (filepath : path) (fs' : FileSystem)
    (log : list message) :
  ResultsStorage.exportToCSV fs now_iso now_ms report = Normal (filepath, fs', log) ->
  (exists csv, lookup_file fs' filepath
               = Some {| content := Text csv; mtime := now_ms |}) /\
  (forall q, q <> filepath -> lookup_file fs' q = lookup_file fs q) /\
  filepath <> BASELINE_FILE /\
  ResultsStorage.loadReport fs' filepath = (None, [FailedToLoadReport filepath]) /\
  CompareTool.loadReport fs' filepath = Throw SyntaxError /\
  (forall keepLast,
     lookup_file (ResultsStorage.cleanupOldResults fs' keepLast).1 filepath
     = lookup_file fs' filepath).
Proof.
  unfold ResultsStorage.exportToCSV.
  destruct (traverse ResultsStorage.csv_row (results report)) as [rows|e];
    cbn [bind]; [|discriminate].
  destruct (results_dir fs) as [d|] eqn:Hd; [|discriminate].
  destruct (ResultsStorage.has_separator _); [discriminate|].
  intros [= <- <- <-].
  set (filename := testSuite report +:+ "_" +:+ replace_colon_dot now_iso +:+ ".csv").
  match goal with
  | |- context [<[filename := ?f]> d] => set (file := f)
  end.
  assert (Hfile : lookup_file
                    {| results_dir := Some (<[filename := file]> d);
                       elsewhere := elsewhere fs |} (InResultsDir filename)
                  = Some file).
  { cbn. apply lookup_insert_eq. }
  split; [eexists; rewrite Hfile; reflexivity|].
  split.
  { intros [g|g] Hq; cbn; [|reflexivity].
    rewrite Hd. cbn. apply lookup_insert_ne. congruence. }
  split.
  { unfold BASELINE_FILE. intros [= E].
    pose proof (csv_name_not_json (testSuite report) "_" (replace_colon_dot now_iso)) as H.
    fold filename in H. rewrite E in H. vm_compute in H. discriminate. }
  assert (Hex : existsSync {| results_dir := Some (<[filename := file]> d);
                              elsewhere := elsewhere fs |} (InResultsDir filename)
                = true).
  { unfold existsSync. apply bool_decide_eq_true. rewrite Hfile. eexists. reflexivity. }
  split.
  { unfold ResultsStorage.loadReport, readJson. rewrite Hex, Hfile. reflexivity. }
  split.
  { unfold CompareTool.loadReport, readJson. rewrite Hex, Hfile. reflexivity. }
  intros keepLast.
  destruct (cleanup_deletes_drop
              {| results_dir := Some (<[filename := file]> d);
                 elsewhere := elsewhere fs |}
              (<[filename := file]> d) keepLast _ eq_refl (slice_drop _ keepLast))
    as (d'' & Hfs & _ & Hkeep).
  rewrite Hfs. cbn [lookup_file results_dir mbind option_bind].
  apply Hkeep. intros Hin. apply dropped_names_old in Hin as [_ Hold].
  unfold filename in Hold. rewrite csv_name_not_old_result in Hold. discriminate.
Qed.

Lemma exportToCSV_frame_witness :
  exists filepath fs' log,
    ResultsStorage.exportToCSV sample_fs "2025-01-16T09:00:00.000Z" 3000 sample_current
    = Normal (filepath, fs', log) /\
    lookup_file fs' BASELINE_FILE = lookup_file sample_fs BASELINE_FILE /\
    ResultsStorage.loadReport fs' filepath = (None, [FailedToLoadReport filepath]).
Proof.
  eexists _, _, _. split; [vm_compute; reflexivity|].
  match goal with
  | |- context [lookup_file ?fs' BASELINE_FILE = _] =>
      destruct (exportToCSV_frame sample_fs "2025-01-16T09:00:00.000Z" 3000
                  sample_current
                  (InResultsDir "ipc-performance_2025-01-16T09-00-00-000Z.csv")
                  fs' [CsvExported (InResultsDir "ipc-performance_2025-01-16T09-00-00-000Z.csv")])
        as (_ & Hframe & Hb & Hload & _)
  end; [vm_compute; reflexivity|].
  split; [apply Hframe; intros E; apply Hb; symmetry; exact E|exact Hload].
Defined.

(** X19: a missing statistic stops the export before anything is
    written.  The rows are built before the file is named and written,
    so a report in which a statistic of some result is missing makes
    [exportToCSV] throw the TypeError of [toFixed], whatever the file
    system holds and whether or not the results directory exists.  The
    summary of an empty sample is such a result. *)
Theorem exportToCSV_missing_statistic (fs : FileSystem) (now_iso : string)
    (now_ms : Z) (report : PerformanceReport) :
  forallb (fun r => numeric (stats r)) (results report) = false ->
  ResultsStorage.exportToCSV fs now_iso now_ms report = Throw TypeError.
Proof.
  intros Hnum. unfold ResultsStorage.exportToCSV.
  pose proof (traverse_csv_row (results report)) as Hrows.
  destruct (traverse ResultsStorage.csv_row (results report)) as [rows|e];
    cbn [bind].
  - rewrite Hnum in Hrows. discriminate.
  - destruct Hrows as [-> _]. reflexivity.
Qed.

Lemma exportToCSV_missing_statistic_witness :
  calculateStats [] = Normal empty_summary /\
  forallb (fun r => numeric (stats r))
    (results (sample_report [tracked_result "T" "2025-01-15T10:30:00.000Z"
                               empty_summary 0 None])) = false /\
  ResultsStorage.exportToCSV sample_fs "2025-01-16T09:00:00.000Z" 3000
    (sample_report [tracked_result "T" "2025-01-15T10:30:00.000Z" empty_summary 0 None])
  = Throw TypeError.
Proof.
  split; [reflexivity|]. split; [reflexivity|].
  apply (exportToCSV_missing_statistic sample_fs "2025-01-16T09:00:00.000Z" 3000
           (sample_report [tracked_result "T" "2025-01-15T10:30:00.000Z"
                             empty_summary 0 None])).
  reflexivity.
Defined.

(** A suite name with a path separator names a file of a sub-directory,
    which the export does not create: the write fails though the results
    directory exists. *)
Example exportToCSV_sub_directory :
  ResultsStorage.exportToCSV sample_fs "2025-01-16T09:00:00.000Z" 3000
    {| testSuite := "a/b";
       reportTimestamp := reportTimestamp sample_current;
       environment := environment sample_current;
       results := results sample_current |}
  = Throw ENOENT.
Proof. vm_compute. reflexivity. Qed.

Lemma occurrences_app (c : ascii) (a b : string) :
  occurrences c (a +:+ b) = (occurrences c a + occurrences c b)%nat.
Proof.
  induction a as [|d a IH]; [reflexivity|].
  change (String d a +:+ b) with (String d (a +:+ b)).
  cbn [occurrences]. rewrite IH. lia.
Qed.

Lemma occurrences_substring (c : ascii) (s : string) (i k : nat) :
  (occurrences c (substring i k s) <= occurrences c s)%nat.
Proof.
  revert i k. induction s as [|d s IH]; intros i k.
  - destruct i, k; cbn; lia.
  - destruct i as [|i].
    + destruct k as [|k]; cbn [substring occurrences]; [lia|].
      specialize (IH 0%nat k). lia.
    + cbn [substring occurrences]. specialize (IH i k). lia.
Qed.

Lemma not_number_character (c d : ascii) :
  occurrences c number_characters = 0%nat ->
  occurrences d number_characters <> 0%nat -> Ascii.eqb c d = false.
Proof.
  intros Hc Hd. destruct (Ascii.eqb_spec c d) as [->|]; [contradiction|reflexivity].
Qed.

Lemma occurrences_digit (c : ascii) (x : N) :
  occurrences c number_characters = 0%nat ->
  Ascii.eqb c (pretty_N_char x) = false.
Proof.
  intros Hc. apply (not_number_character c _ Hc).
  unfold pretty_N_char. repeat case_match; vm_compute; discriminate.
Qed.

Lemma occurrences_pretty_N_go (c : ascii) (x : N) (s : string) :
  occurrences c number_characters = 0%nat ->
  occurrences c (pretty_N_go x s) = occurrences c s.
Proof.
  intros Hc. revert s. induction (N.lt_wf_0 x) as [x _ IH]; intros s.
  destruct (N.eq_dec x 0%N) as [->|Hx]; [reflexivity|].
  rewrite pretty_N_go_step by lia.
  rewrite IH by (apply N.div_lt; lia).
  cbn [occurrences]. rewrite (occurrences_digit c _ Hc). reflexivity.
Qed.

Lemma occurrences_pretty_N (c : ascii) (x : N) :
  occurrences c number_characters = 0%nat -> occurrences c (pretty x) = 0%nat.
Proof.
  intros Hc. unfold pretty, pretty_N. destruct (decide (x = 0%N)).
  - cbn [occurrences]. rewrite (not_number_character c "0" Hc);
      [reflexivity|vm_compute; discriminate].
  - rewrite (occurrences_pretty_N_go c x "" Hc). reflexivity.
Qed.

Lemma occurrences_pretty_Z (c : ascii) (x : Z) :
  occurrences c number_characters = 0%nat -> occurrences c (pretty x) = 0%nat.
Proof.
  intros Hc. destruct x as [|p|p].
  - apply (occurrences_pretty_N c 0%N Hc).
  - apply (occurrences_pretty_N c (Npos p) Hc).
  - change (pretty (Zneg p)) with ("-" +:+ pretty (Npos p)).
    rewrite occurrences_app, (occurrences_pretty_N c (Npos p) Hc).
    cbn [occurrences]. rewrite (not_number_character c "-" Hc);
      [reflexivity|vm_compute; discriminate].
Qed.

Lemma occurrences_literal (c : ascii) (s : string) :
  occurrences c number_characters = 0%nat ->
  forallb (fun d => negb (Nat.eqb (occurrences d number_characters) 0))
          (list_ascii_of_string s) = true ->
  occurrences c s = 0%nat.
Proof.
  intros Hc. induction s as [|d s IH]; [reflexivity|].
  cbn [list_ascii_of_string forallb occurrences].
  intros H. apply andb_prop in H as [Hd Hs].
  rewrite (not_number_character c d Hc), (IH Hs); [reflexivity|].
  apply negb_true_iff, Nat.eqb_neq in Hd. exact Hd.
Qed.

Lemma occurrences_two_decimals (c : ascii) (n : Z) :
  occurrences c number_characters = 0%nat -> occurrences c (two_decimals n) = 0%nat.
Proof.
  intros Hc. unfold two_decimals, digits_of.
  pose proof (occurrences_pretty_N c (Z.to_N n) Hc) as Hd.
  set (ds := if (String.length (pretty (Z.to_N n)) <=? 2)%nat
             then (if (String.length (pretty (Z.to_N n)) <=? 1)%nat then "00" else "0")
                  +:+ pretty (Z.to_N n)
             else pretty (Z.to_N n)).
  assert (Hds : occurrences c ds = 0%nat).
  { subst ds. destruct (_ <=? 2)%nat; [|exact Hd].
    rewrite occurrences_app, Hd.
    destruct (_ <=? 1)%nat; rewrite (occurrences_literal c _ Hc); reflexivity. }
  rewrite !occurrences_app.
  pose proof (occurrences_substring c ds 0 (String.length ds - 2)).
  pose proof (occurrences_substring c ds (String.length ds - 2) 2).
  rewrite (occurrences_literal c "." Hc) by reflexivity. lia.
Qed.

Lemma occurrences_toString_large (c : ascii) (m : positive) (e : Z) :
  occurrences c number_characters = 0%nat ->
  occurrences c (toString_large m e) = 0%nat.
Proof.
  intros Hc. unfold toString_large.
  destruct (shortest m e 1 17) as [[[s j] n]|]; [|reflexivity].
  unfold digits_of.
  pose proof (occurrences_pretty_N c (Z.to_N s) Hc) as Hs.
  pose proof (occurrences_pretty_N c (Z.to_N (n - 1)) Hc) as Hn.
  destruct (pretty (Z.to_N s)) as [|d ds]; [reflexivity|].
  cbn [occurrences] in Hs.
  assert (Hd : (if Ascii.eqb c d then 1 else 0)%nat = 0%nat) by lia.
  assert (Hds : occurrences c ds = 0%nat) by lia.
  assert (He : occurrences c "e+" = 0%nat) by (apply occurrences_literal; [exact Hc|reflexivity]).
  assert (Hp : occurrences c "." = 0%nat) by (apply occurrences_literal; [exact Hc|reflexivity]).
  destruct ds as [|d' ds'].
  - rewrite occurrences_app. cbn [occurrences] in *. lia.
  - rewrite !occurrences_app. cbn [occurrences]. rewrite occurrences_app.
    cbn [occurrences] in *. lia.
Qed.

Lemma occurrences_toFixed2 (c : ascii) (x : float) :
  occurrences c number_characters = 0%nat -> occurrences c (toFixed2 x) = 0%nat.
Proof.
  intros Hc. unfold toFixed2.
  destruct (Prim2SF x) as [s|[]| |s m e];
    try (apply occurrences_literal; [exact Hc|reflexivity]).
  rewrite occurrences_app.
  assert (Hs : occurrences c (if s then "-" else "") = 0%nat)
    by (destruct s; apply occurrences_literal; try exact Hc; reflexivity).
  rewrite Hs. cbn [Nat.add].
  destruct (0 <=? e); [destruct (10 ^ 21 <=? _)|];
    first [apply occurrences_toString_large, Hc
          |apply occurrences_two_decimals, Hc].
Qed.

Lemma list_sum_cons (x : nat) (l : list nat) :
  list_sum (x :: l) = (x + list_sum l)%nat.
Proof. reflexivity. Qed.

Lemma occurrences_join (c : ascii) (sep : string) (l : list string) :
  occurrences c (join sep l)
  = (list_sum (map (occurrences c) l) + (length l - 1) * occurrences c sep)%nat.
Proof.
  induction l as [|s l IH]; [reflexivity|].
  destruct l as [|s' l'].
  - cbn [join map length Nat.sub Nat.mul]. rewrite list_sum_cons.
    change (list_sum []) with 0%nat. lia.
  - change (join sep (s :: s' :: l')) with (s +:+ sep +:+ join sep (s' :: l')).
    rewrite !occurrences_app, IH.
    cbn [map length Nat.sub]. rewrite !list_sum_cons. lia.
Qed.

Lemma occurrences_row (c : ascii) (r : TestResult) :
  occurrences c number_characters = 0%nat ->
  occurrences c (row_text r)
  = (occurrences_in_texts c r + 9 * occurrences c ",")%nat.
Proof.
  intros Hc. unfold row_text, occurrences_in_texts.
  rewrite occurrences_join.
  cbn [map app length Nat.sub]. rewrite !list_sum_cons.
  change (list_sum []) with 0%nat.
  rewrite !(occurrences_toFixed2 c _ Hc), (occurrences_pretty_Z c _ Hc). lia.
Qed.

Lemma occurrences_rows (c : ascii) (rs : list TestResult) :
  occurrences c number_characters = 0%nat ->
  list_sum (map (occurrences c) (map row_text rs))
  = (list_sum (map (occurrences_in_texts c) rs)
     + length rs * (9 * occurrences c ","))%nat.
Proof.
  intros Hc. induction rs as [|r rs IH]; [reflexivity|].
  cbn [map length]. rewrite !list_sum_cons, IH, (occurrences_row c r Hc). lia.
Qed.

(** X20: the CSV is not quoted.  In a successful export, the text
    written has as many commas as nine per result and nine for the
    header, plus one for every comma inside a test name or a timestamp
    (which then shifts the columns of its row), and as many line breaks
    as there are results, plus those inside the names and timestamps:
    the numbers printed never contain a comma or a line break. *)
Theorem exportToCSV_not_quoted (fs : FileSystem) (now_iso : string) (now_ms : Z)
    (report : PerformanceReport) (filepath : path) (fs' : FileSystem)
    (log : list message) :
  ResultsStorage.exportToCSV fs now_iso now_ms report = Normal (filepath, fs', log) ->
  exists csv,
    option_map content (lookup_file fs' filepath) = Some (Text csv) /\
    occurrences "," csv
    = (9 + 9 * length (results report)
       + list_sum (map (occurrences_in_texts ",") (results report)))%nat /\
    occurrences "010" csv
    = (length (results report)
       + list_sum (map (occurrences_in_texts "010") (results report)))%nat.
Proof.
  unfold ResultsStorage.exportToCSV.
  pose proof (traverse_csv_row (results report)) as Hnum.
  destruct (traverse ResultsStorage.csv_row (results report)) as [rows|e] eqn:Et;
    cbn [bind]; [|discriminate].
  rewrite (traverse_rows _ Hnum) in Et. injection Et as <-.
  destruct (results_dir fs) as [d|]; [|discriminate].
  destruct (ResultsStorage.has_separator _); [discriminate|].
  intros [= <- <- <-].
  exists (join newline (ResultsStorage.csv_header :: map row_text (results report))).
  split; [cbn; rewrite lookup_insert_eq; reflexivity|].
  split; rewrite occurrences_join; cbn [map length Nat.sub];
    rewrite list_sum_cons;
    rewrite occurrences_rows by reflexivity; rewrite length_map;
    change (occurrences "," ResultsStorage.csv_header) with 9%nat;
    change (occurrences "010" ResultsStorage.csv_header) with 0%nat;
    change (occurrences "," ",") with 1%nat;
    change (occurrences "010" ",") with 0%nat;
    change (occurrences "," newline) with 0%nat;
    change (occurrences "010" newline) with 1%nat; lia.
Qed.

Lemma exportToCSV_not_quoted_witness :
  exists filepath fs' log csv,
    ResultsStorage.exportToCSV sample_fs "2025-01-16T09:00:00.000Z" 3000 comma_report
    = Normal (filepath, fs', log) /\
    option_map content (lookup_file fs' filepath) = Some (Text csv) /\
    occurrences "," csv = 19%nat.
Proof.
  destruct (ResultsStorage.exportToCSV sample_fs "2025-01-16T09:00:00.000Z" 3000
              comma_report) as [[[filepath fs'] log]|e] eqn:E;
    [|vm_compute in E; discriminate].
  destruct (exportToCSV_not_quoted _ _ _ _ _ _ _ E) as (csv & Hf & Hc & _).
  exists filepath, fs', log, csv. split; [reflexivity|]. split; [exact Hf|].
  rewrite Hc. reflexivity.
Defined.

End ExporterRelations.

(** ** More properties of the statistics engine *)

Section StatisticsRelations.
Import Binary64Facts.

Lemma index_in (a : list float) (k : Z) :
  0 <= k < Z.of_nat (length a) ->
  exists x, index a (Some k) = Num x /\ In x a /\ a !! Z.to_nat k = Some x.
Proof.
  intros Hk. destruct (lookup_in_range a k Hk) as [x Hx].
  exists x. split; [apply index_lookup; [lia|exact Hx]|].
  split; [|exact Hx]. apply list_elem_of_In. eapply list_elem_of_lookup_2, Hx.
Qed.

(** X21: the order statistics are samples.  For a non-empty array of
    durations, each of median, min, max, p95 and p99 of the summary is
    one of the durations (nothing is interpolated); and when the
    durations are finite, min and max bound every duration. *)
Theorem order_statistics_are_samples (durations : list float) :
  durations <> [] ->
  Z.of_nat (length durations) < 2 ^ 32 ->
  exists s, calculateStats durations = Normal s /\
    Forall (fun v => exists x, v = Num x /\ In x durations)
           [median s; min s; max s; p95 s; p99 s] /\
    (forallb Binary64.finite durations = true ->
     forall x, In x durations ->
       le (min s) (Num x) = true /\ le (Num x) (max s) = true).
Proof.
  intros Hne Hlen. rewrite (calculateStats_reference durations Hlen).
  eexists. split; [reflexivity|].
  set (a := sort ascending durations).
  assert (Hn : 0 < Z.of_nat (length a) < 2 ^ 32).
  { unfold a. rewrite sort_length.
    assert (length durations <> 0%nat) by (destruct durations; [congruence|discriminate]).
    lia. }
  assert (Hin : forall k, 0 <= k < Z.of_nat (length a) ->
                exists x, index a (Some k) = Num x /\ In x durations).
  { intros k Hk. destruct (index_in a k Hk) as (x & Hx & Hi & _).
    exists x. split; [exact Hx|].
    eapply Permutation_in; [apply sort_perm|exact Hi]. }
  unfold reference_summary. cbn [median min max p95 p99]. fold a.
  split.
  - repeat constructor; apply Hin; Z.to_euclidean_division_equations; lia.
  - intros Hf x Hx. apply forallb_finite in Hf.
    assert (Hfa : Forall (fun x => Binary64.finite x = true) a)
      by (apply sort_Forall, Hf).
    assert (Hsa : StronglySorted (key_le Binary64.fkey) a)
      by (apply sort_ascending_sorted, Hf).
    assert (Hxa : In x a) by (eapply Permutation_in; [symmetry; apply sort_perm|exact Hx]).
    apply list_elem_of_In, list_elem_of_lookup in Hxa as [i Hi].
    pose proof (lookup_lt_Some _ _ _ Hi) as Hlt.
    assert (Hix : index a (Some (Z.of_nat i)) = Num x)
      by (apply index_lookup; [lia|rewrite Nat2Z.id; exact Hi]).
    rewrite <- Hix. split; apply sorted_index_le; try assumption; lia.
Qed.

Lemma order_statistics_are_samples_witness :
  [3; 1; 2]%float <> [] /\
  Z.of_nat (length [3; 1; 2]%float) < 2 ^ 32 /\
  exists s, calculateStats [3; 1; 2]%float = Normal s /\
    Forall (fun v => exists x, v = Num x /\ In x [3; 1; 2]%float)
           [median s; min s; max s; p95 s; p99 s].
Proof.
  split; [discriminate|]. split; [reflexivity|].
  destruct (order_statistics_are_samples [3; 1; 2]%float ltac:(discriminate) eq_refl)
    as (s & Hs & Hin & _).
  exists s. split; assumption.
Defined.

(** X22: with few samples the high percentiles are the maximum: p99 is
    the largest sample whenever there are at most 100 samples, p95
    whenever there are at most 20, and the median whenever there are at
    most two (of two samples the median is the larger one). *)
Theorem small_sample_percentiles (durations : list float) :
  durations <> [] ->
  exists s, calculateStats durations = Normal s /\
            ((length durations <= 100)%nat -> p99 s = max s) /\
            ((length durations <= 20)%nat -> p95 s = max s) /\
            ((length durations <= 2)%nat -> median s = max s).
Proof.
  intros Hne. eexists. split; [reflexivity|].
  cbn [p99 p95 median max]. rewrite sort_length.
  assert (Hn : 0 < Z.of_nat (length durations))
    by (destruct durations; [congruence|cbn [length]; lia]).
  split; [|split]; intros Hl.
  - rewrite floor_n_099 by lia. do 2 f_equal.
    Z.to_euclidean_division_equations; lia.
  - rewrite floor_n_095 by lia. do 2 f_equal.
    Z.to_euclidean_division_equations; lia.
  - rewrite floor_half by lia. do 2 f_equal.
    Z.to_euclidean_division_equations; lia.
Qed.

Lemma small_sample_percentiles_witness :
  [3; 1; 2]%float <> [] /\
  exists s, calculateStats [3; 1; 2]%float = Normal s /\
            p99 s = Num 3 /\ p95 s = Num 3 /\ max s = Num 3.
Proof.
  split; [discriminate|].
  destruct (small_sample_percentiles [3; 1; 2]%float ltac:(discriminate))
    as (s & Hs & H99 & H95 & _).
  exists s. split; [exact Hs|].
  assert (Hmax : max s = Num 3) by (injection Hs as <-; reflexivity).
  rewrite (H99 ltac:(cbn; lia)), (H95 ltac:(cbn; lia)), Hmax. repeat split.
Defined.

Lemma add_nan (a b : float) :
  notnan a && notnan b = false -> notnan (a + b) = false.
Proof.
  unfold notnan. rewrite add_spec.
  destruct (Prim2SF a) as [sa|sa| |sa ma ea], (Prim2SF b) as [sb|sb| |sb mb eb];
    cbn [Binary64.SFnotnan andb]; try discriminate; reflexivity.
Qed.

Lemma sub_nan (a b : float) :
  notnan a && notnan b = false -> notnan (a - b) = false.
Proof.
  unfold notnan. rewrite sub_spec.
  destruct (Prim2SF a) as [sa|sa| |sa ma ea], (Prim2SF b) as [sb|sb| |sb mb eb];
    cbn [Binary64.SFnotnan andb]; try discriminate; reflexivity.
Qed.

Lemma mul_nan (a b : float) :
  notnan a && notnan b = false -> notnan (a * b) = false.
Proof.
  unfold notnan. rewrite mul_spec.
  destruct (Prim2SF a) as [sa|sa| |sa ma ea], (Prim2SF b) as [sb|sb| |sb mb eb];
    cbn [Binary64.SFnotnan andb]; try discriminate; reflexivity.
Qed.

Lemma div_nan (a b : float) : notnan a = false -> notnan (a / b) = false.
Proof.
  unfold notnan. rewrite div_spec.
  destruct (Prim2SF a) as [sa|sa| |sa ma ea]; try discriminate. reflexivity.
Qed.

Lemma sqrt_nan (a : float) : notnan a = false -> notnan (sqrt a) = false.
Proof.
  unfold notnan. rewrite sqrt_spec.
  destruct (Prim2SF a) as [sa|sa| |sa ma ea]; try discriminate. reflexivity.
Qed.

Lemma notnan_false (a : float) : notnan a = false -> a = nan.
Proof.
  unfold notnan. intros H. apply Prim2SF_inj.
  destruct (Prim2SF a); try discriminate. reflexivity.
Qed.

(** A sum is NaN once the accumulator is, or when a term is. *)
Lemma sum_nan (g : float -> float) (l : list float) (acc : float) :
  notnan acc = false \/ (exists v, In v l /\ notnan (g v) = false) ->
  notnan (fold_left (fun sum val => (sum + g val)%float) l acc) = false.
Proof.
  revert acc. induction l as [|x l IH]; intros acc [Ha|(v & Hv & Hg)].
  - exact Ha.
  - destruct Hv.
  - cbn [fold_left]. apply IH. left. apply add_nan. rewrite Ha. reflexivity.
  - cbn [fold_left]. destruct Hv as [->|Hv].
    + apply IH. left. apply add_nan. rewrite Hg. apply andb_false_r.
    + apply IH. right. exists v. split; assumption.
Qed.

(** X23: [calculateStats] does not reject a NaN sample: when some
    duration is NaN it completes, and both the mean and the standard
    deviation of the summary are NaN. *)
Theorem nan_sample_poisons (durations : list float) :
  existsb is_nan durations = true ->
  exists s, calculateStats durations = Normal s /\
            mean s = Num nan /\ stdDev s = Num nan.
Proof.
  intros Hex. eexists. split; [reflexivity|].
  cbn [mean stdDev].
  apply existsb_exists in Hex as (x & Hx & Hnan).
  rewrite Binary64Order.is_nan_notnan in Hnan. apply negb_true_iff in Hnan.
  assert (Hs : In x (sort ascending durations)).
  { eapply Permutation_in; [symmetry; apply sort_perm|exact Hx]. }
  set (sorted := sort ascending durations) in *.
  assert (Hmean : notnan (fold_left (fun sum val => sum + val) sorted 0
                          / of_int (Z.of_nat (length sorted)))%float = false).
  { apply div_nan. apply (sum_nan (fun v => v)). right. exists x. split; assumption. }
  apply notnan_false in Hmean. rewrite Hmean.
  split; [reflexivity|]. f_equal. apply notnan_false, sqrt_nan, div_nan.
  apply (sum_nan (fun val => Math_pow2 (val - nan))). right.
  exists x. split; [exact Hs|]. unfold Math_pow2.
  apply mul_nan. rewrite sub_nan; [reflexivity|apply andb_false_r].
Qed.

Lemma nan_sample_poisons_witness :
  existsb is_nan [1; nan; 2]%float = true /\
  exists s, calculateStats [1; nan; 2]%float = Normal s /\ mean s = Num nan.
Proof.
  split; [reflexivity|].
  destruct (nan_sample_poisons [1; nan; 2]%float eq_refl) as (s & Hs & Hm & _).
  exists s. split; assumption.
Defined.

End StatisticsRelations.

(** ** Properties of the render benchmark *)

Section RenderProperties.
Import Binary64 Binary64Facts.
Context {World : Type}.
Variable performance_now : World -> float * World.

Lemma render_rounds_returns (renderFn : World -> completion unit * World)
    (k : nat) (ds : list float) (w : World) :
  (forall w, exists w', renderFn w = (Normal tt, w')) ->
  exists ds' w',
    ReactMetrics.render_rounds performance_now renderFn k ds w
    = (Normal (ds ++ ds'), w') /\ length ds' = k.
Proof.
  intros Hfn. revert ds w. induction k as [|k IH]; intros ds w.
  - exists [], w. rewrite app_nil_r. split; reflexivity.
  - cbn [ReactMetrics.render_rounds].
    destruct (performance_now w) as [start w1].
    destruct (Hfn w1) as (w2 & ->).
    destruct (performance_now w2) as [finish w3].
    destruct (IH (ds ++ [(finish - start)%float]) w3) as (ds' & w' & Hr & Hl).
    rewrite Hr. exists ((finish - start)%float :: ds'), w'.
    rewrite <- app_assoc. split; [reflexivity|cbn [length]; congruence].
Qed.

(** X24: when the render never throws, [benchmarkComponentRender]
    completes with one duration per iteration, and its median, p95 and
    p99 are those [calculateStats] gives for the same durations.  Its
    mean adds the durations in the order measured, not sorted: it is the
    mean of [calculateStats] when the durations were measured in
    ascending order (and are finite, not -0). *)
Theorem benchmarkComponentRender_statistics
    (renderFn : World -> completion unit * World) (iterations : Z) (w : World) :
  (forall w, exists w', renderFn w = (Normal tt, w')) ->
  exists b w' s,
    ReactMetrics.benchmarkComponentRender performance_now renderFn iterations w
    = (Normal b, w') /\
    length (ReactMetrics.durations b) = Z.to_nat iterations /\
    calculateStats (ReactMetrics.durations b) = Normal s /\
    ReactMetrics.median b = median s /\
    ReactMetrics.p95 b = p95 s /\
    ReactMetrics.p99 b = p99 s /\
    (forallb ordinary (ReactMetrics.durations b) = true ->
     is_ascending (ReactMetrics.durations b) = true ->
     Num (ReactMetrics.mean b) = mean s).
Proof.
  intros Hfn. unfold ReactMetrics.benchmarkComponentRender.
  destruct (render_rounds_returns renderFn (Z.to_nat iterations) [] w Hfn)
    as (ds & w' & Hr & Hl).
  rewrite Hr. cbn [app].
  eexists _, w', _. split; [reflexivity|].
  cbn [ReactMetrics.render_statistics ReactMetrics.durations ReactMetrics.median
       ReactMetrics.p95 ReactMetrics.p99 ReactMetrics.mean].
  split; [exact Hl|]. split; [reflexivity|].
  cbn [median p95 p99 mean]. repeat (split; [reflexivity|]).
  intros Ho Ha. apply forallb_ordinary in Ho.
  rewrite (sort_ascending_unique ds ds Ho (Permutation_refl ds) Ha). reflexivity.
Qed.

End RenderProperties.

Lemma benchmarkComponentRender_statistics_witness :
  (forall w, exists w', clock_render w = (Normal tt, w')) /\
  exists b w',
    ReactMetrics.benchmarkComponentRender clock_now clock_render 3 0 = (Normal b, w') /\
    length (ReactMetrics.durations b) = 3%nat.
Proof.
  assert (Hfn : forall w, exists w', clock_render w = (Normal tt, w'))
    by (intros w; eexists; reflexivity).
  split; [exact Hfn|].
  destruct (benchmarkComponentRender_statistics clock_now clock_render 3 0 Hfn)
    as (b & w' & s & Hb & Hl & _).
  exists b, w'. split; assumption.
Defined.

(** Durations measured in descending order: the mean of the render
    benchmark and the mean of [calculateStats] differ in the last
    place. *)
Example means_differ :
  ReactMetrics.mean (ReactMetrics.render_statistics [0.3; 0.2; 0.1]%float)
    = 0.19999999999999998%float /\
  calculateStats [0.3; 0.2; 0.1]%float
    = Normal (mkStats (Num 0.20000000000000004) (Num 0.2) (Num 0.1) (Num 0.3)
                      (Num 0.3) (Num 0.3) (Num 0.0816496580927726)).
Proof. split; reflexivity. Qed.

(** ** Properties of the memory format *)

Section FormatProperties.
Import Binary64 Binary64Facts Binary64Order.

(** Division of a number with a full mantissa by a power of two is
    exact, short of underflow. *)
Lemma SFdiv_pow2 s m e j :
  Zpos (digits2_pos m) = 53 -> -1074 <= e - j - 1 -> e - j <= 971 ->
  SF64div (S754_finite s m e) (S754_finite false 4503599627370496 (j - 52))
  = S754_finite s m (e - j).
Proof.
  intros Hd Hlo Hhi. cbn [SF64div SFdiv]. rewrite xorb_false_r.
  unfold SFdiv_core_binary. cbn [Zdigits2].
  change (Zpos (digits2_pos 4503599627370496)) with 53. rewrite Hd.
  replace (Z.min _ _) with (e - j - 1)
    by (unfold fexp, SpecFloat.emin, emax, prec; lia).
  replace (e - (j - 52) - (e - j - 1)) with 53 by lia.
  rewrite (div_eucl_exact _ _ (Zpos m~0)); [| lia |].
  - change (new_location 4503599627370496 0) with loc_Exact.
    apply binary_round_aux_double; [exact Hd|lia..].
  - rewrite Z.shiftl_mul_pow2 by lia. change (2 ^ 53) with 9007199254740992. lia.
Qed.

Lemma div_1024 (x : float) m e :
  Prim2SF x = S754_finite false m e ->
  2 ^ 52 <= Zpos m < 2 ^ 53 -> -1063 <= e <= 971 ->
  Prim2SF (x / 1024) = S754_finite false m (e - 10).
Proof.
  intros Hx Hm He. rewrite div_spec, Hx.
  change (Prim2SF 1024) with (S754_finite false 4503599627370496 (10 - 52)).
  apply SFdiv_pow2; [apply digits2_pos_53, Hm|lia..].
Qed.

Lemma leb_1024 (x : float) m e :
  Prim2SF x = S754_finite false m e -> -1074 <= e <= 0 ->
  (1024 <=? x)%float = (1024 * 2 ^ (- e) <=? Zpos m).
Proof.
  intros Hx He. rewrite leb_frank. unfold notnan, frank. rewrite Hx.
  change (Prim2SF 1024) with (S754_finite false 4503599627370496 (-42)).
  cbn [SFnotnan andb rank key cond_Zopp].
  assert (Hp : 0 < 2 ^ (e + 1074)) by (apply pow2_pos; lia).
  replace (Zpos 4503599627370496 * 2 ^ (-42 + 1074))
    with (1024 * 2 ^ (- e) * 2 ^ (e + 1074)).
  2: { change (Zpos 4503599627370496) with (2 ^ 52). change 1024 with (2 ^ 10).
       rewrite <- !Z.pow_add_r by lia. f_equal. lia. }
  destruct (Z.leb_spec (1024 * 2 ^ (- e)) (Zpos m));
    destruct (Z.leb_spec (1024 * 2 ^ (- e) * 2 ^ (e + 1074))
                         (Zpos m * 2 ^ (e + 1074))); try reflexivity; nia.
Qed.

Lemma pow_1024 k : 0 <= k -> 1024 ^ k = 2 ^ (10 * k).
Proof. intros Hk. change 1024 with (2 ^ 10). rewrite <- Z.pow_mul_r by lia. reflexivity. Qed.

(** One round of the loop on a number [n / 1024^k] held exactly. *)
Lemma scale_stage (x : float) m n j k :
  Prim2SF x = S754_finite false m (- (j + 10 * k)) ->
  Zpos m = n * 2 ^ j -> 2 ^ 52 <= Zpos m < 2 ^ 53 ->
  0 <= j <= 52 -> 0 <= k <= 3 ->
  (1024 <=? x)%float = (1024 ^ (k + 1) <=? n) /\
  Prim2SF (x / 1024) = S754_finite false m (- (j + 10 * (k + 1))).
Proof.
  intros Hx Hm Hb Hj Hk. split.
  - rewrite (leb_1024 x m _ Hx) by lia. rewrite Z.opp_involutive, Hm.
    rewrite Z.pow_add_r, <- pow_1024, Z.pow_add_r by lia.
    change (1024 ^ 1) with 1024.
    assert (0 < 2 ^ j) by (apply pow2_pos; lia).
    assert (0 < 1024 ^ k) by (apply Z.pow_pos_nonneg; lia).
    destruct (Z.leb_spec (1024 * (2 ^ j * 1024 ^ k)) (n * 2 ^ j));
      destruct (Z.leb_spec (1024 ^ k * 1024) n); try reflexivity; nia.
  - rewrite (div_1024 x m _ Hx Hb) by lia. f_equal. lia.
Qed.

(** [toFixed(2)] of a number [n / 1024^k] held exactly. *)
Lemma toFixed2_scaled (x : float) m n j k :
  Prim2SF x = S754_finite false m (- (j + 10 * k)) ->
  Zpos m = n * 2 ^ j -> 0 <= j -> 0 <= k -> 0 < j + 10 * k ->
  toFixed2 x = two_decimals ((200 * n + 1024 ^ k) / (2 * 1024 ^ k)).
Proof.
  intros Hx Hm Hj Hk Hpos. unfold toFixed2. rewrite Hx.
  destruct (Z.leb_spec 0 (- (j + 10 * k))) as [|_]; [lia|].
  change ("" +:+ ?s) with s. f_equal.
  rewrite Z.opp_involutive, Hm.
  assert (H2 : 0 < 2 ^ j) by (apply pow2_pos; lia).
  assert (H1 : 0 < 1024 ^ k) by (apply Z.pow_pos_nonneg; lia).
  replace (2 * (n * 2 ^ j * 100) + 2 ^ (j + 10 * k))
    with (2 ^ j * (200 * n + 1024 ^ k))
    by (rewrite Z.pow_add_r, <- pow_1024 by lia; ring).
  replace (2 ^ (j + 10 * k + 1)) with (2 ^ j * (2 * 1024 ^ k))
    by (rewrite !Z.pow_add_r, <- pow_1024 by lia; change (2 ^ 1) with 2; ring).
  apply Z.div_mul_cancel_l; lia.
Qed.

(** X25: for a whole number of bytes [n] below 2^53, [formatMemory]
    shows [n / 1024^k] with the unit number [k] of B, KB, MB, GB, where
    [k] is the largest of 0..3 with [1024^k <= n] (sizes of 1024 GB and
    more stay in GB): no division rounds, and the text is that quotient
    in hundredths, rounded half up, printed with two decimals. *)
Theorem formatMemory_whole_bytes (n : Z) :
  0 <= n < 2 ^ 53 ->
  let k := if n <? 1024 then 0
           else if n <? 1024 ^ 2 then 1
           else if n <? 1024 ^ 3 then 2 else 3 in
  Metrics.formatMemory (of_int n)
  = two_decimals ((200 * n + 1024 ^ k) / (2 * 1024 ^ k))
    +:+ " " +:+ nth (Z.to_nat k) Metrics.units "".
Proof.
  intros Hn k. destruct (Z.eq_dec n 0) as [->|Hz]; [vm_compute; reflexivity|].
  destruct (of_int_spec n ltac:(lia)) as (m & e & Hx & He & Hm & Hb).
  set (j := - e). assert (Hj : 0 <= j <= 52) by (subst j; lia).
  replace e with (- (j + 10 * 0)) in Hx by (subst j; lia).
  fold j in Hm.
  unfold Metrics.formatMemory.
  change (length Metrics.units - 1)%nat with 3%nat.
  cbn [Metrics.formatMemory_loop].
  destruct (scale_stage _ m n j 0 Hx Hm Hb Hj ltac:(lia)) as [C0 D0].
  destruct (scale_stage _ m n j 1 D0 Hm Hb Hj ltac:(lia)) as [C1 D1].
  destruct (scale_stage _ m n j 2 D1 Hm Hb Hj ltac:(lia)) as [C2 D2].
  rewrite C0, C1, C2. subst k.
  change (1024 ^ (0 + 1)) with 1024. change (1024 ^ (1 + 1)) with (1024 ^ 2).
  change (1024 ^ (2 + 1)) with (1024 ^ 3).
  rewrite !(Z.leb_antisym n).
  assert (Hlow : n < 1024 -> 0 < j).
  { intros Hlt. destruct (Z.eq_dec j 0) as [E|]; [|lia].
    rewrite E in Hm. change (2 ^ 0) with 1 in Hm.
    assert (2 ^ 10 <= 2 ^ 52) by (apply Z.pow_le_mono_r; lia).
    change (2 ^ 10) with 1024 in *. lia. }
  destruct (Z.ltb_spec n 1024); cbn [negb].
  { rewrite (toFixed2_scaled _ m n j 0 Hx Hm) by lia. reflexivity. }
  destruct (Z.ltb_spec n (1024 ^ 2)); cbn [negb].
  { rewrite (toFixed2_scaled _ m n j 1 D0 Hm) by lia. reflexivity. }
  destruct (Z.ltb_spec n (1024 ^ 3)); cbn [negb].
  { rewrite (toFixed2_scaled _ m n j 2 D1 Hm) by lia. reflexivity. }
  rewrite (toFixed2_scaled _ m n j 3 D2 Hm) by lia. reflexivity.
Qed.

Lemma formatMemory_whole_bytes_witness :
  0 <= 1536 < 2 ^ 53 /\ Metrics.formatMemory (of_int 1536) = "1.50 KB".
Proof.
  split; [split; [lia|reflexivity]|].
  apply (formatMemory_whole_bytes 1536). split; [lia|reflexivity].
Defined.

Example formatMemory_samples :
  map Metrics.formatMemory [0; 1023; 1024; 1536; 1048576; 5368709120; 1e15; -2048; nan]%float
  = ["0.00 B"; "1023.00 B"; "1.00 KB"; "1.50 KB"; "1.00 MB"; "5.00 GB";
     "931322.57 GB"; "-2048.00 B"; "NaN B"].
Proof. vm_compute. reflexivity. Qed.

End FormatProperties.
